(** * Group daily analysis: message fetching, statistics and the analyzer template

    A shallow embedding of
      - [src/core/message_handler.py]  ([MessageHandler.set_bot_qq_id],
        [MessageHandler.fetch_group_messages],
        [MessageHandler.calculate_statistics]),
      - [src/models/data_models.py]    ([TokenUsage], [EmojiStatistics],
        [GroupStatistics]),
      - [src/analysis/analyzers/base_analyzer.py] ([BaseAnalyzer.analyze]),
      - [src/reports/generators.py]    ([ReportGenerator.generate_image_report],
        [ReportGenerator._render_html_template]),
    followed by the properties of these functions.

    Conventions.
      - Python [int] is [Z]; Python [str] is a [string] holding the UTF-8
        bytes of the text (concatenation and substring tests on the bytes
        agree with the ones on code points; [len] counts the bytes that
        start a code point).
      - A naive [datetime] is the number of microseconds since
        1970-01-01 00:00:00 on the local calendar, a [Z]; the local offset
        from UTC is a section variable: the zone is taken to keep one
        offset all year (no daylight-saving jumps).
      - A JSON object read with [.get(key, default)] is a record of
        optional fields, [None] standing for a missing key.
      - Exceptions are the ones [except Exception] catches. *)

From Stdlib Require Import ZArith List String Ascii Bool Lia QArith.
From Stdlib Require Import DecimalString.
From stdpp Require Import base option list sorting gmap strings.

Local Open Scope string_scope.
Local Open Scope list_scope.
Local Open Scope Z_scope.

(** ** Results of fallible code *)

Inductive res (E A : Type) : Type :=
| Ok (a : A)
| Raise (e : E).
Arguments Ok {E A} a.
Arguments Raise {E A} e.

Definition bind {E A B} (m : res E A) (k : A -> res E B) : res E B :=
  match m with
  | Ok a => k a
  | Raise e => Raise e
  end.

(** [try: m except Exception: h] *)
Definition try_except {E A} (m : res E A) (h : E -> res E A) : res E A :=
  match m with
  | Ok a => Ok a
  | Raise e => h e
  end.

#[global] Instance res_bind {E} : MBind (res E) := fun _ _ k m => bind m k.

(** ** Dates and times *)

Module Datetime.

Definition usec_per_sec : Z := 1000000.
Definition usec_per_day : Z := 86400 * usec_per_sec.

(** [datetime.min] and [datetime.max] on the microsecond axis. *)
Definition datetime_min : Z := -62135596800 * usec_per_sec.
Definition datetime_max : Z := 253402300799 * usec_per_sec + 999999.

Definition in_range (t : Z) : bool :=
  (datetime_min <=? t) && (t <=? datetime_max).

(** [timedelta(days=d)]: raises [OverflowError] past 999999999 days. *)
Definition timedelta_days (d : Z) : option Z :=
  if (Z.abs d <=? 999999999) then Some (d * usec_per_day) else None.

(** [a - delta] on datetimes: raises [OverflowError] out of range. *)
Definition datetime_sub (a delta : Z) : option Z :=
  let r := a - delta in
  if in_range r then Some r else None.

Section Local.
(** Offset of local time from UTC, in seconds. *)
Variable utc_offset : Z.

(** [datetime.fromtimestamp(t)] for an integer [t], in a zone that keeps
    the offset [utc_offset] all year; [None] when it raises.  The local
    time must be a datetime, and so must the time a day before it, which
    is looked at to detect a repeated hour: the first local time accepted
    is 0001-01-02 00:00:00, the last 9999-12-31 23:59:59. *)
Definition fromtimestamp (t : Z) : option Z :=
  let r := (t + utc_offset) * usec_per_sec in
  if in_range (r - usec_per_day) && in_range r then Some r else None.

(** The [.hour] attribute of a datetime. *)
Definition hour (dt : Z) : Z := (dt / (3600 * usec_per_sec)) mod 24.
End Local.

End Datetime.

(** ** Messages as the platform delivers them *)

(** A [data] dict of a content segment: string keys, values as [str]
  prints them. *)
Definition dict : Type := list (string * string).

Fixpoint dict_get (d : dict) (k : string) : option string :=
  match d with
  | [] => None
  | (k', v) :: d' => if String.eqb k k' then Some v else dict_get d' k
  end.

(** [d.get(k, default)] *)
Definition get_default (d : dict) (k default : string) : string :=
  match dict_get d k with
  | Some v => v
  | None => default
  end.

Record content : Type := mk_content {
  c_type : option string;      (* content.get("type") *)
  c_data : option dict         (* content.get("data", {}) *)
}.

Record sender : Type := mk_sender {
  user_id : option string      (* str(sender.get("user_id", '')) *)
}.

Record message : Type := mk_message {
  m_time : option Z;                 (* msg.get("time", 0) *)
  m_sender : option sender;          (* msg.get("sender", {}) *)
  m_message_id : option Z;           (* msg["message_id"] *)
  m_message : option (list content)  (* msg.get("message", []) *)
}.

(** [msg.get("time", 0)] *)
Definition msg_time_field (m : message) : Z :=
  match m_time m with Some t => t | None => 0 end.

(** [str(msg.get("sender", {}).get("user_id", ''))] *)
Definition msg_sender_id (m : message) : string :=
  match m_sender m with
  | Some s => match user_id s with Some u => u | None => EmptyString end
  | None => EmptyString
  end.

(** ** The message source *)

(** What one [call_action("get_group_msg_history", ...)] does.  A page
    is the list under the "messages" key ([Page []] also stands for a
    [None] there: both end the fetch). *)
Inductive response : Type :=
| CallRaises                       (* the call raises *)
| Invalid                          (* falsy result, or no "messages" key *)
| Page (round_messages : list message).

(** The source answers the [n]-th request (counted from 0) made with
  cursor [message_seq]. *)
Definition source : Type := nat -> Z -> response.

(** ** MessageHandler.fetch_group_messages *)

Module Fetch.
Section Fetch.

Variable utc_offset : Z.

(** [self.config_manager] and [self.bot_qq_id]. *)
Record handler : Type := mk_handler {
  max_query_rounds : Z;
  max_messages : Z;
  bot_qq_id : option string
}.

(** The loop variables, and a ghost count of the requests issued. *)
Record loop_state : Type := mk_state {
  messages : list message;
  message_seq : Z;
  query_rounds : Z;
  consecutive_failures : Z;
  requests : nat
}.

Definition max_failures : Z := 3.

(** [if self.bot_qq_id and sender_id == self.bot_qq_id] *)
Definition is_self (h : handler) (m : message) : bool :=
  match bot_qq_id h with
  | Some b => negb (String.eqb b EmptyString) && String.eqb (msg_sender_id m) b
  | None => false
  end.

(** The variables the [for msg in round_messages] loop updates. *)
Record scan : Type := mk_scan {
  s_messages : list message;
  valid_messages_in_round : Z;
  oldest_msg_time : option Z
}.

(** One iteration of the [for] loop, with its own [try]. *)
Definition scan_msg (h : handler) (start_time end_time : Z)
    (s : scan) (msg : message) : scan :=
  match Datetime.fromtimestamp utc_offset (msg_time_field msg) with
  | None => s                                      (* except: continue *)
  | Some msg_time =>
      let s1 := mk_scan (s_messages s) (valid_messages_in_round s)
                        (Some msg_time) in
      if is_self h msg then s1
      else if (start_time <=? msg_time) && (msg_time <=? end_time)
      then mk_scan (s_messages s1 ++ [msg])
                   (valid_messages_in_round s1 + 1)
                   (oldest_msg_time s1)
      else s1
  end.

Definition scan_page (h : handler) (start_time end_time : Z)
    (msgs : list message) (round_messages : list message) : scan :=
  fold_left (scan_msg h start_time end_time) round_messages
            (mk_scan msgs 0 None).

(** Leaving one round of the [while] loop. *)
Inductive round_exit : Type :=
| Break (st : loop_state)
| Continue (st : loop_state).

(** The invalid-result branch: count the failure, [break] or [continue]. *)
Definition on_invalid (st : loop_state) : round_exit :=
  let f := consecutive_failures st + 1 in
  let st' := mk_state (messages st) (message_seq st) (query_rounds st) f
                      (requests st) in
  if max_failures <=? f then Break st' else Continue st'.

(** The [except Exception] handler of a round: same counting, then a
    sleep of one second. *)
Definition on_exception (st : loop_state) : round_exit :=
  let f := consecutive_failures st + 1 in
  let st' := mk_state (messages st) (message_seq st) (query_rounds st) f
                      (requests st) in
  if max_failures <=? f then Break st' else Continue st'.

(** [if oldest_msg_time and oldest_msg_time < start_time] *)
Definition out_of_window (start_time : Z) (oldest : option Z) : bool :=
  match oldest with
  | Some o => o <? start_time
  | None => false
  end.

(** The body of the [while] loop. *)
Definition round (h : handler) (api : source) (start_time end_time : Z)
    (st : loop_state) : round_exit :=
  let result := api (requests st) (message_seq st) in
  let st := mk_state (messages st) (message_seq st) (query_rounds st)
                     (consecutive_failures st) (S (requests st)) in
  match result with
  | CallRaises => on_exception st
  | Invalid => on_invalid st
  | Page [] => Break st
  | Page ((first :: _) as round_messages) =>
      let sc := scan_page h start_time end_time (messages st)
                          round_messages in
      (* consecutive_failures = 0; messages were appended in place *)
      let st1 := mk_state (s_messages sc) (message_seq st)
                          (query_rounds st) 0 (requests st) in
      if out_of_window start_time (oldest_msg_time sc) then Break st1
      else if valid_messages_in_round sc =? 0 then Break st1
      else
        match m_message_id first with
        | None => on_exception st1                (* KeyError *)
        | Some id =>
            Continue (mk_state (messages st1) id (query_rounds st1 + 1)
                               0 (requests st1))
        end
  end.

(** [while len(messages) < max_messages and query_rounds < max_rounds] *)
Definition guard (h : handler) (st : loop_state) : bool :=
  (Z.of_nat (length (messages st)) <? max_messages h)
  && (query_rounds st <? max_query_rounds h).

Fixpoint fetch_loop (fuel : nat) (h : handler) (api : source)
    (start_time end_time : Z) (st : loop_state) : option loop_state :=
  if guard h st then
    match fuel with
    | O => None
    | S fuel' =>
        match round h api start_time end_time st with
        | Break st' => Some st'
        | Continue st' => fetch_loop fuel' h api start_time end_time st'
        end
    end
  else Some st.

(** What the caller gets: the list, and for the properties below the
    number of requests issued and of rounds completed. *)
Record fetch_result : Type := mk_result {
  r_messages : list message;
  r_requests : nat;
  r_rounds : Z
}.

Definition empty_result : fetch_result := mk_result [] 0 0.

Definition init_state : loop_state := mk_state [] 0 0 0 0.

(** Rounds the loop can take before its guard fails. *)
Definition loop_fuel (h : handler) : nat := Z.to_nat (3 * max_messages h).

(** [bot_instance] is the source when there is one; [now] is what
    [datetime.now()] returns. *)
Definition fetch_group_messages (h : handler) (bot_instance : option source)
    (group_id : string) (days : Z) (now : Z) : option fetch_result :=
  match bot_instance with
  | None => Some empty_result
  | Some api =>
      if String.eqb group_id EmptyString then Some empty_result else
      let end_time := now in
      match Datetime.timedelta_days days with
      | None => Some empty_result                 (* outer except *)
      | Some delta =>
          match Datetime.datetime_sub end_time delta with
          | None => Some empty_result             (* outer except *)
          | Some start_time =>
              match fetch_loop (loop_fuel h) h api start_time end_time
                               init_state with
              | Some st => Some (mk_result (messages st) (requests st)
                                           (query_rounds st))
              | None => None
              end
          end
      end
  end.

End Fetch.
End Fetch.

(** ** Python strings and formatting *)

(** A byte that continues a UTF-8 code point: [10xxxxxx]. *)
Definition is_continuation (a : ascii) : bool :=
  let n := nat_of_ascii a in (128 <=? n)%nat && (n <? 192)%nat.

(** [len(s)]: the number of code points. *)
Fixpoint py_len (s : string) : Z :=
  match s with
  | EmptyString => 0
  | String a t => (if is_continuation a then 0 else 1) + py_len t
  end.

(** [needle in hay] *)
Fixpoint contains (needle hay : string) : bool :=
  match hay with
  | EmptyString => String.prefix needle hay
  | String _ t => String.prefix needle hay || contains needle t
  end.

(** [f"{n:02d}"] *)
Definition fmt_02d (n : Z) : string :=
  let s := NilZero.string_of_int (Z.to_int n) in
  if (String.length s <? 2)%nat then "0" ++ s else s.

(** The exceptions of the model carry their class name. *)
Inductive exn : Type := Exception (name : string).

(** ** src/models/data_models.py *)

Record GoldenQuote : Type := mk_GoldenQuote {
  gq_content : string;
  gq_sender : string;
  gq_reason : string
}.

Record TokenUsage : Type := mk_TokenUsage {
  prompt_tokens : Z;
  completion_tokens : Z;
  total_tokens : Z
}.

(** [TokenUsage()] *)
Definition TokenUsage0 : TokenUsage := mk_TokenUsage 0 0 0.

Record EmojiStatistics : Type := mk_EmojiStatistics {
  face_count : Z;
  mface_count : Z;
  bface_count : Z;
  sface_count : Z;
  other_emoji_count : Z;
  face_details : gmap string Z
}.

(** [EmojiStatistics()]: [default_factory=dict] builds a new dict for
  each instance. *)
Definition EmojiStatistics0 : EmojiStatistics :=
  mk_EmojiStatistics 0 0 0 0 0 ∅.

(** The [total_emoji_count] property. *)
Definition total_emoji_count (e : EmojiStatistics) : Z :=
  face_count e + mface_count e + bface_count e + sface_count e
  + other_emoji_count e.

(** [GroupStatistics] as the dataclass declares it, over the type [ES] of
  its [emoji_statistics] field: a reference into the object store in the
  running program. *)
Record GroupStatistics (ES : Type) : Type := mk_GroupStatistics {
  message_count : Z;
  total_characters : Z;
  participant_count : Z;
  most_active_period : string;
  golden_quotes : list GoldenQuote;
  emoji_count : Z;
  emoji_statistics : ES;
  token_usage : TokenUsage
}.
Arguments mk_GroupStatistics {ES}.
Arguments message_count {ES}.
Arguments total_characters {ES}.
Arguments participant_count {ES}.
Arguments most_active_period {ES}.
Arguments golden_quotes {ES}.
Arguments emoji_count {ES}.
Arguments emoji_statistics {ES}.
Arguments token_usage {ES}.

(** The parameters of the [__init__] that [@dataclass] generates for it:
  the fields, in their order. *)
Definition GroupStatistics_fields : list string :=
  ["message_count"; "total_characters"; "participant_count";
   "most_active_period"; "golden_quotes"; "emoji_count";
   "emoji_statistics"; "token_usage"].

(** ** MessageHandler.calculate_statistics *)

Module Stats.

(** The store of [EmojiStatistics] objects: a reference is an index. *)
Abbreviation loc := nat.
Abbreviation heap := (list EmojiStatistics).

(** Constructing an object allocates it. *)
Definition new_EmojiStatistics (hp : heap) : loc * heap :=
  (length hp, hp ++ [EmojiStatistics0]).

(** [hour_counts[h] += 1] on a [defaultdict(int)]: a dict keeps its keys
    in insertion order. *)
Fixpoint bump (h : Z) (hour_counts : list (Z * Z)) : list (Z * Z) :=
  match hour_counts with
  | [] => [(h, 1)]
  | (k, v) :: rest =>
      if k =? h then (k, v + 1) :: rest else (k, v) :: bump h rest
  end.

(** [max(items, key=lambda x: x[1])] keeps the first of the largest. *)
Fixpoint max_from (best : Z * Z) (items : list (Z * Z)) : Z * Z :=
  match items with
  | [] => best
  | x :: rest =>
      if snd best <? snd x then max_from x rest else max_from best rest
  end.

(** [max(hour_counts.items(), key=...)[0] if hour_counts else 0] *)
Definition most_active_hour_of (hour_counts : list (Z * Z)) : Z :=
  match hour_counts with
  | [] => 0
  | x :: rest => fst (max_from x rest)
  end.

(** [f"{h:02d}:00-{(h+1)%24:02d}:00"] *)
Definition period_of (most_active_hour : Z) : string :=
  fmt_02d most_active_hour ++ ":00-"
  ++ fmt_02d ((most_active_hour + 1) mod 24) ++ ":00".

(** [d[key] = d.get(key, 0) + 1] *)
Definition incr (key : string) (d : gmap string Z) : gmap string Z :=
  <[key := default 0 (d !! key) + 1]> d.

Definition data_of (c : content) : dict :=
  match c_data c with Some d => d | None => [] end.

Definition type_is (c : content) (t : string) : bool :=
  match c_type c with Some t' => String.eqb t' t | None => false end.

(** The keyword arguments of the call [GroupStatistics(...)] that ends
    the method, once evaluated.  [activity_visualization] holds what the
    visualizer returned, of a type [AV] declared outside the files at
    hand. *)
Record keywords (ES AV : Type) : Type := mk_keywords {
  kw_message_count : Z;
  kw_total_characters : Z;
  kw_participant_count : Z;
  kw_most_active_period : string;
  kw_golden_quotes : list GoldenQuote;
  kw_emoji_count : Z;
  kw_emoji_statistics : ES;
  kw_activity_visualization : AV;
  kw_token_usage : TokenUsage
}.
Arguments mk_keywords {ES AV}.
Arguments kw_message_count {ES AV}.
Arguments kw_total_characters {ES AV}.
Arguments kw_participant_count {ES AV}.
Arguments kw_most_active_period {ES AV}.
Arguments kw_golden_quotes {ES AV}.
Arguments kw_emoji_count {ES AV}.
Arguments kw_emoji_statistics {ES AV}.
Arguments kw_activity_visualization {ES AV}.
Arguments kw_token_usage {ES AV}.

(** Their names, as the call writes them. *)
Definition keyword_names : list string :=
  ["message_count"; "total_characters"; "participant_count";
   "most_active_period"; "golden_quotes"; "emoji_count";
   "emoji_statistics"; "activity_visualization"; "token_usage"].

(** The keywords of a call that name no parameter. *)
Definition unexpected (parameters names : list string) : list string :=
  List.filter (fun k => negb (existsb (String.eqb k) parameters)) names.

(** The call itself: each keyword is bound to the parameter of its name,
    and [TypeError] is raised for one that names none.  (Every parameter
    without a default is among the keywords.) *)
Definition new_GroupStatistics {ES AV} (kw : keywords ES AV)
    : res exn (GroupStatistics ES) :=
  match unexpected GroupStatistics_fields keyword_names with
  | [] =>
      Ok (mk_GroupStatistics (kw_message_count kw) (kw_total_characters kw)
            (kw_participant_count kw) (kw_most_active_period kw)
            (kw_golden_quotes kw) (kw_emoji_count kw)
            (kw_emoji_statistics kw) (kw_token_usage kw))
  | _ :: _ => Raise (Exception "TypeError")
  end.

Section Stats.

Variable utc_offset : Z.

(** What [datetime.fromtimestamp] raises for a timestamp it does not
    take: [ValueError] for a year outside 1..9999, [OSError] or
    [OverflowError] past what the platform's [localtime] and [time_t]
    hold. *)
Variable range_error : Z -> exn.

(** [str(data).lower()] of a content's data dict. *)
Variable data_str_lower : dict -> string.

(** [ActivityVisualizer.generate_activity_visualization], kept by the
    handler across calls, with whatever state it has. *)
Variables (VisState AV : Type).
Variable generate_activity_visualization :
  VisState -> list message -> res exn AV * VisState.

(** The [if]/[elif] chain over one content segment: the new
    [total_chars] and the new contents of the [emoji_statistics] object. *)
Definition count_content (c : content) (total_chars : Z)
    (es : EmojiStatistics) : Z * EmojiStatistics :=
  let data := data_of c in
  if type_is c "text" then
    (total_chars + py_len (get_default data "text" EmptyString), es)
  else if type_is c "face" then
    let face_id := get_default data "id" "unknown" in
    (total_chars,
     mk_EmojiStatistics (face_count es + 1) (mface_count es)
       (bface_count es) (sface_count es) (other_emoji_count es)
       (incr ("face_" ++ face_id) (face_details es)))
  else if type_is c "mface" then
    let emoji_id := get_default data "emoji_id" "unknown" in
    (total_chars,
     mk_EmojiStatistics (face_count es) (mface_count es + 1)
       (bface_count es) (sface_count es) (other_emoji_count es)
       (incr ("mface_" ++ emoji_id) (face_details es)))
  else if type_is c "bface" then
    let emoji_id := get_default data "p" "unknown" in
    (total_chars,
     mk_EmojiStatistics (face_count es) (mface_count es)
       (bface_count es + 1) (sface_count es) (other_emoji_count es)
       (incr ("bface_" ++ emoji_id) (face_details es)))
  else if type_is c "sface" then
    let emoji_id := get_default data "id" "unknown" in
    (total_chars,
     mk_EmojiStatistics (face_count es) (mface_count es)
       (bface_count es) (sface_count es + 1) (other_emoji_count es)
       (incr ("sface_" ++ emoji_id) (face_details es)))
  else if type_is c "image" then
    let summary := get_default data "summary" EmptyString in
    if contains "动画表情" summary || contains "表情" summary then
      let file_name := get_default data "file" "unknown" in
      (total_chars,
       mk_EmojiStatistics (face_count es) (mface_count es + 1)
         (bface_count es) (sface_count es) (other_emoji_count es)
         (incr ("animated_" ++ file_name) (face_details es)))
    else (total_chars, es)
  else if (type_is c "record" || type_is c "video")
          && contains "emoji" (data_str_lower data) then
    (total_chars,
     mk_EmojiStatistics (face_count es) (mface_count es)
       (bface_count es) (sface_count es) (other_emoji_count es + 1)
       (face_details es))
  else (total_chars, es).

(** The local variables of the loop; [emoji_statistics] is a reference. *)
Record locals : Type := mk_locals {
  total_chars : Z;
  participants : gset string;
  hour_counts : list (Z * Z)
}.

(** One content segment against the store: the object at
    [emoji_statistics] is updated in place. *)
Definition content_step (emoji_statistics : loc)
    (st : Z * heap) (c : content) : Z * heap :=
  let '(total_chars, hp) := st in
  match hp !! emoji_statistics with
  | Some es =>
      let '(total_chars', es') := count_content c total_chars es in
      (total_chars', <[emoji_statistics := es']> hp)
  | None => (total_chars, hp)
  end.

(** The body of [for msg in messages]. *)
Definition message_step (emoji_statistics : loc) (lv : locals)
    (hp : heap) (msg : message) : res exn (locals * heap) :=
  let sender_id := msg_sender_id msg in
  let participants' := participants lv ∪ {[sender_id]} in
  match Datetime.fromtimestamp utc_offset (msg_time_field msg) with
  | None => Raise (range_error (msg_time_field msg))
  | Some msg_time =>
      let hour_counts' := bump (Datetime.hour msg_time) (hour_counts lv) in
      let '(total_chars', hp') :=
        fold_left (content_step emoji_statistics)
                  (match m_message msg with Some l => l | None => [] end)
                  (total_chars lv, hp) in
      Ok (mk_locals total_chars' participants' hour_counts', hp')
  end.

Fixpoint message_loop (emoji_statistics : loc) (lv : locals) (hp : heap)
    (msgs : list message) : res exn locals * heap :=
  match msgs with
  | [] => (Ok lv, hp)
  | msg :: rest =>
      match message_step emoji_statistics lv hp msg with
      | Raise e => (Raise e, hp)
      | Ok (lv', hp') => message_loop emoji_statistics lv' hp' rest
      end
  end.

(** The method up to its last call: the loop, the most active period,
    the visualizer, and the keyword arguments evaluated from left to
    right; with the new store and the new state of the visualizer.  The
    object allocated at the start is in the store when it is read at the
    end, so the [ReferenceError] branch is never taken. *)
Definition statistics_arguments (vis : VisState) (hp : heap)
    (msgs : list message)
    : res exn (keywords loc AV) * heap * VisState :=
  let '(emoji_statistics, hp0) := new_EmojiStatistics hp in
  match message_loop emoji_statistics (mk_locals 0 ∅ []) hp0 msgs with
  | (Raise e, hp1) => (Raise e, hp1, vis)
  | (Ok lv, hp1) =>
      let most_active_hour := most_active_hour_of (hour_counts lv) in
      let most_active_period := period_of most_active_hour in
      match generate_activity_visualization vis msgs with
      | (Raise e, vis') => (Raise e, hp1, vis')
      | (Ok activity_visualization, vis') =>
          match hp1 !! emoji_statistics with
          | None => (Raise (Exception "ReferenceError"), hp1, vis')
          | Some es =>
              (Ok (mk_keywords
                     (Z.of_nat (length msgs))
                     (total_chars lv)
                     (Z.of_nat (size (participants lv)))
                     most_active_period
                     []
                     (total_emoji_count es)
                     emoji_statistics
                     activity_visualization
                     TokenUsage0),
               hp1, vis')
          end
      end
  end.

(** The method: the value returned, or the exception that escapes. *)
Definition calculate_statistics (vis : VisState) (hp : heap)
    (msgs : list message)
    : res exn (GroupStatistics loc) * heap * VisState :=
  match statistics_arguments vis hp msgs with
  | (Raise e, hp', vis') => (Raise e, hp', vis')
  | (Ok kw, hp', vis') => (new_GroupStatistics kw, hp', vis')
  end.

End Stats.

End Stats.

(** ** BaseAnalyzer.analyze *)

Module Analyzer.

(** [d[key]] on the dict [extract_token_usage] returns. *)
Fixpoint subscript (d : list (string * Z)) (key : string) : res exn Z :=
  match d with
  | [] => Raise (Exception "KeyError")
  | (k, v) :: rest => if String.eqb k key then Ok v else subscript rest key
  end.

(** Truth value of a list that may be [None]. *)
Definition truthy {A} (l : option (list A)) : bool :=
  match l with
  | Some (_ :: _) => true
  | _ => false
  end.

Definition default_max_tokens : Z := 10000.
Definition default_temperature : Q := 0.6.

Section Analyzer.

(** The objects the analyzer passes around without looking inside. *)
Variables (Context ConfigManager Data Response RawRecord DataObject : Type).

(** An analyzer: the fields of [__init__], the abstract methods a
    subclass supplies and the two methods it may override.  Each of them
    may raise; [get_data_type] takes no argument and gives the same
    outcome each time it is called. *)
Record BaseAnalyzer : Type := mk_BaseAnalyzer {
  context : Context;
  config_manager : ConfigManager;
  get_data_type : res exn string;
  get_max_count : res exn Z;
  build_prompt : Data -> res exn string;
  extract_with_regex : string -> Z -> res exn (list RawRecord);
  create_data_objects : list RawRecord -> res exn (list DataObject);
  get_max_tokens : res exn Z;
  get_temperature : res exn Q
}.

(** The helpers of [analysis/utils], which the analyzer imports. *)
Variable call_provider_with_retry :
  Context -> ConfigManager -> string -> Z -> Q -> option string ->
  res exn (option Response).
Variable extract_token_usage : Response -> res exn (list (string * Z)).
Variable extract_response_text : Response -> res exn string.
Variable parse_json_response :
  string -> string -> res exn (bool * option (list RawRecord) * string).

Definition result : Type := (list DataObject * TokenUsage)%type.

(** A log line whose text is built with [self.get_data_type()]: the
    call is made, and what it raises is raised here. *)
Definition log (self : BaseAnalyzer) : res exn unit :=
  _ ← get_data_type self; Ok tt.

(** Steps 3 to 6, once the provider has answered. *)
Definition analyze_response (self : BaseAnalyzer) (response : Response)
    : res exn result :=
  token_usage_dict ← extract_token_usage response;
  p ← subscript token_usage_dict "prompt_tokens";
  c ← subscript token_usage_dict "completion_tokens";
  t ← subscript token_usage_dict "total_tokens";
  let token_usage := mk_TokenUsage p c t in
  result_text ← extract_response_text response;
  _ ← log self;                                            (* debug *)
  data_type ← get_data_type self;
  '(success, parsed_data, error_msg) ←
    parse_json_response result_text data_type;
  if success && truthy parsed_data then
    data_objects ← create_data_objects self (default [] parsed_data);
    _ ← log self;                                          (* info *)
    Ok (data_objects, token_usage)
  else
    _ ← log self;                                          (* warning *)
    max_count ← get_max_count self;
    regex_data ← extract_with_regex self result_text max_count;
    match regex_data with
    | _ :: _ =>
        _ ← log self;                                      (* info *)
        data_objects ← create_data_objects self regex_data;
        Ok (data_objects, token_usage)
    | [] =>
        _ ← log self;                                      (* warning *)
        Ok ([], token_usage)
    end.

(** The [try] block. *)
Definition analyze_body (self : BaseAnalyzer) (data : Data)
    (umo : option string) : res exn result :=
  prompt ← build_prompt self data;
  _ ← log self;                                            (* info *)
  max_tokens ← get_max_tokens self;
  temperature ← get_temperature self;
  response ← call_provider_with_retry (context self) (config_manager self)
               prompt max_tokens temperature umo;
  match response with
  | None =>
      _ ← log self;                                        (* error *)
      Ok ([], TokenUsage0)
  | Some response => analyze_response self response
  end.

(** The method: the [except Exception] handler writes its own log line
    before it returns the empty result. *)
Definition analyze (self : BaseAnalyzer) (data : Data)
    (umo : option string) : res exn result :=
  try_except (analyze_body self data umo)
             (fun _ => _ ← log self; Ok ([], TokenUsage0)).

End Analyzer.

Arguments mk_BaseAnalyzer {Context ConfigManager Data RawRecord DataObject}.
Arguments context {Context ConfigManager Data RawRecord DataObject} self : rename.
Arguments config_manager {Context ConfigManager Data RawRecord DataObject} self : rename.
Arguments get_data_type {Context ConfigManager Data RawRecord DataObject} self : rename.
Arguments get_max_count {Context ConfigManager Data RawRecord DataObject} self : rename.
Arguments build_prompt {Context ConfigManager Data RawRecord DataObject} self data : rename.
Arguments extract_with_regex {Context ConfigManager Data RawRecord DataObject} self result_text max_count : rename.
Arguments create_data_objects {Context ConfigManager Data RawRecord DataObject} self data_list : rename.
Arguments get_max_tokens {Context ConfigManager Data RawRecord DataObject} self : rename.
Arguments get_temperature {Context ConfigManager Data RawRecord DataObject} self : rename.
Arguments log {Context ConfigManager Data RawRecord DataObject} self.
Arguments analyze_response {Context ConfigManager Data Response RawRecord DataObject}.
Arguments analyze_body {Context ConfigManager Data Response RawRecord DataObject}.
Arguments analyze {Context ConfigManager Data Response RawRecord DataObject}.

End Analyzer.

(** * Vocabulary of the properties *)

Module FetchSpec.
Section FetchSpec.
Import Fetch.
Variable utc_offset : Z.

(** The datetime of a message, when [fromtimestamp] accepts it. *)
Definition parsed_time (m : message) : option Z :=
  Datetime.fromtimestamp utc_offset (msg_time_field m).

Definition in_window (start_time end_time : Z) (m : message) : bool :=
  match parsed_time m with
  | Some t => (start_time <=? t) && (t <=? end_time)
  | None => false
  end.

(** The messages of a page that reach the result. *)
Definition kept (h : handler) (start_time end_time : Z) (m : message)
    : bool :=
  in_window start_time end_time m && negb (is_self h m).

(** The datetime of the last message of a page that has one. *)
Definition last_parsed (round_messages : list message) (o : option Z)
    : option Z :=
  fold_left (fun o m => match parsed_time m with
                        | Some t => Some t
                        | None => o
                        end) round_messages o.

(** The smallest datetime of a page. *)
Definition min_parsed (round_messages : list message) : option Z :=
  fold_left (fun o m => match parsed_time m, o with
                        | Some t, Some t' => Some (Z.min t t')
                        | Some t, None => Some t
                        | None, _ => o
                        end) round_messages None.

Definition is_failure (r : response) : bool :=
  match r with
  | CallRaises | Invalid => true
  | Page _ => false
  end.

(** What the guard leaves to run: each round that goes on either adds a
    message or counts a failure. *)
Definition variant (h : handler) (st : loop_state) : Z :=
  3 * (max_messages h - Z.of_nat (length (messages st)))
  - consecutive_failures st.

(** The first message of every page carries a [message_id]. *)
Definition pages_have_ids (api : source) : Prop :=
  forall n seq first rest,
    api n seq = Page (first :: rest) -> m_message_id first <> None.

(** No page is longer than [p]. *)
Definition pages_at_most (p : Z) (api : source) : Prop :=
  forall n seq l, api n seq = Page l -> Z.of_nat (length l) <= p.

(** The state a round ends in, whichever way it leaves. *)
Definition exit_state (x : round_exit) : loop_state :=
  match x with
  | Break st | Continue st => st
  end.

(** *** The cases of one round *)

Section Round.
Variable h : handler.
Variable api : source.
Variables start_time end_time : Z.

(** The state a failed request leaves. *)
Definition failed (st : loop_state) : loop_state :=
  mk_state (messages st) (message_seq st) (query_rounds st)
           (consecutive_failures st + 1) (S (requests st)).

(** The state a page leaves, with the cursor, the round count and the
    failure count the round ends on. *)
Definition paged (st : loop_state) (l : list message) (seq rounds f : Z)
    : loop_state :=
  mk_state (messages st ++ List.filter (kept h start_time end_time) l)
           seq rounds f (S (requests st)).

Inductive round_case (st : loop_state) : round_exit -> Prop :=
| RFailBreak :
    is_failure (api (requests st) (message_seq st)) = true ->
    3 <= consecutive_failures st + 1 ->
    round_case st (Break (failed st))
| RFailContinue :
    is_failure (api (requests st) (message_seq st)) = true ->
    consecutive_failures st + 1 < 3 ->
    round_case st (Continue (failed st))
| REmpty :
    api (requests st) (message_seq st) = Page [] ->
    round_case st (Break (mk_state (messages st) (message_seq st)
                            (query_rounds st) (consecutive_failures st)
                            (S (requests st))))
| RPageBreak first rest :
    api (requests st) (message_seq st) = Page (first :: rest) ->
    out_of_window start_time (last_parsed (first :: rest) None) = true
    \/ List.filter (kept h start_time end_time) (first :: rest) = [] ->
    round_case st (Break (paged st (first :: rest) (message_seq st)
                                (query_rounds st) 0))
| RKeyError first rest :
    api (requests st) (message_seq st) = Page (first :: rest) ->
    out_of_window start_time (last_parsed (first :: rest) None) = false ->
    List.filter (kept h start_time end_time) (first :: rest) <> [] ->
    m_message_id first = None ->
    round_case st (Continue (paged st (first :: rest) (message_seq st)
                                   (query_rounds st) 1))
| RAdvance first rest id :
    api (requests st) (message_seq st) = Page (first :: rest) ->
    out_of_window start_time (last_parsed (first :: rest) None) = false ->
    List.filter (kept h start_time end_time) (first :: rest) <> [] ->
    m_message_id first = Some id ->
    round_case st (Continue (paged st (first :: rest) id
                                   (query_rounds st + 1) 0)).

(** Every collected message lies in the window. *)
Definition windowed (st : loop_state) : Prop :=
  forall m, In m (messages st) ->
    exists t, parsed_time m = Some t /\ start_time <= t <= end_time.

(** The loop states a call passes through: the state each time the
    guard of the [while] is evaluated. *)
Inductive reaches : loop_state -> Prop :=
| reaches_init : reaches init_state
| reaches_next st st' :
    reaches st ->
    guard h st = true ->
    round utc_offset h api start_time end_time st = Continue st' ->
    reaches st'.

(** The requests of a call: from a state that passes the guard, request
    number [requests st] is sent with the cursor [message_seq st]. *)
Definition issued (n : nat) (seq : Z) : Prop :=
  exists st, reaches st /\ guard h st = true
             /\ requests st = n /\ message_seq st = seq.

(** Every collected message stands in a page that answered a request
    sent earlier in the call. *)
Definition served (st : loop_state) : Prop :=
  forall m, In m (messages st) ->
    exists st0 l,
      reaches st0 /\ guard h st0 = true
      /\ api (requests st0) (message_seq st0) = Page l /\ In m l
      /\ (requests st0 < requests st)%nat.

End Round.

End FetchSpec.
End FetchSpec.

(** Concrete handlers and sources. *)
Module FetchExamples.
Import Fetch.

(** 2023-11-14 22:13:20 UTC, on the second. *)
Definition now : Z := 1700000000 * Datetime.usec_per_sec.
Definition yesterday : Z := now - Datetime.usec_per_day.

Definition msg (t : Z) (uid : string) (id : Z) : message :=
  mk_message (Some t) (Some (mk_sender (Some uid))) (Some id) None.

(** One round, one message. *)
Definition small : handler := mk_handler 1 1 None.
Definition roomy : handler := mk_handler 5 100 None.

Definition recent_pair : list message :=
  [msg 1699999990 "a" 1; msg 1699999991 "b" 2].

Definition two_failures_then_page : source :=
  fun n _ =>
    match n with
    | O | S O => Invalid
    | _ => Page recent_pair
    end.

(** A page of two recent messages, then nothing but failures. *)
Definition page_then_failures : source :=
  fun n _ =>
    match n with
    | O => Page recent_pair
    | S (S O) => CallRaises
    | _ => Invalid
    end.

Definition always_invalid : source := fun _ _ => Invalid.
Definition always_recent : source := fun _ _ => Page recent_pair.

(** A message stamped with the very second of [now]. *)
Definition at_now : source := fun _ _ => Page [msg 1700000000 "a" 1].

(** A page in ascending order that starts before the window, then the
    end of the history. *)
Definition old_then_new_page : list message :=
  [msg (1700000000 - 86400 - 10) "a" 1; msg 1699999991 "b" 2].

Definition old_then_new : source :=
  fun n _ =>
    match n with
    | O => Page old_then_new_page
    | _ => Page []
    end.

End FetchExamples.

Module StatsSpec.
Import Stats.

(** How many of the hours [hs] are [h]. *)
Fixpoint count (h : Z) (hs : list Z) : Z :=
  match hs with
  | [] => 0
  | x :: rest => (if x =? h then 1 else 0) + count h rest
  end.

(** Where [h] first occurs in [hs] (the length of [hs] when it does not). *)
Fixpoint first_index (h : Z) (hs : list Z) : nat :=
  match hs with
  | [] => O
  | x :: rest => if x =? h then O else S (first_index h rest)
  end.

(** [hour_counts] after the hours [hs] have been counted one by one. *)
Definition tally (hs : list Z) (hour_counts : list (Z * Z)) : list (Z * Z) :=
  fold_left (fun hc h => bump h hc) hs hour_counts.

(** [hour_counts[k]], 0 for a key that is not there. *)
Fixpoint get (k : Z) (hour_counts : list (Z * Z)) : Z :=
  match hour_counts with
  | [] => 0
  | (k', v) :: rest => if k' =? k then v else get k rest
  end.

(** The keys come in the order of their first occurrence in [hs]. *)
Definition earlier (hs : list Z) (k1 k2 : Z) : Prop :=
  (first_index k1 hs < first_index k2 hs)%nat.

Section StatsSpec.
Variable utc_offset : Z.
Variable range_error : Z -> exn.
Variable data_str_lower : dict -> string.

Definition hour_of (m : message) : option Z :=
  Datetime.hour <$> Datetime.fromtimestamp utc_offset (msg_time_field m).

(** The local hour of each message, when every timestamp converts. *)
Fixpoint hours_of (msgs : list message) : option (list Z) :=
  match msgs with
  | [] => Some []
  | m :: rest =>
      match hour_of m, hours_of rest with
      | Some hr, Some hs => Some (hr :: hs)
      | _, _ => None
      end
  end.

Definition contents_of (msg : message) : list content :=
  match m_message msg with Some l => l | None => [] end.

(** The loop seen on the object itself rather than through the store. *)
Definition count_contents (cs : list content) (st : Z * EmojiStatistics)
    : Z * EmojiStatistics :=
  fold_left (fun st c => count_content data_str_lower c (fst st) (snd st))
            cs st.

Definition object_step (lv : locals) (es : EmojiStatistics) (msg : message)
    : res exn (locals * EmojiStatistics) :=
  match Datetime.fromtimestamp utc_offset (msg_time_field msg) with
  | None => Raise (range_error (msg_time_field msg))
  | Some msg_time =>
      let st := count_contents (contents_of msg) (total_chars lv, es) in
      Ok (mk_locals (fst st) (participants lv ∪ {[msg_sender_id msg]})
                    (bump (Datetime.hour msg_time) (hour_counts lv)),
          snd st)
  end.

Fixpoint object_loop (lv : locals) (es : EmojiStatistics)
    (msgs : list message) : res exn locals * EmojiStatistics :=
  match msgs with
  | [] => (Ok lv, es)
  | msg :: rest =>
      match object_step lv es msg with
      | Raise e => (Raise e, es)
      | Ok (lv', es') => object_loop lv' es' rest
      end
  end.

(** The locals and the object when the loop is over. *)
Definition outcome (msgs : list message) : res exn locals * EmojiStatistics :=
  object_loop (mk_locals 0 ∅ []) EmojiStatistics0 msgs.

(** The keyword arguments of the constructor call. *)
Definition build {AV} (lv : locals) (es : EmojiStatistics) (l : loc) (av : AV)
    (msgs : list message) : keywords loc AV :=
  mk_keywords (Z.of_nat (length msgs)) (total_chars lv)
    (Z.of_nat (size (participants lv)))
    (period_of (most_active_hour_of (hour_counts lv))) []
    (total_emoji_count es) l av TokenUsage0.

End StatsSpec.
End StatsSpec.

Module StatsExamples.
Import Stats.

(** A message sent [k] seconds into hour [hh] of 1970-01-01. *)
Definition at_hour (hh k : Z) (cs : list content) : message :=
  mk_message (Some (hh * 3600 + k)) (Some (mk_sender (Some "u")))
             (Some k) (Some cs).

Definition text (s : string) : content :=
  mk_content (Some "text") (Some [("text", s)]).
Definition face (i : string) : content :=
  mk_content (Some "face") (Some [("id", i)]).
Definition image (summary : string) : content :=
  mk_content (Some "image") (Some [("summary", summary); ("file", "f.gif")]).

(** Hour counts 14:5, 9:5, 3:1, an hour 14 message first. *)
Definition fourteen_first : list message :=
  map (fun k => at_hour 14 k []) [0; 1; 2; 3; 4]
  ++ map (fun k => at_hour 9 k []) [0; 1; 2; 3; 4]
  ++ [at_hour 3 0 []].

(** The same counts, an hour 9 message first. *)
Definition nine_first : list message :=
  map (fun k => at_hour 9 k []) [0; 1; 2; 3; 4]
  ++ map (fun k => at_hour 14 k []) [0; 1; 2; 3; 4]
  ++ [at_hour 3 0 []].

Definition mixed : list message :=
  [at_hour 14 0 [text "hello"; face "1"];
   at_hour 9 1 [image "[动画表情]"; face "1"];
   at_hour 14 2 [];
   at_hour 9 3 [image "photo"]].

(** A visualizer that counts its calls and reports the number of
    messages. *)
Definition counting_visualizer (calls : nat) (msgs : list message)
    : res exn nat * nat :=
  (Ok (length msgs), S calls).

Definition no_repr (d : dict) : string := EmptyString.

(** One message with one basic emoji. *)
Definition one_face : list message := [at_hour 14 0 [face "1"]].

(** A platform on which every timestamp out of range is a [ValueError]. *)
Definition year_error (t : Z) : exn := Exception "ValueError".

End StatsExamples.

Module AnalyzerSpec.
Import Analyzer.

Section AnalyzerSpec.
Variables (Context ConfigManager Data Response RawRecord DataObject : Type).

#[local] Abbreviation BaseAnalyzer :=
  (Analyzer.BaseAnalyzer Context ConfigManager Data RawRecord DataObject).

Variable call_provider_with_retry :
  Context -> ConfigManager -> string -> Z -> Q -> option string ->
  res exn (option Response).
Variable extract_token_usage : Response -> res exn (list (string * Z)).
Variable extract_response_text : Response -> res exn string.
Variable parse_json_response :
  string -> string -> res exn (bool * option (list RawRecord) * string).

(** Steps 1 and 2: what the provider answers. *)
Definition provider_answer (self : BaseAnalyzer) (data : Data)
    (umo : option string) : res exn (option Response) :=
  prompt ← build_prompt self data;
  max_tokens ← get_max_tokens self;
  temperature ← get_temperature self;
  call_provider_with_retry (context self) (config_manager self)
    prompt max_tokens temperature umo.

(** Step 3: the usage read from a response. *)
Definition token_usage_of (response : Response) : res exn TokenUsage :=
  token_usage_dict ← extract_token_usage response;
  p ← subscript token_usage_dict "prompt_tokens";
  c ← subscript token_usage_dict "completion_tokens";
  t ← subscript token_usage_dict "total_tokens";
  Ok (mk_TokenUsage p c t).

(** An exception at one of the steps 3 to 6, [get_data_type] apart. *)
Inductive response_raises (self : BaseAnalyzer) (response : Response)
    : exn -> Prop :=
| RaisesUsage e :
    token_usage_of response = Raise e ->
    response_raises self response e
| RaisesText usage e :
    token_usage_of response = Ok usage ->
    extract_response_text response = Raise e ->
    response_raises self response e
| RaisesParse usage text data_type e :
    token_usage_of response = Ok usage ->
    extract_response_text response = Ok text ->
    get_data_type self = Ok data_type ->
    parse_json_response text data_type = Raise e ->
    response_raises self response e
| RaisesCreate usage text data_type parsed error_msg e :
    token_usage_of response = Ok usage ->
    extract_response_text response = Ok text ->
    get_data_type self = Ok data_type ->
    parse_json_response text data_type = Ok (true, parsed, error_msg) ->
    truthy parsed = true ->
    create_data_objects self (default [] parsed) = Raise e ->
    response_raises self response e
| RaisesMaxCount usage text data_type success parsed error_msg e :
    token_usage_of response = Ok usage ->
    extract_response_text response = Ok text ->
    get_data_type self = Ok data_type ->
    parse_json_response text data_type = Ok (success, parsed, error_msg) ->
    success && truthy parsed = false ->
    get_max_count self = Raise e ->
    response_raises self response e
| RaisesRegex usage text data_type success parsed error_msg max_count e :
    token_usage_of response = Ok usage ->
    extract_response_text response = Ok text ->
    get_data_type self = Ok data_type ->
    parse_json_response text data_type = Ok (success, parsed, error_msg) ->
    success && truthy parsed = false ->
    get_max_count self = Ok max_count ->
    extract_with_regex self text max_count = Raise e ->
    response_raises self response e
| RaisesCreateRegex usage text data_type success parsed error_msg max_count
    first rest e :
    token_usage_of response = Ok usage ->
    extract_response_text response = Ok text ->
    get_data_type self = Ok data_type ->
    parse_json_response text data_type = Ok (success, parsed, error_msg) ->
    success && truthy parsed = false ->
    get_max_count self = Ok max_count ->
    extract_with_regex self text max_count = Ok (first :: rest) ->
    create_data_objects self (first :: rest) = Raise e ->
    response_raises self response e.

(** An exception at any step of [analyze], [get_data_type] apart. *)
Inductive step_raises (self : BaseAnalyzer) (data : Data)
    (umo : option string) : exn -> Prop :=
| RaisesPrompt e :
    build_prompt self data = Raise e -> step_raises self data umo e
| RaisesMaxTokens prompt e :
    build_prompt self data = Ok prompt ->
    get_max_tokens self = Raise e -> step_raises self data umo e
| RaisesTemperature prompt max_tokens e :
    build_prompt self data = Ok prompt ->
    get_max_tokens self = Ok max_tokens ->
    get_temperature self = Raise e -> step_raises self data umo e
| RaisesProvider prompt max_tokens temperature e :
    build_prompt self data = Ok prompt ->
    get_max_tokens self = Ok max_tokens ->
    get_temperature self = Ok temperature ->
    call_provider_with_retry (context self) (config_manager self)
      prompt max_tokens temperature umo = Raise e ->
    step_raises self data umo e
| RaisesLater response e :
    provider_answer self data umo = Ok (Some response) ->
    response_raises self response e ->
    step_raises self data umo e.

End AnalyzerSpec.
End AnalyzerSpec.

Module AnalyzerExamples.
Import Analyzer.

(** A toy instantiation: the data is the reply the provider will give
    ([None] when every retry fails), a record is a line of text. *)
Definition echo_provider (_ _ : unit) (prompt : string) (max_tokens : Z)
    (temperature : Q) (umo : option string) : res exn (option string) :=
  if String.eqb prompt EmptyString then Ok None else Ok (Some prompt).

Definition usage_10_5_15 (_ : string) : res exn (list (string * Z)) :=
  Ok [("prompt_tokens", 10); ("completion_tokens", 5); ("total_tokens", 15)].

Definition text_of (response : string) : res exn string := Ok response.

(** A parser that never finds JSON. *)
Definition no_json (text data_type : string)
    : res exn (bool * option (list string) * string) :=
  Ok (false, None, "no JSON found").

(** The text itself is the one record, when one is allowed. *)
Definition whole_text (text : string) (max_count : Z)
    : res exn (list string) :=
  Ok (if 0 <? max_count then [text] else []).

Definition lines : BaseAnalyzer unit unit (option string) string string :=
  mk_BaseAnalyzer tt tt (Ok "lines") (Ok 5)
    (fun data => match data with
                 | Some reply => Ok reply
                 | None => Raise (Exception "ValueError")
                 end)
    whole_text
    (fun l => Ok l)
    (Ok default_max_tokens) (Ok default_temperature).

(** The same with no record allowed. *)
Definition no_lines : BaseAnalyzer unit unit (option string) string string :=
  mk_BaseAnalyzer tt tt (Ok "lines") (Ok 0)
    (build_prompt lines) whole_text (fun l => Ok l)
    (Ok default_max_tokens) (Ok default_temperature).

(** The same with a [get_data_type] that was never written. *)
Definition untagged : BaseAnalyzer unit unit (option string) string string :=
  mk_BaseAnalyzer tt tt (Raise (Exception "NotImplementedError")) (Ok 5)
    (build_prompt lines) whole_text (fun l => Ok l)
    (Ok default_max_tokens) (Ok default_temperature).

End AnalyzerExamples.

(** * More of the code *)

(** ** MessageHandler.set_bot_qq_id *)

Module BotId.
Import Fetch.

(** What [call_action("get_login_info")] does. *)
Inductive login_reply : Type :=
| LoginRaises                            (* the call raises *)
| LoginNotDict                           (* a reply without [get] *)
| LoginInfo (user_id : option string).   (* str() of the "user_id" entry *)

(** [not self.bot_qq_id] *)
Definition id_unset (h : handler) : bool :=
  match bot_qq_id h with
  | Some b => String.eqb b EmptyString
  | None => true
  end.

(** [self.bot_qq_id = ...] *)
Definition with_bot_qq_id (h : handler) (b : option string) : handler :=
  mk_handler (max_query_rounds h) (max_messages h) b.

(** The method: the handler afterwards and the number of
    [get_login_info] calls made.  [bot_instance] holds the reply the
    client would give. *)
Definition set_bot_qq_id (h : handler) (bot_instance : option login_reply)
    : handler * nat :=
  match bot_instance with
  | Some reply =>
      if id_unset h then
        match reply with
        | LoginInfo user_id =>
            (with_bot_qq_id h (Some (default EmptyString user_id)), 1%nat)
        | LoginRaises | LoginNotDict => (h, 1%nat)   (* except: logged *)
        end
      else (h, O)
  | None => (h, O)
  end.

(** Calls one after the other, their requests added up. *)
Fixpoint set_bot_qq_id_each (h : handler) (bots : list (option login_reply))
    : handler * nat :=
  match bots with
  | [] => (h, O)
  | bot :: rest =>
      let '(h1, n1) := set_bot_qq_id h bot in
      let '(h2, n2) := set_bot_qq_id_each h1 rest in
      (h2, (n1 + n2)%nat)
  end.

End BotId.

(** ** ReportGenerator.generate_image_report *)

Module ImageReport.

Record image_options : Type := mk_image_options {
  full_page : bool;
  image_type : string;
  quality : Z
}.

Definition image_options_default : image_options :=
  mk_image_options true "jpeg" 95.
Definition simple_options : image_options :=
  mk_image_options true "jpeg" 70.

Section ImageReport.

(** The render payload, and the text of [HTMLTemplates.get_image_template()]. *)
Variable Payload : Type.
Variable image_template : string.

(** [html_render_func(template, payload, return_url, options)], the
    [n]-th time it is called. *)
Definition renderer : Type :=
  nat -> string -> Payload -> bool -> image_options -> res exn string.

Record render_call : Type := mk_render_call {
  rc_template : string;
  rc_payload : Payload;
  rc_return_url : bool;
  rc_options : image_options
}.

(** The method, given what [_prepare_render_data] does: the value it
    returns and the calls of the renderer it made.  When the data could
    not be prepared, [render_payload] is unbound in the handler and the
    second attempt raises before it calls the renderer. *)
Definition generate_image_report (prepared : res exn Payload)
    (html_render_func : renderer) : option string * list render_call :=
  match prepared with
  | Raise _ => (None, [])
  | Ok render_payload =>
      let first :=
        mk_render_call image_template render_payload true
                       image_options_default in
      match html_render_func O image_template render_payload true
                             image_options_default with
      | Ok image_url => (Some image_url, [first])
      | Raise _ =>
          let second :=
            mk_render_call image_template render_payload true
                           simple_options in
          match html_render_func 1%nat image_template render_payload true
                                 simple_options with
          | Ok image_url => (Some image_url, [first; second])
          | Raise _ => (None, [first; second])
          end
      end
  end.

End ImageReport.
End ImageReport.

Module MoreExamples.
Import Fetch BotId FetchExamples.

(** A handler that knows the bot is ["b"], one with an empty id. *)
Definition knows_b : handler := mk_handler 5 100 (Some "b").
Definition empty_id : handler := mk_handler 5 100 (Some EmptyString).

(** Attempts to learn the id: no client, a failure, a reply without the
    user id, then the id; and later attempts. *)
Definition logins : list (option login_reply) :=
  [None; Some LoginRaises; Some (LoginInfo None); Some (LoginInfo (Some "b"))].
Definition later_logins : list (option login_reply) :=
  [Some (LoginInfo (Some "c")); Some LoginRaises].

(** A page from 1970, far before any window. *)
Definition ancient_page : list message := [msg 5 "a" 1].
Definition ancient : source := fun _ _ => Page ancient_page.

(** A loop state with one message collected. *)
Definition one_collected : loop_state :=
  mk_state [msg 1699999000 "c" 7] 7 1 0 1.

End MoreExamples.

(** Vocabulary for the counters of [calculate_statistics]. *)
Module CountSpec.
Import Stats StatsSpec.

(** The five counters of [EmojiStatistics]. *)
Inductive category : Type := Face | MFace | BFace | SFace | OtherEmoji.

Definition category_eqb (a b : category) : bool :=
  match a, b with
  | Face, Face | MFace, MFace | BFace, BFace | SFace, SFace
  | OtherEmoji, OtherEmoji => true
  | _, _ => false
  end.

Definition counter (cat : category) (es : EmojiStatistics) : Z :=
  match cat with
  | Face => face_count es
  | MFace => mface_count es
  | BFace => bface_count es
  | SFace => sface_count es
  | OtherEmoji => other_emoji_count es
  end.

(** The sum of the values of [face_details]. *)
Definition details_total (d : gmap string Z) : Z :=
  map_fold (fun _ v acc => v + acc) 0 d.

(** All the content segments of a list of messages, in order. *)
Definition segments (msgs : list message) : list content :=
  flat_map contents_of msgs.

Definition senders (msgs : list message) : list string :=
  map msg_sender_id msgs.

(** The characters a segment adds to [total_chars]. *)
Definition text_chars (c : content) : Z :=
  if type_is c "text"
  then py_len (get_default (data_of c) "text" EmptyString)
  else 0.

Fixpoint chars (cs : list content) : Z :=
  match cs with
  | [] => 0
  | c :: rest => text_chars c + chars rest
  end.

Section CountSpec.
Variable data_str_lower : dict -> string.

(** The branch of the [if]/[elif] chain a segment takes: the counter it
    adds to and the [face_details] key it adds to, if any. *)
Definition classify (c : content) : option (category * option string) :=
  let data := data_of c in
  if type_is c "text" then None
  else if type_is c "face" then
    Some (Face, Some ("face_" ++ get_default data "id" "unknown")%string)
  else if type_is c "mface" then
    Some (MFace, Some ("mface_" ++ get_default data "emoji_id" "unknown")%string)
  else if type_is c "bface" then
    Some (BFace, Some ("bface_" ++ get_default data "p" "unknown")%string)
  else if type_is c "sface" then
    Some (SFace, Some ("sface_" ++ get_default data "id" "unknown")%string)
  else if type_is c "image" then
    if contains "表情" (get_default data "summary" EmptyString)
    then Some (MFace, Some ("animated_" ++ get_default data "file" "unknown")%string)
    else None
  else if (type_is c "record" || type_is c "video")
          && contains "emoji" (data_str_lower data)
  then Some (OtherEmoji, None)
  else None.

Definition counted_as (cat : category) (c : content) : bool :=
  match classify c with
  | Some (cat', _) => category_eqb cat cat'
  | None => false
  end.

Definition is_emoji (c : content) : bool :=
  match classify c with Some _ => true | None => false end.

Definition has_detail (c : content) : bool :=
  match classify c with Some (_, Some _) => true | _ => false end.

(** How many of the segments add to a counter, to any counter, to
    [face_details]. *)
Definition tallies (cat : category) (cs : list content) : Z :=
  Z.of_nat (length (List.filter (counted_as cat) cs)).
Definition emojis (cs : list content) : Z :=
  Z.of_nat (length (List.filter is_emoji cs)).
Definition detailed (cs : list content) : Z :=
  Z.of_nat (length (List.filter has_detail cs)).

End CountSpec.
End CountSpec.

(** ** Vocabulary and examples for the analyzer and the image report *)

Module AnalyzerMoreExamples.
Import Analyzer.

(** A parser that finds one record, the text itself. *)
Definition one_record (text data_type : string)
    : res exn (bool * option (list string) * string) :=
  Ok (true, Some [text], EmptyString).

(** A usage dict without its total. *)
Definition usage_no_total (_ : string) : res exn (list (string * Z)) :=
  Ok [("prompt_tokens", 10); ("completion_tokens", 5)].

(** An analyzer whose regex fallback raises. *)
Definition no_fallback : BaseAnalyzer unit unit (option string) string string :=
  mk_BaseAnalyzer tt tt (Ok "lines") (Raise (Exception "NotImplementedError"))
    (fun data => Ok (default "hello" data))
    (fun _ _ => Raise (Exception "NotImplementedError"))
    (fun l => Ok l)
    (Ok default_max_tokens) (Ok default_temperature).

End AnalyzerMoreExamples.

Module ReportSpec.
Import ImageReport.

(** What the renderer answers to a recorded call, made as the [n]-th. *)
Definition attempt {Payload : Type} (html_render_func : renderer Payload)
    (n : nat) (c : render_call Payload) : res exn string :=
  html_render_func n (rc_template Payload c) (rc_payload Payload c)
                   (rc_return_url Payload c) (rc_options Payload c).

(** A renderer that fails on its first call only, one that always fails. *)
Definition fails_once : renderer string :=
  fun n template payload return_url options =>
    match n with
    | O => Raise (Exception "RenderError")
    | _ => Ok ("url:" ++ payload)%string
    end.

Definition always_fails : renderer string :=
  fun _ _ _ _ _ => Raise (Exception "RenderError").

End ReportSpec.

(** ** ReportGenerator._render_html_template *)

Module Template.

(** [s.replace(old, new)] for a non-empty [old], which is all the method
    asks for (a placeholder holds its braces): the occurrences of [old]
    are found from the left and do not overlap; [skip] counts the
    characters of an occurrence still to be passed over.  On UTF-8 text
    an occurrence starts and ends between characters, so bytes and
    characters give the same result. *)
Fixpoint replace_skip (old new : string) (skip : nat) (s : string) : string :=
  match s with
  | EmptyString => EmptyString
  | String a rest =>
      match skip with
      | S k => replace_skip old new k rest
      | O =>
          if String.prefix old s
          then (new ++ replace_skip old new (String.length old - 1) rest)%string
          else String a (replace_skip old new O rest)
      end
  end.

Definition replace (old new s : string) : string := replace_skip old new O s.

(** The two f-strings. *)
Definition placeholder (use_jinja_style : bool) (key : string) : string :=
  (if use_jinja_style then "{{ " ++ key ++ " }}" else "{" ++ key ++ "}")%string.

(** The method; [data] holds the items of the dict in its order, each
    value as [str(value)].  The log lines have no effect on the result. *)
Definition _render_html_template (template : string)
    (data : list (string * string)) (use_jinja_style : bool) : string :=
  fold_left
    (fun result '(key, value) =>
       replace (placeholder use_jinja_style key) value result)
    data template.

End Template.

(** * Properties of fetch_group_messages *)

Module FetchFacts.
Import Fetch FetchSpec.

Section FetchFacts.
Variable utc_offset : Z.
Variable h : handler.

#[local] Abbreviation scan_msg := (scan_msg utc_offset h).
#[local] Abbreviation scan_page := (scan_page utc_offset h).
#[local] Abbreviation kept := (kept utc_offset h).
#[local] Abbreviation last_parsed := (last_parsed utc_offset).
#[local] Abbreviation parsed_time := (parsed_time utc_offset).

Lemma scan_fold (start_time end_time : Z) (round_messages : list message) :
  forall s : scan,
    fold_left (scan_msg start_time end_time) round_messages s
    = mk_scan
        (s_messages s ++ List.filter (kept start_time end_time) round_messages)
        (valid_messages_in_round s
         + Z.of_nat (length (List.filter (kept start_time end_time)
                                         round_messages)))
        (last_parsed round_messages (oldest_msg_time s)).
Proof.
  induction round_messages as [|m l IH]; intros s.
  - simpl. rewrite app_nil_r, Z.add_0_r. by destruct s.
  - cbn [fold_left List.filter FetchSpec.last_parsed].
    rewrite IH. clear IH.
    unfold Fetch.scan_msg, FetchSpec.kept, in_window, FetchSpec.parsed_time.
    destruct (Datetime.fromtimestamp utc_offset (msg_time_field m)) as [t|];
      [|reflexivity].
    destruct (is_self h m); cbn [s_messages valid_messages_in_round
                                 oldest_msg_time negb];
      rewrite ?andb_false_r, ?andb_true_r; [reflexivity|].
    destruct ((start_time <=? t) && (t <=? end_time));
      cbn [s_messages valid_messages_in_round oldest_msg_time];
      [|reflexivity].
    rewrite <- app_assoc. cbn [app length].
    f_equal. lia.
Qed.

Lemma scan_page_eq (start_time end_time : Z) (msgs round_messages : list message) :
  scan_page start_time end_time msgs round_messages
  = mk_scan
      (msgs ++ List.filter (kept start_time end_time) round_messages)
      (Z.of_nat (length (List.filter (kept start_time end_time)
                                     round_messages)))
      (last_parsed round_messages None).
Proof. unfold Fetch.scan_page. by rewrite scan_fold. Qed.

Lemma kept_in_window (start_time end_time : Z) (m : message) :
  kept start_time end_time m = true ->
  exists t, parsed_time m = Some t /\ start_time <= t <= end_time.
Proof.
  unfold FetchSpec.kept, in_window. intros [Hw _]%andb_true_iff.
  destruct (parsed_time m) as [t|]; [|discriminate].
  exists t. split; [reflexivity|]. apply andb_true_iff in Hw. lia.
Qed.

(** ** One round, by cases *)

Variable api : source.
Variables start_time end_time : Z.

#[local] Abbreviation round := (Fetch.round utc_offset h api start_time end_time).
#[local] Abbreviation fetch_loop :=
  (fun fuel => Fetch.fetch_loop utc_offset fuel h api start_time end_time).
#[local] Abbreviation paged := (FetchSpec.paged utc_offset h start_time end_time).
#[local] Abbreviation windowed := (FetchSpec.windowed utc_offset start_time end_time).
#[local] Abbreviation round_case :=
  (FetchSpec.round_case utc_offset h api start_time end_time).

Lemma length_zero_nil {A} (l : list A) : Z.of_nat (length l) = 0 -> l = [].
Proof. destruct l; [reflexivity|]. cbn [length]. lia. Qed.

Lemma round_spec (st : loop_state) : round_case st (round st).
Proof.
  unfold Fetch.round.
  destruct (api (requests st) (message_seq st)) as [| |[|first rest]] eqn:Hapi.
  - unfold on_exception, max_failures. cbn [consecutive_failures].
    destruct (Z.leb_spec 3 (consecutive_failures st + 1)).
    + apply RFailBreak; [by rewrite Hapi | done].
    + apply RFailContinue; [by rewrite Hapi | done].
  - unfold on_invalid, max_failures. cbn [consecutive_failures].
    destruct (Z.leb_spec 3 (consecutive_failures st + 1)).
    + apply RFailBreak; [by rewrite Hapi | done].
    + apply RFailContinue; [by rewrite Hapi | done].
  - by apply REmpty.
  - rewrite scan_page_eq.
    cbn [s_messages valid_messages_in_round oldest_msg_time messages
         message_seq query_rounds requests].
    destruct (out_of_window start_time (last_parsed (first :: rest) None))
      eqn:Hout.
    { eapply RPageBreak; [done | by left]. }
    destruct (Z.eqb_spec
                (Z.of_nat (length (List.filter (kept start_time end_time)
                                               (first :: rest)))) 0) as [Hz|Hz].
    { eapply RPageBreak; [done | right].
      by apply length_zero_nil. }
    assert (List.filter (kept start_time end_time) (first :: rest) <> [])
      as Hne by (intros E; rewrite E in Hz; by apply Hz).
    destruct (m_message_id first) as [id|] eqn:Hid.
    + by eapply RAdvance.
    + unfold on_exception, max_failures.
      cbn [consecutive_failures messages message_seq query_rounds requests].
      change (3 <=? 0 + 1) with false. cbn iota.
      by eapply RKeyError.
Qed.

Lemma round_break_inv (st st' : loop_state) :
  round st = Break st' -> round_case st (Break st').
Proof. intros <-. apply round_spec. Qed.

Lemma round_continue_inv (st st' : loop_state) :
  round st = Continue st' -> round_case st (Continue st').
Proof. intros <-. apply round_spec. Qed.

Lemma guard_true (st : loop_state) :
  guard h st = true ->
  Z.of_nat (length (messages st)) < max_messages h
  /\ query_rounds st < max_query_rounds h.
Proof. unfold guard. intros [? ?]%andb_true_iff. lia. Qed.

Lemma filter_nonempty_length {A} (f : A -> bool) (l : list A) :
  List.filter f l <> [] -> (1 <= length (List.filter f l))%nat.
Proof. destruct (List.filter f l); [done|]. cbn [length]. lia. Qed.

(** ** The loop: an invariant rule and termination *)

Lemma fetch_loop_rule (I Q : loop_state -> Prop) :
  (forall st, I st -> guard h st = false -> Q st) ->
  (forall st st', I st -> guard h st = true -> round st = Break st' -> Q st') ->
  (forall st st', I st -> guard h st = true -> round st = Continue st' ->
                  I st') ->
  forall fuel st r, I st -> fetch_loop fuel st = Some r -> Q r.
Proof.
  intros Hexit Hbreak Hstep fuel.
  induction fuel as [|fuel IH]; intros st r HI; cbn [Fetch.fetch_loop];
    destruct (guard h st) eqn:Hg; try discriminate.
  - intros [= <-]. by apply Hexit.
  - destruct (round st) as [st'|st'] eqn:Hr.
    + intros [= <-]. by eapply Hbreak.
    + apply IH. by eapply Hstep.
  - intros [= <-]. by apply Hexit.
Qed.

Lemma round_continue_variant (st st' : loop_state) :
  guard h st = true ->
  0 <= consecutive_failures st <= 2 ->
  round st = Continue st' ->
  0 <= consecutive_failures st' <= 2 /\ variant h st' < variant h st.
Proof.
  intros [Hlen _]%guard_true Hf Hr%round_continue_inv.
  inversion Hr as [| Hfail Hlt | | | first rest Hapi Hout Hne Hid
                   | first rest id Hapi Hout Hne Hid]; subst;
    unfold variant, failed, FetchSpec.paged;
    cbn [messages consecutive_failures].
  - lia.
  - apply filter_nonempty_length in Hne. rewrite length_app. lia.
  - apply filter_nonempty_length in Hne. rewrite length_app. lia.
Qed.

Lemma fetch_loop_total (fuel : nat) :
  forall st,
    0 <= consecutive_failures st <= 2 ->
    variant h st <= Z.of_nat fuel ->
    exists r, fetch_loop fuel st = Some r.
Proof.
  induction fuel as [|fuel IH]; intros st Hf Hv; cbn [Fetch.fetch_loop];
    destruct (guard h st) eqn:Hg; eauto.
  - apply guard_true in Hg as [Hlen _]. unfold variant in Hv. lia.
  - destruct (round st) as [st'|st'] eqn:Hr; [eauto|].
    destruct (round_continue_variant st st' Hg Hf Hr) as [Hf' Hv'].
    apply IH; [done | lia].
Qed.

(** More fuel does not change the outcome. *)
Lemma fetch_loop_more_fuel (fuel : nat) :
  forall st r, fetch_loop fuel st = Some r ->
               forall fuel', (fuel <= fuel')%nat -> fetch_loop fuel' st = Some r.
Proof.
  induction fuel as [|fuel IH]; intros st r; cbn [Fetch.fetch_loop];
    destruct (guard h st) eqn:Hg; try discriminate.
  - intros [= <-] [|fuel'] _; cbn [Fetch.fetch_loop]; by rewrite Hg.
  - intros Hr [|fuel'] Hle; [lia|]. cbn [Fetch.fetch_loop]. rewrite Hg.
    destruct (round st) as [st'|st']; [done|].
    apply (IH _ _ Hr). lia.
  - intros [= <-] [|fuel'] _; cbn [Fetch.fetch_loop]; by rewrite Hg.
Qed.

(** ** Invariants of the loop *)

Lemma windowed_paged (st : loop_state) l seq rounds f :
  windowed st -> windowed (paged st l seq rounds f).
Proof.
  intros Hw m. unfold FetchSpec.paged. cbn [messages].
  rewrite in_app_iff, filter_In. intros [Hin|[_ Hk]]; [by apply Hw|].
  by eapply kept_in_window.
Qed.

Lemma windowed_round (st : loop_state) (x : round_exit) :
  windowed st -> round_case st x ->
  windowed (match x with Break st' | Continue st' => st' end).
Proof.
  intros Hw Hc. inversion Hc; subst; try by apply windowed_paged.
  all: exact Hw.
Qed.

Lemma fetch_loop_windowed (fuel : nat) (st r : loop_state) :
  windowed st -> fetch_loop fuel st = Some r -> windowed r.
Proof.
  apply (fetch_loop_rule windowed windowed).
  - done.
  - intros s s' Hw _ Hr%round_break_inv. by apply (windowed_round s _ Hw Hr).
  - intros s s' Hw _ Hr%round_continue_inv.
    by apply (windowed_round s _ Hw Hr).
Qed.

Lemma fetch_loop_rounds (fuel : nat) (st r : loop_state) :
  0 <= query_rounds st <= Z.max 0 (max_query_rounds h) ->
  fetch_loop fuel st = Some r ->
  0 <= query_rounds r <= Z.max 0 (max_query_rounds h).
Proof.
  apply (fetch_loop_rule
           (fun s => 0 <= query_rounds s <= Z.max 0 (max_query_rounds h))
           (fun s => 0 <= query_rounds s <= Z.max 0 (max_query_rounds h))).
  - done.
  - intros s s' Hi _ Hr%round_break_inv. by inversion Hr; subst.
  - intros s s' Hi [_ Hg]%guard_true Hr%round_continue_inv.
    inversion Hr; subst; cbn [query_rounds FetchSpec.paged failed]; lia.
Qed.

Lemma guard_failed (st : loop_state) : guard h (failed st) = guard h st.
Proof. reflexivity. Qed.

Lemma fetch_loop_requests (fuel : nat) (st r : loop_state) :
  pages_have_ids api ->
  (0 <= consecutive_failures st <= 2
   /\ 0 <= query_rounds st <= Z.max 0 (max_query_rounds h)
   /\ Z.of_nat (requests st) <= 3 * query_rounds st + consecutive_failures st
   /\ (0 < consecutive_failures st -> guard h st = true)) ->
  fetch_loop fuel st = Some r ->
  Z.of_nat (requests r) <= 3 * Z.max 0 (max_query_rounds h).
Proof.
  intros Hids.
  apply (fetch_loop_rule
    (fun s => 0 <= consecutive_failures s <= 2
              /\ 0 <= query_rounds s <= Z.max 0 (max_query_rounds h)
              /\ Z.of_nat (requests s)
                 <= 3 * query_rounds s + consecutive_failures s
              /\ (0 < consecutive_failures s -> guard h s = true))
    (fun s => Z.of_nat (requests s) <= 3 * Z.max 0 (max_query_rounds h))).
  - intros s (Hf & Hq & Hreq & Hg) Hg0.
    assert (consecutive_failures s = 0) by
      (destruct (Z.eq_dec (consecutive_failures s) 0); [done|];
       rewrite Hg in Hg0; [done | lia]).
    lia.
  - intros s s' (Hf & Hq & Hreq & _) [_ Hg]%guard_true Hr%round_break_inv.
    inversion Hr; subst; cbn [requests FetchSpec.paged failed]; lia.
  - intros s s' (Hf & Hq & Hreq & _) Hg Hr%round_continue_inv.
    pose proof (guard_true s Hg) as [_ Hlt].
    inversion Hr as [| Hfail Hlt3 | | | first rest Hapi Hout Hne Hid
                     | first rest id Hapi Hout Hne Hid]; subst;
      cbn [requests consecutive_failures query_rounds FetchSpec.paged failed].
    + rewrite guard_failed. repeat split; try lia. done.
    + by destruct (Hids _ _ _ _ Hapi).
    + repeat split; lia.
Qed.

Lemma round_requests (st : loop_state) :
  requests (exit_state (round st)) = S (requests st).
Proof. destruct (round_spec st); reflexivity. Qed.

Lemma fetch_loop_requests_mono (fuel : nat) (st r : loop_state) :
  fetch_loop fuel st = Some r -> (requests st <= requests r)%nat.
Proof.
  revert st. induction fuel as [|fuel IH]; intros st;
    cbn [Fetch.fetch_loop]; destruct (guard h st); try discriminate.
  - by intros [= <-].
  - pose proof (round_requests st) as Hreq.
    destruct (round st) as [st'|st']; cbn [exit_state] in Hreq.
    + intros [= <-]. lia.
    + intros Hr%IH. lia.
  - by intros [= <-].
Qed.

(** When the guard holds, a request is issued. *)
Lemma fetch_loop_first_request (fuel : nat) (st r : loop_state) :
  guard h st = true ->
  fetch_loop fuel st = Some r -> (S (requests st) <= requests r)%nat.
Proof.
  intros Hg. destruct fuel as [|fuel]; cbn [Fetch.fetch_loop]; rewrite Hg;
    [discriminate|].
  pose proof (round_requests st) as Hreq.
  destruct (round st) as [st'|st']; cbn [exit_state] in Hreq.
  - intros [= <-]. lia.
  - intros Hr%fetch_loop_requests_mono. lia.
Qed.

Lemma filter_length_le {A} (f : A -> bool) (l : list A) :
  (length (List.filter f l) <= length l)%nat.
Proof.
  induction l as [|a l IH]; cbn [List.filter length]; [lia|].
  destruct (f a); cbn [length]; lia.
Qed.

Lemma fetch_loop_length (p : Z) (fuel : nat) (st r : loop_state) :
  pages_at_most p api ->
  Z.of_nat (length (messages st)) <= max_messages h - 1 + p ->
  fetch_loop fuel st = Some r ->
  Z.of_nat (length (messages r)) <= max_messages h - 1 + p.
Proof.
  intros Hp.
  assert (forall s l seq rounds f,
             guard h s = true ->
             api (requests s) (message_seq s) = Page l ->
             Z.of_nat (length (messages (paged s l seq rounds f)))
             <= max_messages h - 1 + p) as Hpaged.
  { intros s l seq rounds f [Hlen _]%guard_true Hapi%Hp.
    unfold FetchSpec.paged. cbn [messages]. rewrite length_app.
    pose proof (filter_length_le (kept start_time end_time) l). lia. }
  apply (fetch_loop_rule
    (fun s => Z.of_nat (length (messages s)) <= max_messages h - 1 + p)
    (fun s => Z.of_nat (length (messages s)) <= max_messages h - 1 + p)).
  - done.
  - intros s s' Hi Hg Hr%round_break_inv.
    inversion Hr; subst; try (by eapply Hpaged); exact Hi.
  - intros s s' Hi Hg Hr%round_continue_inv.
    inversion Hr; subst; try (by eapply Hpaged); exact Hi.
Qed.

(** ** Counting failures *)

Lemma failing_round (st : loop_state) :
  is_failure (api (requests st) (message_seq st)) = true ->
  round st = if 3 <=? consecutive_failures st + 1
             then Break (failed st) else Continue (failed st).
Proof.
  intros Hf. unfold Fetch.round.
  destruct (api (requests st) (message_seq st)); try discriminate;
    reflexivity.
Qed.

Lemma failures_in_a_row (n : nat) :
  forall st,
    guard h st = true ->
    consecutive_failures st + Z.of_nat (S n) = 3 ->
    (forall k, (k < S n)%nat ->
       is_failure (api (requests st + k)%nat (message_seq st)) = true) ->
    forall fuel, (S n <= fuel)%nat ->
      fetch_loop fuel st
      = Some (mk_state (messages st) (message_seq st) (query_rounds st) 3
                       (requests st + S n)%nat).
Proof.
  induction n as [|n IH]; intros st Hg Hsum Hfail [|fuel] Hfuel; try lia;
    cbn [Fetch.fetch_loop]; rewrite Hg, failing_round
      by (rewrite <- (Nat.add_0_r (requests st)); apply Hfail; lia).
  - destruct (Z.leb_spec 3 (consecutive_failures st + 1)); [|lia].
    unfold failed. do 2 f_equal; lia.
  - destruct (Z.leb_spec 3 (consecutive_failures st + 1)); [lia|].
    rewrite (IH (failed st)); cbn [failed messages message_seq query_rounds
                                   requests consecutive_failures].
    + do 2 f_equal. lia.
    + by rewrite guard_failed.
    + lia.
    + intros k Hk. replace (S (requests st) + k)%nat
        with (requests st + S k)%nat by lia. apply Hfail. lia.
    + lia.
Qed.

(** What a round does to the failure counter. *)
Lemma round_failures (st : loop_state) :
  (is_failure (api (requests st) (message_seq st)) = true ->
   consecutive_failures (exit_state (round st))
   = consecutive_failures st + 1
   /\ messages (exit_state (round st)) = messages st
   /\ (3 <= consecutive_failures st + 1 ->
       round st = Break (exit_state (round st))))
  /\ (forall first rest,
        api (requests st) (message_seq st) = Page (first :: rest) ->
        consecutive_failures (exit_state (round st)) = 0
        \/ (m_message_id first = None
            /\ consecutive_failures (exit_state (round st)) = 1)).
Proof.
  split.
  - intros Hf. rewrite (failing_round st Hf).
    destruct (Z.leb_spec 3 (consecutive_failures st + 1)); cbn; auto.
    repeat split; auto. lia.
  - intros first rest Hapi.
    destruct (round_spec st) as [Hf| Hf| He| | |];
      cbn [exit_state FetchSpec.paged consecutive_failures];
      try (rewrite Hapi in Hf; discriminate);
      try (rewrite Hapi in He; discriminate); auto.
    right. split; [|reflexivity]. congruence.
Qed.

(** ** The states a call passes through *)

#[local] Abbreviation reaches :=
  (FetchSpec.reaches utc_offset h api start_time end_time).
#[local] Abbreviation served :=
  (FetchSpec.served utc_offset h api start_time end_time).

Lemma reaches_failures (st : loop_state) :
  reaches st -> 0 <= consecutive_failures st <= 2.
Proof.
  induction 1 as [|st st' _ IH Hg Hr]; [cbn; lia|].
  by destruct (round_continue_variant st st' Hg IH Hr).
Qed.

Lemma fetch_loop_agree (fuel1 fuel2 : nat) (st r1 r2 : loop_state) :
  fetch_loop fuel1 st = Some r1 -> fetch_loop fuel2 st = Some r2 -> r1 = r2.
Proof.
  intros H1 H2.
  pose proof (fetch_loop_more_fuel _ _ _ H1 (Nat.max fuel1 fuel2)
                ltac:(lia)) as H1'.
  pose proof (fetch_loop_more_fuel _ _ _ H2 (Nat.max fuel1 fuel2)
                ltac:(lia)) as H2'.
  congruence.
Qed.

(** The loop run from a state the call passes through ends where the
    call's loop ends. *)
Lemma reaches_result (st : loop_state) :
  reaches st ->
  forall fuel r fuel0 r0,
    fetch_loop fuel st = Some r ->
    fetch_loop fuel0 init_state = Some r0 ->
    r0 = r.
Proof.
  induction 1 as [|st st' _ IH Hg Hr]; intros fuel r fuel0 r0 Hst H0.
  - by eapply fetch_loop_agree.
  - apply (IH (S fuel) r fuel0 r0); [|exact H0].
    cbn [Fetch.fetch_loop]. by rewrite Hg, Hr.
Qed.

Lemma served_exit (st : loop_state) (x : round_exit) :
  reaches st -> guard h st = true -> served st ->
  round_case st x -> served (exit_state x).
Proof.
  intros Hreach Hg Hs Hx.
  assert (forall seq rounds f,
             served (mk_state (messages st) seq rounds f (S (requests st))))
    as Hsame.
  { intros seq rounds f m Hm. destruct (Hs m Hm) as (st0 & l & ? & ? & ? & ? & ?).
    exists st0, l. cbn [requests]. repeat split; try done. lia. }
  assert (forall l seq rounds f,
             api (requests st) (message_seq st) = Page l ->
             served (paged st l seq rounds f)) as Hpaged.
  { intros l seq rounds f Hapi m. unfold FetchSpec.paged.
    cbn [messages requests]. rewrite in_app_iff, filter_In.
    intros [Hm | [Hm _]].
    - destruct (Hs m Hm) as (st0 & l0 & ? & ? & ? & ? & ?).
      exists st0, l0. repeat split; try done. lia.
    - exists st, l. repeat split; try done. lia. }
  destruct Hx; cbn [exit_state]; unfold failed; eauto.
Qed.

Lemma fetch_loop_served (fuel : nat) (r : loop_state) :
  fetch_loop fuel init_state = Some r -> served r.
Proof.
  apply (fetch_loop_rule (fun s => reaches s /\ served s) served).
  - by intros st [_ Hs] _.
  - intros st st' [Hreach Hs] Hg Hr.
    apply (served_exit st (Break st') Hreach Hg Hs).
    by apply round_break_inv.
  - intros st st' [Hreach Hs] Hg Hr. split.
    + by eapply reaches_next.
    + apply (served_exit st (Continue st') Hreach Hg Hs).
      by apply round_continue_inv.
  - split; [constructor | intros m []].
Qed.

End FetchFacts.

(** ** The whole call *)

Section Call.
Variable utc_offset : Z.
Variable h : handler.

#[local] Abbreviation fetch_group_messages :=
  (Fetch.fetch_group_messages utc_offset h).

Lemma init_total (api : source) (start_time end_time : Z) :
  exists st, Fetch.fetch_loop utc_offset (loop_fuel h) h api start_time end_time
                              init_state = Some st.
Proof.
  apply fetch_loop_total; unfold variant, init_state, loop_fuel;
    cbn [consecutive_failures messages length]; lia.
Qed.

(** Either the call returns at once with the empty list, or it runs the
    loop over the window that ends at [now]. *)
Lemma fetch_cases (bot_instance : option source) (group_id : string)
    (days now : Z) :
  (fetch_group_messages bot_instance group_id days now = Some empty_result
   /\ (bot_instance = None \/ group_id = EmptyString \/ 999999999 < Z.abs days
       \/ Datetime.in_range (now - days * Datetime.usec_per_day) = false))
  \/ exists api st,
       bot_instance = Some api
       /\ group_id <> EmptyString
       /\ Datetime.in_range (now - days * Datetime.usec_per_day) = true
       /\ Fetch.fetch_loop utc_offset (loop_fuel h) h api
            (now - days * Datetime.usec_per_day) now init_state = Some st
       /\ fetch_group_messages bot_instance group_id days now
          = Some (mk_result (messages st) (requests st) (query_rounds st)).
Proof.
  unfold Fetch.fetch_group_messages.
  destruct bot_instance as [api|]; [|left; split; [done | by left]].
  destruct (String.eqb_spec group_id EmptyString) as [|Hg];
    [left; split; [done | by right; left]|].
  unfold Datetime.timedelta_days, Datetime.datetime_sub.
  destruct (Z.leb_spec (Z.abs days) 999999999);
    [|left; split; [done | by right; right; left]].
  destruct (Datetime.in_range (now - days * Datetime.usec_per_day)) eqn:Hr;
    [|left; split; [done | by right; right; right]].
  destruct (init_total api (now - days * Datetime.usec_per_day) now) as [st Hst].
  right. exists api, st. rewrite Hst. done.
Qed.

(** C5. During a fetch, a request that fails (an invalid result or an
    exception) adds one to the failure counter and leaves the collected
    messages alone; a page with messages sets the counter back to 0 (a
    missing id after that counts as the first failure); and once the
    failures in a row come to three, the call returns the messages
    collected up to there: it does not raise. *)
Theorem consecutive_failures_abort (api : source) (group_id : string)
    (days now : Z) :
  group_id <> EmptyString ->
  Z.abs days <= 999999999 ->
  Datetime.in_range (now - days * Datetime.usec_per_day) = true ->
  exists r,
    fetch_group_messages (Some api) group_id days now = Some r
    /\ forall st,
         reaches utc_offset h api (now - days * Datetime.usec_per_day) now st ->
         guard h st = true ->
         (is_failure (api (requests st) (message_seq st)) = true ->
          consecutive_failures
            (exit_state (Fetch.round utc_offset h api
                           (now - days * Datetime.usec_per_day) now st))
          = consecutive_failures st + 1
          /\ messages
               (exit_state (Fetch.round utc_offset h api
                              (now - days * Datetime.usec_per_day) now st))
             = messages st)
         /\ (forall first rest,
               api (requests st) (message_seq st) = Page (first :: rest) ->
               consecutive_failures
                 (exit_state (Fetch.round utc_offset h api
                                (now - days * Datetime.usec_per_day) now st))
               = 0
               \/ (m_message_id first = None
                   /\ consecutive_failures
                        (exit_state (Fetch.round utc_offset h api
                                       (now - days * Datetime.usec_per_day)
                                       now st))
                      = 1))
         /\ ((forall k, (k < Z.to_nat (3 - consecutive_failures st))%nat ->
                is_failure (api (requests st + k)%nat (message_seq st))
                = true) ->
             r_messages r = messages st
             /\ r_requests r
                = (requests st + Z.to_nat (3 - consecutive_failures st))%nat).
Proof.
  intros Hgroup Hdays Hrange.
  destruct (fetch_cases (Some api) group_id days now)
    as [[_ [Hn | [Hg | [Hd | Hr]]]] | (api' & r0 & [= <-] & _ & _ & Hloop & He)];
    [discriminate | done | lia | congruence |].
  eexists. split; [exact He|]. intros st Hreach Hg.
  destruct (round_failures utc_offset h api
              (now - days * Datetime.usec_per_day) now st) as [Hfail Hpage].
  split; [|split].
  - intros Hf. destruct (Hfail Hf) as (Hc & Hm & _). by split.
  - exact Hpage.
  - intros Hrow. pose proof (reaches_failures _ _ _ _ _ _ Hreach) as Hcf.
    destruct (Z.to_nat (3 - consecutive_failures st)) as [|n] eqn:Hn; [lia|].
    pose proof (failures_in_a_row utc_offset h api
                  (now - days * Datetime.usec_per_day) now n st Hg
                  ltac:(lia) Hrow (S n) (le_n _)) as Hend.
    rewrite (reaches_result _ _ _ _ _ _ Hreach _ _ _ _ Hend Hloop).
    split; reflexivity.
Qed.

Lemma fetch_result_windowed (bot_instance : option source)
    (group_id : string) (days now : Z) :
  exists r,
    fetch_group_messages bot_instance group_id days now = Some r
    /\ forall m, In m (r_messages r) ->
         exists t, Datetime.fromtimestamp utc_offset (msg_time_field m) = Some t
                   /\ now - days * Datetime.usec_per_day <= t <= now.
Proof.
  destruct (fetch_cases bot_instance group_id days now)
    as [[He _] | (api & st & _ & _ & _ & Hloop & He)]; rewrite He.
  - exists empty_result. split; [reflexivity|]. intros m [].
  - eexists. split; [reflexivity|]. cbn [r_messages].
    eapply (fetch_loop_windowed utc_offset h api); [|exact Hloop].
    intros m [].
Qed.

(** C2. Every message a fetch over [days] days returns has a timestamp
    in the closed interval from [now - days] to [now], [now] being the
    time read when the call starts. *)
Theorem fetched_within_window (bot_instance : option source)
    (group_id : string) (days now : Z) :
  exists r,
    fetch_group_messages bot_instance group_id days now = Some r
    /\ forall m, In m (r_messages r) ->
         exists t, Datetime.fromtimestamp utc_offset (msg_time_field m) = Some t
                   /\ now - days * Datetime.usec_per_day <= t <= now.
Proof. apply fetch_result_windowed. Qed.

(** C1, amended. With positive limits the call ends, completes at most
    [max_query_rounds] rounds and, when no page is longer than [p], returns
    at most [max_messages - 1 + p] messages; failed requests are not rounds,
    so up to [3 * max_query_rounds] requests are issued when the first
    message of every page carries its id. *)
Theorem fetch_bounds (api : source) (group_id : string) (days now p : Z) :
  0 < max_query_rounds h ->
  0 < max_messages h ->
  0 <= p ->
  pages_at_most p api ->
  exists r,
    fetch_group_messages (Some api) group_id days now = Some r
    /\ 0 <= r_rounds r <= max_query_rounds h
    /\ (pages_have_ids api ->
        Z.of_nat (r_requests r) <= 3 * max_query_rounds h)
    /\ Z.of_nat (length (r_messages r)) <= max_messages h - 1 + p.
Proof.
  intros Hrounds Hmsgs Hp Hpages.
  destruct (fetch_cases (Some api) group_id days now)
    as [[He _] | (api' & st & [= <-] & _ & _ & Hloop & He)]; rewrite He.
  - exists empty_result. cbn. repeat split; lia.
  - eexists. split; [reflexivity|]. cbn [r_rounds r_requests r_messages].
    split; [|split].
    + apply fetch_loop_rounds in Hloop; cbn [query_rounds init_state]; lia.
    + intros Hids.
      eapply fetch_loop_requests in Hloop; [lia | done |].
      cbn [consecutive_failures query_rounds requests init_state].
      repeat split; lia.
    + eapply fetch_loop_length in Hloop; [done.. |].
      cbn [messages init_state length]. lia.
Qed.

(** C4, amended. With [days = 0] the window is the single instant [now]:
    every returned message is stamped exactly [now], and requests are
    issued as in any other call, at least one when the client and the
    group id are there and both limits are positive. *)
Theorem zero_days (bot_instance : option source) (group_id : string)
    (now : Z) :
  exists r,
    fetch_group_messages bot_instance group_id 0 now = Some r
    /\ (forall m, In m (r_messages r) ->
          Datetime.fromtimestamp utc_offset (msg_time_field m) = Some now)
    /\ (is_Some bot_instance -> group_id <> EmptyString ->
        Datetime.in_range now = true ->
        0 < max_query_rounds h -> 0 < max_messages h ->
        (1 <= r_requests r)%nat).
Proof.
  destruct (fetch_result_windowed bot_instance group_id 0 now)
    as (r & He & Hw).
  exists r. split; [exact He|]. split.
  - intros m (t & Ht & Hle)%Hw. rewrite Ht. f_equal. lia.
  - intros [api ->] Hg Hnow Hrounds Hmsgs.
    destruct (fetch_cases (Some api) group_id 0 now)
      as [[_ Hno] | (api' & st & [= <-] & _ & _ & Hloop & He')].
    + replace (now - 0 * Datetime.usec_per_day) with now in Hno by lia.
      destruct Hno as [|[|[|]]]; [done | done | cbn in *; lia | congruence].
    + rewrite He in He'. injection He' as ->. cbn [r_requests].
      apply fetch_loop_first_request in Hloop; [exact Hloop|].
      unfold guard. cbn [messages query_rounds init_state length].
      apply andb_true_iff. split; apply Z.ltb_lt; lia.
Qed.

End Call.

(** ** Concrete runs *)

Import FetchExamples.

Lemma recent_pages_at_most_2 : pages_at_most 2 two_failures_then_page.
Proof.
  intros n seq l. unfold two_failures_then_page.
  destruct n as [|[|n]]; try discriminate.
  intros [= <-]. cbn. lia.
Defined.

Lemma recent_pages_have_ids : pages_have_ids two_failures_then_page.
Proof.
  intros n seq first rest. unfold two_failures_then_page.
  destruct n as [|[|n]]; try discriminate.
  intros [= <- _]. discriminate.
Defined.

Lemma fetched_within_window_witness :
  exists r,
    Fetch.fetch_group_messages 0 small (Some two_failures_then_page) "g" 1 now
    = Some r
    /\ forall m, In m (r_messages r) ->
         exists t, Datetime.fromtimestamp 0 (msg_time_field m) = Some t
                   /\ now - 1 * Datetime.usec_per_day <= t <= now.
Proof.
  exact (fetched_within_window 0 small (Some two_failures_then_page)
                               "g" 1 now).
Defined.

(** C1 as stated fails: with both limits at 1, two invalid results and
    then a page of two recent messages make three requests and return two
    messages. *)
Lemma more_than_the_limits :
  0 < max_query_rounds small /\ 0 < max_messages small
  /\ exists r,
       Fetch.fetch_group_messages 0 small (Some two_failures_then_page)
                                  "g" 1 now = Some r
       /\ max_query_rounds small < Z.of_nat (r_requests r)
       /\ max_messages small < Z.of_nat (length (r_messages r)).
Proof.
  split; [reflexivity|]. split; [reflexivity|].
  eexists. split; [vm_compute; reflexivity|].
  split; reflexivity.
Qed.

Lemma fetch_bounds_witness :
  exists r,
    Fetch.fetch_group_messages 0 small (Some two_failures_then_page)
                               "g" 1 now = Some r
    /\ 0 <= r_rounds r <= 1
    /\ Z.of_nat (r_requests r) <= 3
    /\ Z.of_nat (length (r_messages r)) <= 2.
Proof.
  destruct (fetch_bounds 0 small two_failures_then_page "g" 1 now 2)
    as (r & He & Hr & Hreq & Hlen).
  - reflexivity.
  - reflexivity.
  - discriminate.
  - exact recent_pages_at_most_2.
  - exists r. split; [exact He|]. split; [exact Hr|].
    split; [exact (Hreq recent_pages_have_ids) | exact Hlen].
Defined.

(** C4 as stated fails: with [days = 0] a request is issued, and a
    message stamped [now] is returned. *)
Lemma zero_days_still_asks :
  exists r,
    Fetch.fetch_group_messages 0 small (Some at_now) "g" 0 now = Some r
    /\ r_requests r = 1%nat
    /\ r_messages r = [msg 1700000000 "a" 1].
Proof. eexists. split; [vm_compute; reflexivity|]. split; reflexivity. Qed.

Lemma zero_days_witness :
  exists r,
    Fetch.fetch_group_messages 0 small (Some at_now) "g" 0 now = Some r
    /\ (forall m, In m (r_messages r) ->
          Datetime.fromtimestamp 0 (msg_time_field m) = Some now)
    /\ (1 <= r_requests r)%nat.
Proof.
  destruct (zero_days 0 small (Some at_now) "g" now) as (r & He & Hm & Hreq).
  exists r. split; [exact He|]. split; [exact Hm|].
  apply Hreq.
  - by eexists.
  - discriminate.
  - reflexivity.
  - reflexivity.
  - reflexivity.
Defined.

Lemma consecutive_failures_abort_witness :
  exists r,
    Fetch.fetch_group_messages 0 roomy (Some page_then_failures) "g" 1 now
    = Some r
    /\ r_messages r = recent_pair
    /\ r_requests r = 4%nat.
Proof.
  destruct (consecutive_failures_abort 0 roomy page_then_failures "g" 1 now)
    as (r & He & Hst).
  - discriminate.
  - cbn. lia.
  - reflexivity.
  - exists r. split; [exact He|].
    destruct (Hst (mk_state recent_pair 1 1 0 1)) as (_ & _ & Hrow).
    + apply (reaches_next 0 roomy page_then_failures _ _ init_state);
        [apply reaches_init | reflexivity | reflexivity].
    + reflexivity.
    + apply Hrow. intros [|[|[|k]]] Hk; [reflexivity..|].
      cbn in Hk. lia.
Defined.

(** C6 fails on the code: on a page whose first message is older than
    the window and whose last one is inside it, the smallest timestamp is
    before the window start, [oldest_msg_time] ends as the timestamp of
    the last message, and the loop goes on to a second request. *)
Theorem oldest_is_the_last_seen :
  min_parsed 0 old_then_new_page = Some (yesterday - 10 * Datetime.usec_per_sec)
  /\ oldest_msg_time (Fetch.scan_page 0 roomy yesterday now []
                                       old_then_new_page)
     = Some (1699999991 * Datetime.usec_per_sec)
  /\ Fetch.fetch_group_messages 0 roomy (Some old_then_new) "g" 1 now
     = Some (mk_result [msg 1699999991 "b" 2] 2 1).
Proof. repeat split; vm_compute; reflexivity. Qed.

End FetchFacts.

(** * Properties of calculate_statistics *)

Module StatsFacts.
Import Stats StatsSpec.

(** ** The hour histogram *)

Lemma get_bump (h k : Z) (hc : list (Z * Z)) :
  get k (bump h hc) = get k hc + (if h =? k then 1 else 0).
Proof.
  induction hc as [|[k' v] hc IH]; cbn [bump get].
  - destruct (Z.eqb_spec h k); lia.
  - destruct (Z.eqb_spec k' h) as [->|Hne]; cbn [get].
    + destruct (Z.eqb_spec h k); lia.
    + destruct (Z.eqb_spec k' k) as [->|Hne'].
      * destruct (Z.eqb_spec h k); [congruence | lia].
      * exact IH.
Qed.

Lemma keys_bump (h : Z) (hc : list (Z * Z)) :
  (In h (map fst hc) /\ map fst (bump h hc) = map fst hc)
  \/ (~ In h (map fst hc) /\ bump h hc = hc ++ [(h, 1)]).
Proof.
  induction hc as [|[k v] hc IH]; cbn [bump map fst app].
  - right. split; [intros [] | reflexivity].
  - destruct (Z.eqb_spec k h) as [->|Hne].
    + left. split; [by left | reflexivity].
    + destruct IH as [[Hin Heq]|[Hnot Heq]].
      * left. split; [by right|]. cbn [map fst]. by rewrite Heq.
      * right. split; [|by rewrite Heq]. intros [|]; [congruence | done].
Qed.

Lemma tally_snoc (hs : list Z) (h : Z) (hc : list (Z * Z)) :
  tally (hs ++ [h]) hc = bump h (tally hs hc).
Proof. unfold tally. by rewrite fold_left_app. Qed.

Lemma count_snoc (k : Z) (hs : list Z) (h : Z) :
  count k (hs ++ [h]) = count k hs + (if h =? k then 1 else 0).
Proof.
  induction hs as [|x hs IH]; cbn [count app]; [lia|]. rewrite IH. lia.
Qed.

Lemma count_nonneg (k : Z) (hs : list Z) : 0 <= count k hs.
Proof.
  induction hs as [|x hs IH]; cbn [count]; [lia|].
  destruct (x =? k); lia.
Qed.

Lemma count_pos (k : Z) (hs : list Z) : In k hs <-> 0 < count k hs.
Proof.
  induction hs as [|x hs IH]; cbn [count In]; [lia|].
  pose proof (count_nonneg k hs).
  destruct (Z.eqb_spec x k); [|rewrite IH]; intuition lia.
Qed.

Lemma first_index_lt (k : Z) (hs : list Z) :
  In k hs -> (first_index k hs < length hs)%nat.
Proof.
  induction hs as [|x hs IH]; cbn [first_index In length]; [done|].
  destruct (Z.eqb_spec x k); [lia|]. intros [|Hin%IH]; [done | lia].
Qed.

Lemma first_index_snoc_in (k : Z) (hs : list Z) (h : Z) :
  In k hs -> first_index k (hs ++ [h]) = first_index k hs.
Proof.
  induction hs as [|x hs IH]; cbn [first_index In app]; [done|].
  destruct (Z.eqb_spec x k); [done|]. intros [|Hin%IH]; [done | lia].
Qed.

Lemma first_index_snoc_new (hs : list Z) (h : Z) :
  ~ In h hs -> first_index h (hs ++ [h]) = length hs.
Proof.
  induction hs as [|x hs IH]; cbn [first_index In app length].
  - by rewrite Z.eqb_refl.
  - destruct (Z.eqb_spec x h); [tauto|]. intros Hn. rewrite IH; tauto.
Qed.

Lemma get_tally (k : Z) (hs : list Z) : get k (tally hs []) = count k hs.
Proof.
  induction hs as [|h hs IH] using rev_ind; [reflexivity|].
  by rewrite tally_snoc, get_bump, count_snoc, IH.
Qed.

(** The keys are the hours that occur, each once, in the order in which
    they first occur. *)
Lemma keys_tally (hs : list Z) :
  (forall k, In k (map fst (tally hs [])) <-> In k hs)
  /\ StronglySorted (earlier hs) (map fst (tally hs [])).
Proof.
  induction hs as [|h hs [IHin IHs]] using rev_ind.
  { split; [done | constructor]. }
  rewrite tally_snoc.
  assert (forall ks, Forall (fun k => In k hs) ks ->
            StronglySorted (earlier hs) ks ->
            StronglySorted (earlier (hs ++ [h])) ks) as Hmono.
  { induction ks as [|k ks IHk]; intros Hall Hs; [constructor|].
    apply Forall_cons in Hall as [Hk Hall].
    apply StronglySorted_cons in Hs as [Hlt Hs].
    constructor; [by apply IHk|].
    rewrite Forall_forall in Hlt, Hall. apply Forall_forall.
    intros k' Hk'. unfold earlier.
    rewrite !first_index_snoc_in
      by (try done; apply Hall, Hk'). by apply Hlt. }
  assert (Forall (fun k => In k hs) (map fst (tally hs []))) as Hkeys
    by (apply Forall_forall; intros k Hk%list_elem_of_In; by apply IHin).
  destruct (keys_bump h (tally hs [])) as [[Hin Heq]|[Hnot Heq]];
    rewrite Heq.
  - split; [|by apply Hmono].
    intros k. rewrite IHin, in_app_iff. cbn [In].
    split; [tauto|]. intros [|[<-|[]]]; [done | by apply IHin].
  - rewrite map_app. cbn [map fst]. split.
    + intros k. rewrite !in_app_iff, IHin. tauto.
    + apply StronglySorted_app. split; [|split].
      * intros k1 k2 Hk1%list_elem_of_In ->%list_elem_of_singleton.
        apply IHin in Hk1 as Hk1'. unfold earlier.
        rewrite first_index_snoc_in by done.
        rewrite first_index_snoc_new by (by rewrite <- IHin).
        by apply first_index_lt.
      * by apply Hmono.
      * repeat constructor.
Qed.

Lemma get_in (k v : Z) (hc : list (Z * Z)) :
  NoDup (map fst hc) -> In (k, v) hc -> get k hc = v.
Proof.
  induction hc as [|[k' v'] hc IH]; cbn [get In map fst]; [done|].
  intros [Hnot Hnd]%NoDup_cons [[= -> ->]|Hin].
  - by rewrite Z.eqb_refl.
  - destruct (Z.eqb_spec k' k) as [->|]; [|by apply IH].
    destruct Hnot. apply list_elem_of_In.
    change k with (fst (k, v)). by apply in_map.
Qed.

Lemma earlier_sorted_nodup (hs ks : list Z) :
  StronglySorted (earlier hs) ks -> NoDup ks.
Proof.
  induction ks as [|k ks IH]; [constructor|].
  intros [Hlt Hs]%StronglySorted_cons. constructor; [|by apply IH].
  intros Hin. rewrite Forall_forall in Hlt.
  specialize (Hlt _ Hin). unfold earlier in Hlt. lia.
Qed.

(** [max] returns the first of the entries with the largest count. *)
Lemma max_from_split (items : list (Z * Z)) :
  forall best,
  exists l1 l2,
    best :: items = l1 ++ max_from best items :: l2
    /\ Forall (fun y => snd y < snd (max_from best items)) l1
    /\ Forall (fun y => snd y <= snd (max_from best items)) l2.
Proof.
  induction items as [|x items IH]; intros best; cbn [max_from].
  { exists [], []. repeat split; constructor. }
  destruct (Z.ltb_spec (snd best) (snd x)) as [Hlt|Hge].
  - destruct (IH x) as (l1 & l2 & Heq & H1 & H2).
    exists (best :: l1), l2. rewrite Heq. repeat split; [|done].
    constructor; [|done].
    assert (In x (l1 ++ max_from x items :: l2)) as Hin
      by (rewrite <- Heq; by left).
    rewrite Forall_forall in H1, H2.
    apply in_app_iff in Hin as [Hin|[Hx|Hin]]; [| rewrite Hx; lia |].
    + apply list_elem_of_In, H1 in Hin. lia.
    + apply list_elem_of_In, H2 in Hin. lia.
  - destruct (IH best) as (l1 & l2 & Heq & H1 & H2).
    destruct l1 as [|b l1]; cbn [app] in Heq.
    + injection Heq as Hb Hitems. exists [], (x :: l2).
      rewrite <- Hb in *. rewrite Hitems. repeat split; [constructor|].
      constructor; [lia | done].
    + injection Heq as <- Hitems. exists (best :: x :: l1), l2.
      split; [cbn [app]; do 2 f_equal; exact Hitems|]. split; [|done].
      apply Forall_cons in H1 as [Hb H1].
      repeat constructor; [done | lia | done].
Qed.

(** The hour [max] picks: one that occurs most often and, among those,
    the one that occurs first. *)
Lemma most_active_hour_spec (hs : list Z) :
  hs <> [] ->
  In (most_active_hour_of (tally hs [])) hs
  /\ (forall h', count h' hs <= count (most_active_hour_of (tally hs [])) hs)
  /\ (forall h', h' <> most_active_hour_of (tally hs []) ->
                 count h' hs = count (most_active_hour_of (tally hs [])) hs ->
                 earlier hs (most_active_hour_of (tally hs [])) h').
Proof.
  intros Hne.
  destruct (keys_tally hs) as [Hkeys Hsorted].
  pose proof (earlier_sorted_nodup _ _ Hsorted) as Hnd.
  apply NoDup_ListNoDup in Hnd.
  assert (forall k v, In (k, v) (tally hs []) -> v = count k hs) as Hval.
  { intros k v Hin. rewrite <- get_tally. symmetry. apply get_in; [|done].
    by apply NoDup_ListNoDup. }
  assert (forall k, In k hs -> exists v, In (k, v) (tally hs [])) as Hentry.
  { intros k Hk%Hkeys. apply in_map_iff in Hk as ([k' v] & <- & Hin).
    by exists v. }
  destruct (tally hs []) as [|x rest] eqn:Hhc.
  { destruct hs as [|h0 hs']; [done|].
    destruct (Hentry h0) as [v []]. by left. }
  cbn [most_active_hour_of].
  destruct (max_from_split rest x) as (l1 & l2 & Heq & H1 & H2).
  set (m := max_from x rest) in *.
  rewrite Heq in Hkeys, Hsorted, Hval, Hentry.
  rewrite Forall_forall in H1, H2.
  assert (snd m = count (fst m) hs) as Hm.
  { apply Hval. rewrite in_app_iff. right. left. by destruct m. }
  assert (In (fst m) hs) as Hw.
  { apply Hkeys. rewrite map_app, in_app_iff. right. by left. }
  assert (forall h' v, In (h', v) (l1 ++ m :: l2) ->
            v <= snd m /\ (h' <> fst m -> v = snd m -> In (h', v) l2))
    as Hcases.
  { intros h' v [Hin|[->|Hin]]%in_app_iff.
    - apply list_elem_of_In, H1 in Hin. cbn [snd] in Hin. lia.
    - cbn [fst snd]. split; [lia | done].
    - split; [|done]. apply list_elem_of_In, H2 in Hin. by cbn [snd] in Hin. }
  split; [exact Hw|]. split.
  - intros h'. rewrite <- Hm.
    destruct (Z_lt_le_dec 0 (count h' hs)) as [Hpos|Hzero].
    + apply count_pos in Hpos. destruct (Hentry h' Hpos) as [v Hin].
      rewrite <- (Hval _ _ Hin). by apply (Hcases h' v).
    + pose proof (count_nonneg (fst m) hs). lia.
  - intros h' Hneq Htie.
    assert (In h' hs) as Hin'
      by (apply count_pos; rewrite Htie; by apply count_pos).
    destruct (Hentry h' Hin') as [v Hin].
    pose proof (Hval _ _ Hin) as Hv.
    destruct (Hcases h' v Hin) as [_ Hl2].
    specialize (Hl2 Hneq ltac:(lia)).
    rewrite map_app in Hsorted. cbn [map] in Hsorted.
    apply StronglySorted_app_1_r, StronglySorted_cons in Hsorted
      as [Hall _].
    rewrite Forall_forall in Hall. apply Hall, list_elem_of_In.
    change h' with (fst (h', v)). by apply in_map.
Qed.

(** ** The loop and the object store *)

Section Store.
Variable utc_offset : Z.
Variable range_error : Z -> exn.
Variable data_str_lower : dict -> string.

#[local] Abbreviation content_step := (Stats.content_step data_str_lower).
#[local] Abbreviation count_contents := (StatsSpec.count_contents data_str_lower).
#[local] Abbreviation message_loop :=
  (Stats.message_loop utc_offset range_error data_str_lower).
#[local] Abbreviation object_step :=
  (StatsSpec.object_step utc_offset range_error data_str_lower).
#[local] Abbreviation object_loop :=
  (StatsSpec.object_loop utc_offset range_error data_str_lower).
#[local] Abbreviation hours_of := (StatsSpec.hours_of utc_offset).

(** The contents of a message only touch the object at [l]. *)
Lemma content_fold_store (l : loc) (cs : list content) :
  forall (tc : Z) (hp : heap) (es : EmojiStatistics),
    hp !! l = Some es ->
    fold_left (content_step l) cs (tc, hp)
    = (fst (count_contents cs (tc, es)),
       <[l := snd (count_contents cs (tc, es))]> hp).
Proof.
  induction cs as [|c cs IH]; intros tc hp es Hl;
    cbn [fold_left StatsSpec.count_contents fst snd].
  - by rewrite list_insert_id.
  - unfold Stats.content_step at 2. rewrite Hl.
    destruct (count_content data_str_lower c tc es) as [tc' es'] eqn:Hc.
    unfold StatsSpec.count_contents in IH.
    rewrite (IH tc' _ es').
    + by rewrite list_insert_insert_eq.
    + apply list_lookup_insert_eq. by eapply lookup_lt_Some.
Qed.

Lemma message_loop_store (l : loc) (msgs : list message) :
  forall (lv : locals) (hp : heap) (es : EmojiStatistics),
    hp !! l = Some es ->
    message_loop l lv hp msgs
    = (fst (object_loop lv es msgs), <[l := snd (object_loop lv es msgs)]> hp).
Proof.
  induction msgs as [|msg msgs IH]; intros lv hp es Hl;
    cbn [Stats.message_loop StatsSpec.object_loop fst snd].
  - by rewrite list_insert_id.
  - unfold Stats.message_step, StatsSpec.object_step.
    destruct (Datetime.fromtimestamp utc_offset (msg_time_field msg)) as [t|];
      cbn [fst snd]; [|by rewrite list_insert_id].
    fold (contents_of msg).
    rewrite (content_fold_store l _ _ _ es Hl).
    rewrite (IH _ _ (snd (count_contents (contents_of msg)
                                         (total_chars lv, es)))).
    + by rewrite list_insert_insert_eq.
    + apply list_lookup_insert_eq. by eapply lookup_lt_Some.
Qed.

(** The hour histogram the loop ends with. *)
Lemma object_loop_hours (msgs : list message) :
  forall (lv : locals) (es : EmojiStatistics),
    match hours_of msgs with
    | Some hs =>
        exists lv', fst (object_loop lv es msgs) = Ok lv'
                    /\ hour_counts lv' = tally hs (hour_counts lv)
    | None => exists e, fst (object_loop lv es msgs) = Raise e
    end.
Proof.
  induction msgs as [|msg msgs IH]; intros lv es;
    cbn [StatsSpec.hours_of StatsSpec.object_loop].
  - by exists lv.
  - unfold hour_of, StatsSpec.object_step.
    destruct (Datetime.fromtimestamp utc_offset (msg_time_field msg)) as [t|];
      cbn [fmap option_fmap option_map]; [|by eexists].
    match goal with
    | |- context [object_loop ?lv' ?es' msgs] => specialize (IH lv' es')
    end.
    destruct (hours_of msgs) as [hs|]; [|exact IH].
    destruct IH as (lv' & Hok & Hhc). exists lv'. split; [exact Hok|].
    rewrite Hhc. reflexivity.
Qed.

End Store.

(** ** The method *)

Lemma lookup_last {A} (l : list A) (x : A) : (l ++ [x]) !! length l = Some x.
Proof. induction l as [|a l IH]; [reflexivity | exact IH]. Qed.

Lemma insert_last {A} (l : list A) (x y : A) :
  <[length l := y]> (l ++ [x]) = l ++ [y].
Proof.
  induction l as [|a l IH]; [reflexivity|].
  cbn [length app]. change (<[S (length l) := y]> (a :: (l ++ [x])))
    with (a :: <[length l := y]> (l ++ [x])). by rewrite IH.
Qed.

Lemma hour_range (dt : Z) : 0 <= Datetime.hour dt < 24.
Proof. unfold Datetime.hour. apply Z.mod_pos_bound. lia. Qed.

Lemma fmt_02d_hour (w : Z) : 0 <= w < 24 -> String.length (fmt_02d w) = 2%nat.
Proof.
  intros Hw. assert (w = Z.of_nat (Z.to_nat w)) as -> by lia.
  assert (Z.to_nat w < 24)%nat as Hn by lia.
  revert Hn. generalize (Z.to_nat w). intros n Hn.
  do 24 (destruct n as [|n]; [reflexivity|]). lia.
Qed.

Lemma next_hour (w : Z) :
  0 <= w < 24 -> (w + 1) mod 24 = if w =? 23 then 0 else w + 1.
Proof.
  intros Hw. destruct (Z.eqb_spec w 23) as [->|]; [reflexivity|].
  apply Z.mod_small. lia.
Qed.

Section Method.
Variable utc_offset : Z.
Variable range_error : Z -> exn.
Variable data_str_lower : dict -> string.
Variables (VisState AV : Type).
Variable generate_activity_visualization :
  VisState -> list message -> res exn AV * VisState.

#[local] Abbreviation statistics_arguments :=
  (Stats.statistics_arguments utc_offset range_error data_str_lower VisState
                              AV generate_activity_visualization).
#[local] Abbreviation calculate_statistics :=
  (Stats.calculate_statistics utc_offset range_error data_str_lower VisState
                              AV generate_activity_visualization).
#[local] Abbreviation object_loop :=
  (StatsSpec.object_loop utc_offset range_error data_str_lower).
#[local] Abbreviation hours_of := (StatsSpec.hours_of utc_offset).
#[local] Abbreviation outcome := (StatsSpec.outcome utc_offset range_error data_str_lower).

Lemma statistics_arguments_eq (vis : VisState) (hp : heap)
    (msgs : list message) :
  statistics_arguments vis hp msgs
  = match fst (outcome msgs) with
    | Raise e => (Raise e, hp ++ [snd (outcome msgs)], vis)
    | Ok lv =>
        match generate_activity_visualization vis msgs with
        | (Raise e, vis') => (Raise e, hp ++ [snd (outcome msgs)], vis')
        | (Ok av, vis') =>
            (Ok (build lv (snd (outcome msgs)) (length hp) av msgs),
             hp ++ [snd (outcome msgs)], vis')
        end
    end.
Proof.
  unfold Stats.statistics_arguments, new_EmojiStatistics.
  rewrite (message_loop_store utc_offset range_error data_str_lower (length hp) msgs
             _ _ EmojiStatistics0) by apply lookup_last.
  rewrite insert_last. fold (outcome msgs).
  destruct (fst (outcome msgs)) as [lv|e]; [|reflexivity].
  destruct (generate_activity_visualization vis msgs) as [[av|e] vis'];
    [|reflexivity].
  by rewrite lookup_last.
Qed.

Lemma hours_in_range (msgs : list message) (hs : list Z) :
  hours_of msgs = Some hs -> Forall (fun hr => 0 <= hr < 24) hs.
Proof.
  revert hs. induction msgs as [|m msgs IH]; intros hs;
    cbn [StatsSpec.hours_of].
  - intros [= <-]. constructor.
  - unfold hour_of.
    destruct (Datetime.fromtimestamp utc_offset (msg_time_field m)) as [t|];
      cbn [fmap option_fmap option_map]; [|discriminate].
    destruct (hours_of msgs) as [hs'|]; [|discriminate].
    intros [= <-]. constructor; [apply hour_range | by apply IH].
Qed.

(** The arguments are evaluated when every timestamp converts and the
    visualizer returns. *)
Lemma statistics_arguments_returns (vis vis' : VisState) (hp : heap)
    (msgs : list message) (hs : list Z) (av : AV) :
  hours_of msgs = Some hs ->
  generate_activity_visualization vis msgs = (Ok av, vis') ->
  exists kw, statistics_arguments vis hp msgs
            = (Ok kw, hp ++ [snd (outcome msgs)], vis').
Proof.
  intros Hhs Hvis. rewrite statistics_arguments_eq, Hvis.
  pose proof (object_loop_hours utc_offset range_error data_str_lower msgs
                (mk_locals 0 ∅ []) EmojiStatistics0) as Hloop.
  rewrite Hhs in Hloop. destruct Hloop as (lv & Hok & _).
  fold (outcome msgs) in Hok. rewrite Hok. by eexists.
Qed.

(** The call that ends the method raises whatever its arguments are:
    [activity_visualization] names no field of the dataclass. *)
Lemma calculate_statistics_raises (vis : VisState) (hp : heap)
    (msgs : list message) :
  calculate_statistics vis hp msgs
  = match statistics_arguments vis hp msgs with
    | (Ok _, hp', vis') => (Raise (Exception "TypeError"), hp', vis')
    | (Raise e, hp', vis') => (Raise e, hp', vis')
    end.
Proof.
  unfold Stats.calculate_statistics.
  by destruct (statistics_arguments vis hp msgs) as [[[kw|e] hp'] vis'].
Qed.

Lemma calculate_statistics_no_result (vis : VisState) (hp : heap)
    (msgs : list message) :
  exists e hp' vis', calculate_statistics vis hp msgs = (Raise e, hp', vis').
Proof.
  rewrite calculate_statistics_raises.
  destruct (statistics_arguments vis hp msgs) as [[[kw|e] hp'] vis'];
    by eexists _, _, _.
Qed.

(** C3, amended. The period the method computes and passes on as
    [most_active_period]: when hours tie for the largest count it is that
    of the tied hour whose first message comes first in the list, not of
    the smallest hour: with five messages at 9, five at 14 and at most
    one at any other hour it is "09:00-10:00" when a message at 9 comes
    before every message at 14 and "14:00-15:00" otherwise.  The period
    reads HH:00-HH:00, the hour after 23 being 00. *)
Theorem most_active_period_tie_break (vis vis' : VisState) (hp hp' : heap)
    (msgs : list message) (kw : keywords loc AV) :
  statistics_arguments vis hp msgs = (Ok kw, hp', vis') ->
  exists hs w,
    hours_of msgs = Some hs
    /\ kw_most_active_period kw
       = (fmt_02d w ++ ":00-"
          ++ fmt_02d (if (w =? 23)%Z then 0%Z else (w + 1)%Z)
          ++ ":00")%string
    /\ String.length (fmt_02d w) = 2%nat
    /\ String.length (fmt_02d (if w =? 23 then 0 else w + 1)) = 2%nat
    /\ (hs = [] -> w = 0)
    /\ (hs <> [] ->
        In w hs
        /\ (forall h', count h' hs <= count w hs)
        /\ (forall h', h' <> w -> count h' hs = count w hs ->
                       earlier hs w h'))
    /\ (count 9 hs = 5 -> count 14 hs = 5 ->
        (forall h', h' <> 9 -> h' <> 14 -> count h' hs <= 1) ->
        kw_most_active_period kw
        = if (first_index 9 hs <? first_index 14 hs)%nat
          then "09:00-10:00" else "14:00-15:00").
Proof.
  rewrite statistics_arguments_eq.
  pose proof (object_loop_hours utc_offset range_error data_str_lower msgs
                (mk_locals 0 ∅ []) EmojiStatistics0) as Hloop.
  fold (outcome msgs) in Hloop.
  destruct (hours_of msgs) as [hs|] eqn:Hhs.
  2: { destruct Hloop as [e ->]. discriminate. }
  destruct Hloop as (lv & -> & Hhc). cbn [hour_counts tally] in Hhc.
  change (fold_left (fun hc h => bump h hc) hs []) with (tally hs []) in Hhc.
  destruct (generate_activity_visualization vis msgs) as [[av|e] vis''];
    [|discriminate].
  intros [= <- _ _]. unfold build. cbn [kw_most_active_period]. rewrite Hhc.
  set (w := most_active_hour_of (tally hs [])).
  assert (hs <> [] ->
          In w hs
          /\ (forall h', count h' hs <= count w hs)
          /\ (forall h', h' <> w -> count h' hs = count w hs ->
                         earlier hs w h')) as Hspec
    by apply most_active_hour_spec.
  assert (0 <= w < 24) as Hw.
  { destruct hs as [|h0 hs'] eqn:Hd; [cbn; lia|].
    destruct Hspec as (Hin & _); [done|].
    apply hours_in_range in Hhs. rewrite Forall_forall in Hhs.
    by apply Hhs, list_elem_of_In. }
  exists hs, w. split; [reflexivity|]. split.
  { unfold period_of. by rewrite next_hour. }
  split; [by apply fmt_02d_hour|]. split.
  { apply fmt_02d_hour. destruct (Z.eqb_spec w 23); lia. }
  split; [by intros ->|]. split; [exact Hspec|].
  intros H9 H14 Hothers.
  assert (hs <> []) as Hne by (intros ->; discriminate).
  destruct (Hspec Hne) as (Hin & Hmax & Htie).
  pose proof (Hmax 9) as Hge. rewrite H9 in Hge.
  assert (w = 9 \/ w = 14) as Hcases.
  { destruct (Z.eq_dec w 9); [by left|].
    destruct (Z.eq_dec w 14); [by right|].
    specialize (Hothers w). lia. }
  destruct (Nat.ltb_spec (first_index 9 hs) (first_index 14 hs)) as [Hlt|Hle].
  - destruct Hcases as [->| Hw14]; [reflexivity|]. exfalso.
    specialize (Htie 9). unfold earlier in Htie. rewrite Hw14 in Htie.
    specialize (Htie ltac:(lia) ltac:(lia)). lia.
  - destruct Hcases as [Hw9 | ->]; [|reflexivity]. exfalso.
    specialize (Htie 14). unfold earlier in Htie. rewrite Hw9 in Htie.
    specialize (Htie ltac:(lia) ltac:(lia)). lia.
Qed.

(** Among the keyword arguments, [emoji_count] is the sum of the five
    counters of the object passed as [emoji_statistics]. *)
Lemma emoji_count_argument (vis vis' : VisState) (hp hp' : heap)
    (msgs : list message) (kw : keywords loc AV) :
  statistics_arguments vis hp msgs = (Ok kw, hp', vis') ->
  exists es,
    hp' !! kw_emoji_statistics kw = Some es
    /\ kw_emoji_count kw
       = face_count es + mface_count es + bface_count es + sface_count es
         + other_emoji_count es.
Proof.
  rewrite statistics_arguments_eq.
  destruct (fst (outcome msgs)) as [lv|e]; [|discriminate].
  destruct (generate_activity_visualization vis msgs) as [[av|e] vis''];
    [|discriminate].
  intros [= <- <- _]. exists (snd (outcome msgs)).
  split; [apply lookup_last | reflexivity].
Qed.

End Method.

(** ** Concrete runs *)

Import StatsExamples.

#[local] Abbreviation arguments_run :=
  (Stats.statistics_arguments 0 year_error no_repr nat nat
                              counting_visualizer).
#[local] Abbreviation run :=
  (Stats.calculate_statistics 0 year_error no_repr nat nat
                              counting_visualizer).

(** C3 as stated fails: with hour counts 9:5, 14:5 and 3:1 and a
    message at 14 first, the period computed is the one of hour 14. *)
Lemma fourteen_wins :
  exists kw hp' vis',
    arguments_run O [] fourteen_first = (Ok kw, hp', vis')
    /\ hours_of 0 fourteen_first
       = Some [14; 14; 14; 14; 14; 9; 9; 9; 9; 9; 3]
    /\ kw_most_active_period kw = "14:00-15:00".
Proof.
  eexists _, _, _. split; [vm_compute; reflexivity|].
  split; reflexivity.
Qed.

Lemma most_active_period_tie_break_witness :
  exists kw hp' vis',
    arguments_run O [] nine_first = (Ok kw, hp', vis')
    /\ kw_most_active_period kw = "09:00-10:00".
Proof.
  destruct (arguments_run O [] nine_first) as [[r hp'] vis'] eqn:Hrun.
  pose proof Hrun as Hval. vm_compute in Hval.
  injection Hval as <- <- <-.
  eexists _, _, _. split; [reflexivity|].
  destruct (most_active_period_tie_break _ _ _ _ _ _ _ _ _ _ _ _ Hrun)
    as (hs & w & Hhs & _ & _ & _ & _ & _ & Hex).
  vm_compute in Hhs. injection Hhs as <-.
  apply Hex; [reflexivity | reflexivity |].
  intros h' H9 H14. cbn [count].
  destruct (Z.eqb_spec 9 h'); [congruence|].
  destruct (Z.eqb_spec 14 h'); [congruence|].
  destruct (3 =? h'); lia.
Defined.



End StatsFacts.

(** * Properties of analyze *)

Module AnalyzerFacts.
Import Analyzer AnalyzerSpec.

Section AnalyzerFacts.
Variables (Context ConfigManager Data Response RawRecord DataObject : Type).

#[local] Abbreviation BaseAnalyzer :=
  (Analyzer.BaseAnalyzer Context ConfigManager Data RawRecord DataObject).

Variable call_provider_with_retry :
  Context -> ConfigManager -> string -> Z -> Q -> option string ->
  res exn (option Response).
Variable extract_token_usage : Response -> res exn (list (string * Z)).
Variable extract_response_text : Response -> res exn string.
Variable parse_json_response :
  string -> string -> res exn (bool * option (list RawRecord) * string).

#[local] Abbreviation analyze :=
  (Analyzer.analyze call_provider_with_retry extract_token_usage
                    extract_response_text parse_json_response).
#[local] Abbreviation analyze_body :=
  (Analyzer.analyze_body call_provider_with_retry extract_token_usage
                         extract_response_text parse_json_response).
#[local] Abbreviation analyze_response :=
  (Analyzer.analyze_response (Context := Context)
     (ConfigManager := ConfigManager) (Data := Data)
     extract_token_usage extract_response_text parse_json_response).
#[local] Abbreviation provider_answer :=
  (AnalyzerSpec.provider_answer Context ConfigManager Data Response
     RawRecord DataObject call_provider_with_retry).
#[local] Abbreviation token_usage_of :=
  (AnalyzerSpec.token_usage_of Response extract_token_usage).
#[local] Abbreviation response_raises :=
  (AnalyzerSpec.response_raises Context ConfigManager Data Response
     RawRecord DataObject extract_token_usage extract_response_text
     parse_json_response).
#[local] Abbreviation step_raises :=
  (AnalyzerSpec.step_raises Context ConfigManager Data Response
     RawRecord DataObject call_provider_with_retry extract_token_usage
     extract_response_text parse_json_response).

Ltac unfold_bind := unfold mbind, res_bind, bind.

Lemma log_tag (self : BaseAnalyzer) (data_type : string) :
  get_data_type self = Ok data_type -> log self = Ok tt.
Proof. unfold log. unfold_bind. by intros ->. Qed.

(** With a [get_data_type] that returns, the [try] block is what the
    provider answers followed by steps 3 to 6. *)
Lemma analyze_body_answer (self : BaseAnalyzer) (data : Data)
    (umo : option string) (data_type : string) :
  get_data_type self = Ok data_type ->
  analyze_body self data umo
  = match provider_answer self data umo with
    | Ok None => Ok ([], TokenUsage0)
    | Ok (Some response) => analyze_response self response
    | Raise e => Raise e
    end.
Proof.
  intros Hlog%log_tag.
  unfold Analyzer.analyze_body, AnalyzerSpec.provider_answer. unfold_bind.
  destruct (build_prompt self data); [|reflexivity]. rewrite Hlog.
  destruct (get_max_tokens self); [|reflexivity].
  destruct (get_temperature self); [|reflexivity].
  destruct (call_provider_with_retry _ _ _ _ _ _) as [[response|]|];
    reflexivity.
Qed.

(** Steps 4 to 6, given the usage of step 3. *)
Lemma analyze_response_usage (self : BaseAnalyzer) (response : Response)
    (data_type : string) :
  get_data_type self = Ok data_type ->
  analyze_response self response
  = match token_usage_of response with
    | Raise e => Raise e
    | Ok token_usage =>
        match extract_response_text response with
        | Raise e => Raise e
        | Ok result_text =>
            match parse_json_response result_text data_type with
            | Raise e => Raise e
            | Ok (success, parsed_data, _) =>
                if success && truthy parsed_data then
                  match create_data_objects self (default [] parsed_data) with
                  | Raise e => Raise e
                  | Ok data_objects => Ok (data_objects, token_usage)
                  end
                else
                  match get_max_count self with
                  | Raise e => Raise e
                  | Ok max_count =>
                      match extract_with_regex self result_text max_count with
                      | Raise e => Raise e
                      | Ok [] => Ok ([], token_usage)
                      | Ok regex_data =>
                          match create_data_objects self regex_data with
                          | Raise e => Raise e
                          | Ok data_objects => Ok (data_objects, token_usage)
                          end
                      end
                  end
            end
        end
    end.
Proof.
  intros Htag. pose proof (log_tag self data_type Htag) as Hlog.
  unfold Analyzer.analyze_response, AnalyzerSpec.token_usage_of. unfold_bind.
  destruct (extract_token_usage response) as [d|]; [|reflexivity].
  destruct (subscript d "prompt_tokens"); [|reflexivity].
  destruct (subscript d "completion_tokens"); [|reflexivity].
  destruct (subscript d "total_tokens"); [|reflexivity].
  destruct (extract_response_text response) as [text|]; [|reflexivity].
  rewrite Hlog, Htag.
  destruct (parse_json_response text data_type)
    as [[[success parsed] msg]|]; [|reflexivity].
  destruct (success && truthy parsed).
  - by destruct (create_data_objects self (default [] parsed)).
  - destruct (get_max_count self) as [max_count|]; [|reflexivity].
    by destruct (extract_with_regex self text max_count) as [[|first rest]|].
Qed.

(** A [get_data_type] that raises is not caught: the first log line of
    the [try] block raises, or [build_prompt] did before it, and the log
    line of the handler raises again. *)
Lemma analyze_tag_raises (self : BaseAnalyzer) (data : Data)
    (umo : option string) (e : exn) :
  get_data_type self = Raise e -> analyze self data umo = Raise e.
Proof.
  intros Htag.
  unfold Analyzer.analyze, try_except, Analyzer.analyze_body, log.
  unfold_bind. rewrite Htag.
  destruct (build_prompt self data); reflexivity.
Qed.

Lemma response_raises_body (self : BaseAnalyzer) (response : Response)
    (data_type : string) (e : exn) :
  get_data_type self = Ok data_type ->
  response_raises self response e <-> analyze_response self response = Raise e.
Proof.
  intros Htag. rewrite (analyze_response_usage _ _ _ Htag). split.
  - intros Hr.
    inversion Hr as [? H1 | ? ? H1 H2 | ? ? ? ? H1 H2 H0 H3
                    | ? ? ? ? ? ? H1 H2 H0 H3 H4 H5
                    | ? ? ? ? ? ? ? H1 H2 H0 H3 H4 H5
                    | ? ? ? ? ? ? ? ? H1 H2 H0 H3 H4 H5 H6
                    | ? ? ? ? ? ? ? ? ? ? H1 H2 H0 H3 H4 H5 H6 H7]; subst;
      rewrite H1; try rewrite H2;
      try (rewrite Htag in H0; injection H0 as <-; rewrite H3); try done.
    + cbn [andb]. rewrite H4, H5. reflexivity.
    + rewrite H4, H5. reflexivity.
    + rewrite H4, H5, H6. reflexivity.
    + rewrite H4, H5, H6, H7. reflexivity.
  - destruct (token_usage_of response) as [usage|e0] eqn:H1.
    2: { intros [= <-]. by apply RaisesUsage. }
    destruct (extract_response_text response) as [text|e0] eqn:H2.
    2: { intros [= <-]. by eapply RaisesText. }
    destruct (parse_json_response text data_type)
      as [[[success parsed] msg]|e0] eqn:H3.
    2: { intros [= <-]. by eapply RaisesParse. }
    destruct (success && truthy parsed) eqn:H4.
    { apply andb_true_iff in H4 as [-> H4].
      destruct (create_data_objects self (default [] parsed)) eqn:H5;
        [discriminate|].
      intros [= <-]. by eapply RaisesCreate. }
    destruct (get_max_count self) as [max_count|e0] eqn:H5.
    2: { intros [= <-]. by eapply RaisesMaxCount. }
    destruct (extract_with_regex self text max_count)
      as [[|first rest]|e0] eqn:H6.
    + discriminate.
    + destruct (create_data_objects self (first :: rest)) eqn:H7;
        [discriminate|].
      intros [= <-]. by eapply RaisesCreateRegex.
    + intros [= <-]. by eapply RaisesRegex.
Qed.

(** With a [get_data_type] that returns, the [try] block raises exactly
    when one of its steps does. *)
Lemma step_raises_body (self : BaseAnalyzer) (data : Data)
    (umo : option string) (data_type : string) (e : exn) :
  get_data_type self = Ok data_type ->
  step_raises self data umo e <-> analyze_body self data umo = Raise e.
Proof.
  intros Htag. split.
  - intros Hs. rewrite (analyze_body_answer _ _ _ _ Htag).
    inversion Hs as [? H1 | ? ? H1 H2 | ? ? ? H1 H2 H3 | ? ? ? ? H1 H2 H3 H4
                    | ? ? H1 H2]; subst.
    1-4: unfold AnalyzerSpec.provider_answer; unfold_bind;
      rewrite H1; try rewrite H2; try rewrite H3; try rewrite H4; done.
    rewrite H1. by apply (response_raises_body _ _ data_type).
  - rewrite (analyze_body_answer _ _ _ _ Htag).
    destruct (provider_answer self data umo) as [[response|]|e0] eqn:Ha.
    + intros Hr%(response_raises_body _ _ data_type); [|exact Htag].
      by eapply RaisesLater.
    + discriminate.
    + intros [= <-]. revert Ha.
      unfold AnalyzerSpec.provider_answer. unfold_bind.
      destruct (build_prompt self data) as [prompt|] eqn:H1.
      2: { intros [= <-]. by apply RaisesPrompt. }
      destruct (get_max_tokens self) as [max_tokens|] eqn:H2.
      2: { intros [= <-]. by eapply RaisesMaxTokens. }
      destruct (get_temperature self) as [temperature|] eqn:H3.
      2: { intros [= <-]. by eapply RaisesTemperature. }
      intros H4. by eapply RaisesProvider.
Qed.

(** C7. For an analyzer whose [get_data_type] returns, [analyze] never
    raises: it always returns a list and a usage; when the provider gives
    up (returns [None]), and when any step raises, what it returns is the
    empty list with the all-zero usage. *)
Theorem analyze_never_raises (self : BaseAnalyzer) (data : Data)
    (umo : option string) (data_type : string) :
  get_data_type self = Ok data_type ->
  (exists objs usage, analyze self data umo = Ok (objs, usage))
  /\ (provider_answer self data umo = Ok None ->
      analyze self data umo = Ok ([], TokenUsage0))
  /\ (forall e, step_raises self data umo e ->
                analyze self data umo = Ok ([], TokenUsage0)).
Proof.
  intros Htag. pose proof (log_tag self data_type Htag) as Hlog.
  unfold Analyzer.analyze, try_except. split; [|split].
  - destruct (analyze_body self data umo) as [[objs usage]|e]; [by eauto|].
    rewrite Hlog. by eauto.
  - intros Ha. by rewrite (analyze_body_answer _ _ _ _ Htag), Ha.
  - intros e He%(step_raises_body _ _ _ data_type); [|exact Htag].
    by rewrite He, Hlog.
Qed.

(** C8. When the JSON parse fails or yields nothing, the regex extractor
    runs on the raw text with the type's maximum count; its records, when
    there are some, are constructed and returned with the usage read from
    the response, and when there are none the empty list is returned with
    that same usage. *)
Theorem regex_fallback (self : BaseAnalyzer) (data : Data)
    (umo : option string) (response : Response) (usage : TokenUsage)
    (data_type result_text error_msg : string) (success : bool)
    (parsed_data : option (list RawRecord)) (max_count : Z)
    (regex_data : list RawRecord) :
  get_data_type self = Ok data_type ->
  provider_answer self data umo = Ok (Some response) ->
  token_usage_of response = Ok usage ->
  extract_response_text response = Ok result_text ->
  parse_json_response result_text data_type
  = Ok (success, parsed_data, error_msg) ->
  success = false \/ truthy parsed_data = false ->
  get_max_count self = Ok max_count ->
  extract_with_regex self result_text max_count = Ok regex_data ->
  match regex_data with
  | [] => analyze self data umo = Ok ([], usage)
  | _ :: _ =>
      forall data_objects,
        create_data_objects self regex_data = Ok data_objects ->
        analyze self data umo = Ok (data_objects, usage)
  end.
Proof.
  intros Htag Ha Hu Ht Hp Hfail Hmax Hre.
  assert (success && truthy parsed_data = false) as Hcond
    by (destruct Hfail as [-> | ->]; [reflexivity | apply andb_false_r]).
  unfold Analyzer.analyze, try_except.
  rewrite (analyze_body_answer _ _ _ _ Htag), Ha,
    (analyze_response_usage _ _ _ Htag), Hu, Ht, Hp, Hcond, Hmax, Hre.
  destruct regex_data as [|first rest]; [reflexivity|].
  intros data_objects ->. reflexivity.
Qed.

End AnalyzerFacts.

(** ** Concrete runs *)

Import AnalyzerExamples.

#[local] Abbreviation run :=
  (Analyzer.analyze echo_provider usage_10_5_15 text_of no_json).

Lemma analyze_never_raises_witness :
  run lines (Some EmptyString) None = Ok ([], TokenUsage0)
  /\ run lines None None = Ok ([], TokenUsage0)
  /\ exists objs usage, run lines (Some "a topic") None = Ok (objs, usage).
Proof.
  split; [|split].
  - destruct (analyze_never_raises _ _ _ _ _ _ echo_provider usage_10_5_15
                text_of no_json lines (Some EmptyString) None "lines"
                eq_refl) as (_ & Hnone & _).
    apply Hnone. reflexivity.
  - destruct (analyze_never_raises _ _ _ _ _ _ echo_provider usage_10_5_15
                text_of no_json lines None None "lines" eq_refl)
      as (_ & _ & Hraise).
    apply (Hraise (Exception "ValueError")).
    apply RaisesPrompt. reflexivity.
  - destruct (analyze_never_raises _ _ _ _ _ _ echo_provider usage_10_5_15
                text_of no_json lines (Some "a topic") None "lines" eq_refl)
      as (Hret & _).
    exact Hret.
Defined.

(** C7 as stated fails: the exception of a [get_data_type] that raises
    reaches the caller, whether the provider would have answered or
    [build_prompt] had raised first. *)
Lemma raising_tag_propagates :
  run untagged (Some "a topic") None
  = Raise (Exception "NotImplementedError")
  /\ run untagged None None = Raise (Exception "NotImplementedError").
Proof. split; reflexivity. Qed.

Lemma regex_fallback_witness :
  run lines (Some "a topic") None = Ok (["a topic"], mk_TokenUsage 10 5 15)
  /\ run no_lines (Some "a topic") None = Ok ([], mk_TokenUsage 10 5 15).
Proof.
  split.
  - apply (regex_fallback _ _ _ _ _ _ echo_provider usage_10_5_15 text_of
             no_json lines (Some "a topic") None "a topic"
             (mk_TokenUsage 10 5 15) "lines" "a topic" "no JSON found" false
             None 5 ["a topic"]); try reflexivity.
    by left.
  - apply (regex_fallback _ _ _ _ _ _ echo_provider usage_10_5_15 text_of
             no_json no_lines (Some "a topic") None "a topic"
             (mk_TokenUsage 10 5 15) "lines" "a topic" "no JSON found" false
             None 0 []); try reflexivity.
    by left.
Defined.

End AnalyzerFacts.

(** * Further properties of the message handler *)

Module FetchMore.
Import Fetch FetchSpec FetchFacts BotId.

Section Loop.
Variable utc_offset : Z.
Variable h : handler.
Variable api : source.
Variables start_time end_time : Z.

#[local] Abbreviation round := (Fetch.round utc_offset h api start_time end_time).
#[local] Abbreviation fetch_loop :=
  (fun fuel => Fetch.fetch_loop utc_offset fuel h api start_time end_time).
#[local] Abbreviation kept := (FetchSpec.kept utc_offset h start_time end_time).
#[local] Abbreviation paged := (FetchSpec.paged utc_offset h start_time end_time).

(** What holds of every kept message of every page holds of every
    collected message. *)
Lemma fetch_loop_all (P : message -> Prop) (fuel : nat) (st r : loop_state) :
  (forall n seq l m,
      api n seq = Page l -> In m l -> kept m = true -> P m) ->
  (forall m, In m (messages st) -> P m) ->
  fetch_loop fuel st = Some r ->
  forall m, In m (messages r) -> P m.
Proof.
  intros Hpage.
  assert (forall s l seq rounds f,
             api (requests s) (message_seq s) = Page l ->
             (forall m, In m (messages s) -> P m) ->
             forall m, In m (messages (paged s l seq rounds f)) -> P m)
    as Hpaged.
  { intros s l seq rounds f Hapi Hs m. unfold FetchSpec.paged.
    cbn [messages]. rewrite in_app_iff, filter_In.
    intros [Hin|[Hin Hk]]; [by apply Hs | by eapply Hpage]. }
  apply (fetch_loop_rule utc_offset h api start_time end_time
           (fun s => forall m, In m (messages s) -> P m)
           (fun s => forall m, In m (messages s) -> P m)).
  - done.
  - intros s s' Hi _ Hr%round_break_inv.
    inversion Hr; subst; try (by eapply Hpaged); exact Hi.
  - intros s s' Hi _ Hr%round_continue_inv.
    inversion Hr; subst; try (by eapply Hpaged); exact Hi.
Qed.

(** A round issues one request, so the requests are bounded by the rounds. *)
Lemma fetch_loop_requests_fuel (fuel : nat) :
  forall st r, fetch_loop fuel st = Some r ->
               (requests r <= requests st + fuel)%nat.
Proof.
  induction fuel as [|fuel IH]; intros st r; cbn [Fetch.fetch_loop];
    destruct (guard h st); try discriminate.
  - intros [= <-]. lia.
  - pose proof (round_requests utc_offset h api start_time end_time st)
      as Hreq.
    destruct (round st) as [st'|st']; cbn [exit_state] in Hreq.
    + intros [= <-]. lia.
    + intros Hr%IH. lia.
  - intros [= <-]. lia.
Qed.

Lemma fetch_loop_guard_false (fuel : nat) (st : loop_state) :
  guard h st = false -> fetch_loop fuel st = Some st.
Proof. intros Hg. destruct fuel; cbn [Fetch.fetch_loop]; by rewrite Hg. Qed.

(** X5. A page none of whose messages is kept (an empty page as well)
    ends the fetch at once: the loop returns after this one request with
    the messages it had. *)
Theorem stalled_page_stops (fuel : nat) (st : loop_state) (l : list message) :
  guard h st = true ->
  api (requests st) (message_seq st) = Page l ->
  List.filter kept l = [] ->
  exists r,
    fetch_loop (S fuel) st = Some r
    /\ messages r = messages st
    /\ requests r = S (requests st)
    /\ query_rounds r = query_rounds st.
Proof.
  intros Hg Hapi Hnone. cbn [Fetch.fetch_loop]. rewrite Hg.
  pose proof (round_spec utc_offset h api start_time end_time st) as Hc.
  destruct (round st) as [st'|st'] eqn:Hr.
  - exists st'. split; [reflexivity|].
    inversion Hc as [Hf _ | | He | first rest Hp _ | |]; subst.
    + by rewrite Hapi in Hf.
    + by cbn.
    + rewrite Hapi in Hp. injection Hp as ->.
      unfold FetchSpec.paged. cbn [messages requests query_rounds].
      by rewrite Hnone, app_nil_r.
  - exfalso.
    inversion Hc as [| Hf _ | | | first rest Hp _ Hne _
                     | first rest id Hp _ Hne _]; subst.
    + by rewrite Hapi in Hf.
    + rewrite Hapi in Hp. injection Hp as ->. by apply Hne.
    + rewrite Hapi in Hp. injection Hp as ->. by apply Hne.
Qed.

(** X6. Nothing collected is ever dropped: whatever the source does from
    a state on (failures, a stop, the limits), the list the loop returns
    starts with the messages collected so far. *)
Theorem collected_messages_are_kept (fuel : nat) (st r : loop_state) :
  fetch_loop fuel st = Some r ->
  exists more, messages r = messages st ++ more.
Proof.
  revert st. induction fuel as [|fuel IH]; intros st;
    cbn [Fetch.fetch_loop]; destruct (guard h st); try discriminate.
  - intros [= <-]. exists []. by rewrite app_nil_r.
  - pose proof (round_spec utc_offset h api start_time end_time st) as Hc.
    assert (exists more,
               messages (exit_state (round st)) = messages st ++ more)
      as [more Hmore].
    { destruct Hc; cbn [exit_state FetchSpec.paged failed messages];
        eauto; exists []; by rewrite app_nil_r. }
    destruct (round st) as [st'|st']; cbn [exit_state] in Hmore.
    + intros [= <-]. eauto.
    + intros [more' Hr]%IH. exists (more ++ more').
      by rewrite Hr, Hmore, app_assoc.
  - intros [= <-]. exists []. by rewrite app_nil_r.
Qed.

End Loop.

Section Call.
Variable utc_offset : Z.
Variable h : handler.

#[local] Abbreviation fetch_group_messages :=
  (Fetch.fetch_group_messages utc_offset h).

Lemma unset_is_not_self (m : message) : id_unset h = true -> is_self h m = false.
Proof.
  unfold id_unset, is_self. destruct (bot_qq_id h) as [b|]; [|done].
  by intros ->.
Qed.

Lemma not_self_sender (b : string) (m : message) :
  bot_qq_id h = Some b -> b <> EmptyString ->
  is_self h m = false -> msg_sender_id m <> b.
Proof.
  unfold is_self. intros -> Hb.
  destruct (String.eqb_spec b EmptyString); [done|]. cbn [negb andb].
  by destruct (String.eqb_spec (msg_sender_id m) b).
Qed.

Lemma kept_not_self (start_time end_time : Z) (m : message) :
  kept utc_offset h start_time end_time m = true -> is_self h m = false.
Proof.
  unfold kept. intros [_ Hs]%andb_true_iff. by destruct (is_self h m).
Qed.

Lemma fetch_result_not_self (bot_instance : option source)
    (group_id : string) (days now : Z) :
  exists r,
    fetch_group_messages bot_instance group_id days now = Some r
    /\ forall m, In m (r_messages r) -> is_self h m = false.
Proof.
  destruct (fetch_cases utc_offset h bot_instance group_id days now)
    as [[He _] | (api & st & _ & _ & _ & Hloop & He)]; rewrite He.
  - exists empty_result. split; [reflexivity|]. intros m [].
  - eexists. split; [reflexivity|]. cbn [r_messages].
    refine (fetch_loop_all utc_offset h api _ _
              (fun m => is_self h m = false) _ init_state st _ _ Hloop);
      [|intros m []].
    intros n seq l m _ _. apply kept_not_self.
Qed.

(** X1. When the handler knows the bot's id, no message the fetch returns
    was sent by the bot. *)
Theorem own_messages_are_left_out (b : string)
    (bot_instance : option source) (group_id : string) (days now : Z) :
  bot_qq_id h = Some b ->
  b <> EmptyString ->
  exists r,
    fetch_group_messages bot_instance group_id days now = Some r
    /\ forall m, In m (r_messages r) -> msg_sender_id m <> b.
Proof.
  intros Hb Hne.
  destruct (fetch_result_not_self bot_instance group_id days now)
    as (r & He & Hr).
  exists r. split; [exact He|]. intros m Hm%Hr. by eapply not_self_sender.
Qed.

(** X2. The fetch returns nothing the source did not serve: every
    returned message stands in a page that answered one of the requests
    the call sent, with the cursor it was sent with. *)
Theorem returned_messages_were_served (bot_instance : option source)
    (group_id : string) (days now : Z) :
  exists r,
    fetch_group_messages bot_instance group_id days now = Some r
    /\ forall m, In m (r_messages r) ->
         exists api n seq l,
           bot_instance = Some api
           /\ issued utc_offset h api (now - days * Datetime.usec_per_day)
                     now n seq
           /\ (n < r_requests r)%nat
           /\ api n seq = Page l /\ In m l.
Proof.
  destruct (fetch_cases utc_offset h bot_instance group_id days now)
    as [[He _] | (api & st & -> & _ & _ & Hloop & He)]; rewrite He.
  - exists empty_result. split; [reflexivity|]. intros m [].
  - eexists. split; [reflexivity|]. cbn [r_messages r_requests].
    intros m Hm.
    destruct (fetch_loop_served utc_offset h api _ _ _ _ Hloop m Hm)
      as (st0 & l & Hreach & Hg & Hapi & Hin & Hlt).
    exists api, (requests st0), (message_seq st0), l.
    split; [reflexivity|]. split; [by exists st0|]. by repeat split.
Qed.

(** X3. No request goes out exactly when the client or the group id is
    missing, the window cannot be computed, or a limit is not positive. *)
Theorem no_request_iff (bot_instance : option source) (group_id : string)
    (days now : Z) :
  exists r,
    fetch_group_messages bot_instance group_id days now = Some r
    /\ (r_requests r = O <->
        bot_instance = None \/ group_id = EmptyString
        \/ 999999999 < Z.abs days
        \/ Datetime.in_range (now - days * Datetime.usec_per_day) = false
        \/ max_messages h <= 0 \/ max_query_rounds h <= 0).
Proof.
  destruct (fetch_cases utc_offset h bot_instance group_id days now)
    as [[He Hwhy] | (api & st & -> & Hg & Hrange & Hloop & He)]; rewrite He.
  - exists empty_result. split; [reflexivity|]. split; [|reflexivity].
    intros _. tauto.
  - eexists. split; [reflexivity|]. cbn [r_requests].
    destruct (guard h init_state) eqn:Hguard.
    + pose proof (guard_true h _ Hguard) as [Hm Hr].
      cbn [messages query_rounds init_state length] in Hm, Hr.
      apply (fetch_loop_first_request utc_offset h api) in Hloop;
        [|exact Hguard].
      split; [lia|].
      intros [|[|[|[|[|]]]]]; try done; try lia.
      * exfalso. revert He. unfold Fetch.fetch_group_messages.
        destruct (String.eqb_spec group_id EmptyString); [done|].
        unfold Datetime.timedelta_days.
        destruct (Z.leb_spec (Z.abs days) 999999999); [lia|].
        intros [= _ Hreq _]. cbn [requests init_state] in Hloop. lia.
      * congruence.
    + rewrite (fetch_loop_guard_false utc_offset h api) in Hloop
        by exact Hguard.
      injection Hloop as <-. split; [|reflexivity]. intros _.
      unfold guard in Hguard.
      cbn [messages query_rounds init_state length] in Hguard.
      apply andb_false_iff in Hguard as [Hm%Z.ltb_ge | Hr%Z.ltb_ge].
      * right; right; right; right; left. lia.
      * right; right; right; right; right. lia.
Qed.

(** X4. Whatever the source answers, the call ends after at most
    [3 * max_messages] requests. *)
Theorem requests_bounded_by_message_limit (bot_instance : option source)
    (group_id : string) (days now : Z) :
  exists r,
    fetch_group_messages bot_instance group_id days now = Some r
    /\ Z.of_nat (r_requests r) <= Z.max 0 (3 * max_messages h).
Proof.
  destruct (fetch_cases utc_offset h bot_instance group_id days now)
    as [[He _] | (api & st & _ & _ & _ & Hloop & He)]; rewrite He.
  - exists empty_result. split; [reflexivity|]. cbn. lia.
  - eexists. split; [reflexivity|]. cbn [r_requests].
    apply fetch_loop_requests_fuel in Hloop.
    cbn [requests init_state] in Hloop. unfold loop_fuel in Hloop. lia.
Qed.

(** X7. With a negative number of days the window is empty and so is
    the list returned. *)
Theorem negative_days_return_nothing (bot_instance : option source)
    (group_id : string) (days now : Z) :
  days < 0 ->
  exists r,
    fetch_group_messages bot_instance group_id days now = Some r
    /\ r_messages r = [].
Proof.
  intros Hneg.
  destruct (fetch_result_windowed utc_offset h bot_instance group_id days now)
    as (r & He & Hw).
  exists r. split; [exact He|].
  destruct (r_messages r) as [|m l]; [reflexivity|].
  destruct (Hw m) as (t & _ & Ht); [by left|].
  unfold Datetime.usec_per_day, Datetime.usec_per_sec in Ht. lia.
Qed.

End Call.

(** ** The bot's own id *)

Section BotId.
Variable utc_offset : Z.

Lemma round_same_filter (h1 h2 : handler) (api : source)
    (start_time end_time : Z) (st : loop_state) :
  (forall m, is_self h1 m = is_self h2 m) ->
  Fetch.round utc_offset h1 api start_time end_time st
  = Fetch.round utc_offset h2 api start_time end_time st.
Proof.
  intros Hself. unfold Fetch.round.
  destruct (api (requests st) (message_seq st)) as [| |[|first rest]];
    try reflexivity.
  rewrite !scan_page_eq.
  rewrite (List.filter_ext (kept utc_offset h1 start_time end_time)
                           (kept utc_offset h2 start_time end_time));
    [reflexivity|].
  intros m. unfold kept. by rewrite Hself.
Qed.

Lemma fetch_loop_same_filter (h1 h2 : handler) (api : source)
    (start_time end_time : Z) (fuel : nat) :
  max_messages h1 = max_messages h2 ->
  max_query_rounds h1 = max_query_rounds h2 ->
  (forall m, is_self h1 m = is_self h2 m) ->
  forall st,
    Fetch.fetch_loop utc_offset fuel h1 api start_time end_time st
    = Fetch.fetch_loop utc_offset fuel h2 api start_time end_time st.
Proof.
  intros Hm Hr Hself. induction fuel as [|fuel IH]; intros st;
    cbn [Fetch.fetch_loop]; unfold guard; rewrite Hm, Hr; [reflexivity|].
  rewrite (round_same_filter h1 h2) by exact Hself.
  destruct (_ && _); [|reflexivity].
  destruct (Fetch.round utc_offset h2 api start_time end_time st);
    [reflexivity | apply IH].
Qed.

(** X9. A handler whose bot id is unset (never fetched, or fetched as the
    empty string) filters nothing: the fetch returns what it returns for
    a handler with no id at all, messages without a sender id included. *)
Theorem unknown_id_filters_nothing (h : handler)
    (bot_instance : option source) (group_id : string) (days now : Z) :
  id_unset h = true ->
  Fetch.fetch_group_messages utc_offset h bot_instance group_id days now
  = Fetch.fetch_group_messages utc_offset (with_bot_qq_id h None)
                               bot_instance group_id days now.
Proof.
  intros Hunset. unfold Fetch.fetch_group_messages.
  destruct bot_instance as [api|]; [|reflexivity].
  destruct (String.eqb group_id EmptyString); [reflexivity|].
  destruct (Datetime.timedelta_days days) as [delta|]; [|reflexivity].
  destruct (Datetime.datetime_sub now delta) as [start_time|];
    [|reflexivity].
  unfold loop_fuel.
  rewrite (fetch_loop_same_filter h (with_bot_qq_id h None));
    try reflexivity.
  intros m. by rewrite unset_is_not_self.
Qed.

Lemma set_bot_qq_id_limits (h : handler) (bot : option login_reply) :
  max_messages (fst (set_bot_qq_id h bot)) = max_messages h
  /\ max_query_rounds (fst (set_bot_qq_id h bot)) = max_query_rounds h.
Proof.
  unfold set_bot_qq_id. destruct bot as [[| |uid]|]; destruct (id_unset h);
    by cbn.
Qed.

Lemma set_bot_qq_id_latched (h : handler) (bots : list (option login_reply)) :
  id_unset h = false -> set_bot_qq_id_each h bots = (h, O).
Proof.
  intros Hset. induction bots as [|bot bots IH]; [reflexivity|].
  cbn [set_bot_qq_id_each]. unfold set_bot_qq_id. rewrite Hset.
  destruct bot as [reply|]; by rewrite IH.
Qed.

Lemma set_bot_qq_id_each_app (h : handler)
    (bots1 bots2 : list (option login_reply)) :
  set_bot_qq_id_each h (bots1 ++ bots2)
  = (fst (set_bot_qq_id_each (fst (set_bot_qq_id_each h bots1)) bots2),
     (snd (set_bot_qq_id_each h bots1)
      + snd (set_bot_qq_id_each (fst (set_bot_qq_id_each h bots1)) bots2))%nat).
Proof.
  revert h. induction bots1 as [|bot bots1 IH]; intros h;
    cbn [app set_bot_qq_id_each fst snd].
  - by destruct (set_bot_qq_id_each h bots2).
  - destruct (set_bot_qq_id h bot) as [h1 n1]. rewrite IH.
    destruct (set_bot_qq_id_each h1 bots1) as [h2 n2]. cbn [fst snd].
    destruct (set_bot_qq_id_each h2 bots2) as [h3 n3]. cbn [fst snd].
    f_equal. lia.
Qed.

(** X8. The bot's id is fetched until it is known and never again: once
    a call has stored a non-empty id, any further calls leave the handler
    as it is and make no request; the two limits are never touched. *)
Theorem bot_id_is_set_once (h : handler)
    (bots1 bots2 : list (option login_reply)) :
  id_unset (fst (set_bot_qq_id_each h bots1)) = false ->
  set_bot_qq_id_each h (bots1 ++ bots2) = set_bot_qq_id_each h bots1
  /\ max_messages (fst (set_bot_qq_id_each h bots1)) = max_messages h
  /\ max_query_rounds (fst (set_bot_qq_id_each h bots1)) = max_query_rounds h.
Proof.
  intros Hset. split.
  - rewrite set_bot_qq_id_each_app, (set_bot_qq_id_latched _ bots2 Hset).
    cbn [fst snd]. destruct (set_bot_qq_id_each h bots1). cbn [fst snd].
    f_equal. lia.
  - clear Hset. revert h. induction bots1 as [|bot bots1 IH]; intros h;
      cbn [set_bot_qq_id_each]; [done|].
    pose proof (set_bot_qq_id_limits h bot) as [Hm Hr].
    destruct (set_bot_qq_id h bot) as [h1 n1]. cbn [fst] in Hm, Hr.
    specialize (IH h1). destruct (set_bot_qq_id_each h1 bots1).
    cbn [fst] in *. destruct IH as [IHm IHr].
    split; [by rewrite IHm | by rewrite IHr].
Qed.

(** X10. Once [set_bot_qq_id] has learnt the id [b] from the login
    info, a fetch with that handler returns no message sent by [b]. *)
Theorem learnt_id_is_filtered (h : handler) (b : string)
    (bot_instance : option source) (group_id : string) (days now : Z) :
  id_unset h = true ->
  b <> EmptyString ->
  exists r,
    Fetch.fetch_group_messages utc_offset
      (fst (set_bot_qq_id h (Some (LoginInfo (Some b)))))
      bot_instance group_id days now = Some r
    /\ forall m, In m (r_messages r) -> msg_sender_id m <> b.
Proof.
  intros Hunset Hb. unfold set_bot_qq_id. rewrite Hunset. cbn [fst default].
  destruct (fetch_result_not_self utc_offset (with_bot_qq_id h (Some b))
              bot_instance group_id days now) as (r & He & Hr).
  exists r. split; [exact He|]. intros m Hm%Hr.
  by eapply (not_self_sender (with_bot_qq_id h (Some b))).
Qed.

End BotId.

(** ** Concrete runs *)

Import FetchExamples MoreExamples.

Lemma own_messages_are_left_out_witness :
  exists r,
    Fetch.fetch_group_messages 0 knows_b (Some always_recent) "g" 1 now
    = Some r
    /\ forall m, In m (r_messages r) -> msg_sender_id m <> "b".
Proof.
  apply (own_messages_are_left_out 0 knows_b "b" (Some always_recent) "g" 1
           now); [reflexivity | discriminate].
Defined.

Lemma stalled_page_stops_witness :
  exists r,
    Fetch.fetch_loop 0 1 roomy ancient yesterday now one_collected = Some r
    /\ messages r = messages one_collected
    /\ requests r = 2%nat
    /\ query_rounds r = 1.
Proof.
  apply (stalled_page_stops 0 roomy ancient yesterday now O one_collected
           ancient_page); reflexivity.
Defined.

Lemma collected_messages_are_kept_witness :
  exists r more,
    Fetch.fetch_loop 0 5 roomy always_recent yesterday now one_collected
    = Some r
    /\ messages r = messages one_collected ++ more.
Proof.
  destruct (Fetch.fetch_loop 0 5 roomy always_recent yesterday now
                             one_collected) as [r|] eqn:Hloop.
  - destruct (collected_messages_are_kept 0 roomy always_recent yesterday now
                5 one_collected r Hloop) as [more Hmore].
    exists r, more. split; [reflexivity | exact Hmore].
  - vm_compute in Hloop. discriminate Hloop.
Defined.

Lemma negative_days_return_nothing_witness :
  exists r,
    Fetch.fetch_group_messages 0 roomy (Some always_recent) "g" (-1) now
    = Some r
    /\ r_messages r = [].
Proof.
  apply (negative_days_return_nothing 0 roomy (Some always_recent) "g" (-1)
           now). reflexivity.
Defined.

Lemma unknown_id_filters_nothing_witness :
  Fetch.fetch_group_messages 0 empty_id (Some always_recent) "g" 1 now
  = Fetch.fetch_group_messages 0 (with_bot_qq_id empty_id None)
                               (Some always_recent) "g" 1 now.
Proof.
  apply (unknown_id_filters_nothing 0 empty_id (Some always_recent) "g" 1 now).
  reflexivity.
Defined.

Lemma bot_id_is_set_once_witness :
  set_bot_qq_id_each roomy (logins ++ later_logins)
  = (knows_b, 3%nat)
  /\ max_messages knows_b = 100 /\ max_query_rounds knows_b = 5.
Proof.
  destruct (bot_id_is_set_once roomy logins later_logins eq_refl)
    as (Hsame & Hm & Hr).
  split; [rewrite Hsame; reflexivity|]. split; reflexivity.
Defined.

Lemma learnt_id_is_filtered_witness :
  exists r,
    Fetch.fetch_group_messages 0
      (fst (set_bot_qq_id roomy (Some (LoginInfo (Some "b")))))
      (Some always_recent) "g" 1 now = Some r
    /\ forall m, In m (r_messages r) -> msg_sender_id m <> "b".
Proof.
  apply (learnt_id_is_filtered 0 roomy "b" (Some always_recent) "g" 1 now);
    [reflexivity | discriminate].
Defined.

End FetchMore.

(** * Further properties of calculate_statistics *)

Module StatsMore.
Import Stats StatsSpec StatsFacts CountSpec.

(** ** Substrings *)

Lemma append_cons (x : ascii) (a s : string) :
  (String x a ++ s = String x (a ++ s))%string.
Proof. reflexivity. Qed.

Lemma append_nil (s : string) : (EmptyString ++ s = s)%string.
Proof. reflexivity. Qed.

Lemma append_assoc (a b c : string) :
  ((a ++ b) ++ c = a ++ (b ++ c))%string.
Proof.
  induction a as [|x a IH]; [reflexivity|].
  by rewrite !append_cons, IH.
Qed.

Lemma prefix_iff (needle hay : string) :
  String.prefix needle hay = true
  <-> exists post, hay = (needle ++ post)%string.
Proof.
  revert hay. induction needle as [|x needle IH]; intros [|y hay]; simpl.
  - split; [intros _; by exists EmptyString | done].
  - split; [intros _; by exists (String y hay) | done].
  - split; [done | intros [post Hp]; discriminate].
  - destruct (Ascii.ascii_dec x y) as [->|Hne].
    + rewrite IH. split; intros [post Hp]; exists post;
        rewrite append_cons in *; congruence.
    + split; [done | intros [post Hp]].
      rewrite append_cons in Hp. congruence.
Qed.

Lemma contains_iff (needle hay : string) :
  contains needle hay = true
  <-> exists pre post, hay = (pre ++ needle ++ post)%string.
Proof.
  induction hay as [|y hay IH]; cbn [contains].
  - rewrite prefix_iff. split.
    + intros [post Hp]. by exists EmptyString, post.
    + intros ([|x pre] & post & Hp); [by exists post | discriminate].
  - rewrite orb_true_iff, prefix_iff, IH. split.
    + intros [[post Hp] | (pre & post & Hp)].
      * by exists EmptyString, post.
      * exists (String y pre), post. by rewrite append_cons, Hp.
    + intros ([|x pre] & post & Hp).
      * left. by exists post.
      * right. rewrite append_cons in Hp. injection Hp as _ Hp.
        by exists pre, post.
Qed.

(** A text that holds [a ++ b] holds [b]. *)
Lemma contains_suffix (a b hay : string) :
  contains (a ++ b) hay = true -> contains b hay = true.
Proof.
  rewrite !contains_iff. intros (pre & post & ->).
  exists (pre ++ a)%string, post. by rewrite !append_assoc.
Qed.

Lemma sticker_marker (summary : string) :
  contains "动画表情" summary || contains "表情" summary
  = contains "表情" summary.
Proof.
  destruct (contains "动画表情" summary) eqn:Hlong; [|reflexivity].
  cbn [orb]. symmetry. by apply (contains_suffix "动画" "表情").
Qed.

(** ** The sum of the details *)

Lemma details_total_insert (k : string) (v : Z) (d : gmap string Z) :
  d !! k = None -> details_total (<[k := v]> d) = v + details_total d.
Proof.
  intros Hk. unfold details_total.
  rewrite map_fold_insert_L; [reflexivity | intros; lia | exact Hk].
Qed.

Lemma details_total_incr (k : string) (d : gmap string Z) :
  details_total (incr k d) = details_total d + 1.
Proof.
  unfold incr. destruct (d !! k) as [v|] eqn:Hk; cbn [default].
  - rewrite <- (insert_delete_eq d k (v + 1)).
    rewrite details_total_insert by apply lookup_delete_eq.
    replace (details_total d)
      with (details_total (<[k := v]> (delete k d)))
      by (by rewrite insert_delete_id).
    rewrite details_total_insert by apply lookup_delete_eq. lia.
  - rewrite details_total_insert by exact Hk. lia.
Qed.

Lemma details_total_empty : details_total ∅ = 0.
Proof. reflexivity. Qed.

(** ** One segment, all segments *)

Section Counting.
Variable utc_offset : Z.
Variable range_error : Z -> exn.
Variable data_str_lower : dict -> string.

#[local] Abbreviation count_content := (Stats.count_content data_str_lower).
#[local] Abbreviation count_contents := (StatsSpec.count_contents data_str_lower).
#[local] Abbreviation object_loop :=
  (StatsSpec.object_loop utc_offset range_error data_str_lower).
#[local] Abbreviation hours_of := (StatsSpec.hours_of utc_offset).
#[local] Abbreviation outcome := (StatsSpec.outcome utc_offset range_error data_str_lower).
#[local] Abbreviation classify := (CountSpec.classify data_str_lower).
#[local] Abbreviation counted_as := (CountSpec.counted_as data_str_lower).
#[local] Abbreviation is_emoji := (CountSpec.is_emoji data_str_lower).
#[local] Abbreviation has_detail := (CountSpec.has_detail data_str_lower).
#[local] Abbreviation tallies := (CountSpec.tallies data_str_lower).
#[local] Abbreviation emojis := (CountSpec.emojis data_str_lower).
#[local] Abbreviation detailed := (CountSpec.detailed data_str_lower).

Ltac close_branch :=
  cbn; first [lia | reflexivity | apply details_total_incr].

Ltac chain c :=
  unfold Stats.count_content, CountSpec.counted_as, CountSpec.is_emoji,
    CountSpec.has_detail, text_chars;
  unfold CountSpec.classify;
  rewrite ?sticker_marker;
  destruct (type_is c "text"); [close_branch|];
  destruct (type_is c "face"); [close_branch|];
  destruct (type_is c "mface"); [close_branch|];
  destruct (type_is c "bface"); [close_branch|];
  destruct (type_is c "sface"); [close_branch|];
  destruct (type_is c "image");
    [destruct (contains "表情" _); close_branch|];
  destruct ((type_is c "record" || type_is c "video") && _);
    close_branch.

Lemma count_content_chars (c : content) (tc : Z) (es : EmojiStatistics) :
  fst (count_content c tc es) = tc + text_chars c.
Proof. chain c. Qed.

Lemma count_content_counter (cat : category) (c : content) (tc : Z)
    (es : EmojiStatistics) :
  counter cat (snd (count_content c tc es))
  = counter cat es + (if counted_as cat c then 1 else 0).
Proof. destruct cat; chain c. Qed.

Lemma count_content_details (c : content) (tc : Z) (es : EmojiStatistics) :
  details_total (face_details (snd (count_content c tc es)))
  = details_total (face_details es) + (if has_detail c then 1 else 0).
Proof. chain c. Qed.

Lemma filter_length_cons {A} (f : A -> bool) (a : A) (l : list A) :
  Z.of_nat (length (List.filter f (a :: l)))
  = (if f a then 1 else 0) + Z.of_nat (length (List.filter f l)).
Proof. cbn [List.filter]. destruct (f a); cbn [length]; lia. Qed.

Lemma count_contents_closed (cs : list content) :
  forall (tc : Z) (es : EmojiStatistics),
    fst (count_contents cs (tc, es)) = tc + chars cs
    /\ (forall cat, counter cat (snd (count_contents cs (tc, es)))
                    = counter cat es + tallies cat cs)
    /\ details_total (face_details (snd (count_contents cs (tc, es))))
       = details_total (face_details es) + detailed cs.
Proof.
  unfold CountSpec.tallies, CountSpec.detailed.
  induction cs as [|c cs IH]; intros tc es.
  - cbn. repeat split; intros; lia.
  - cbn [StatsSpec.count_contents fold_left fst snd chars].
    fold (count_contents cs (count_content c tc es)).
    destruct (count_content c tc es) as [tc' es'] eqn:Hc.
    destruct (IH tc' es') as (Hchars & Hcount & Hdet).
    pose proof (count_content_chars c tc es) as H1.
    pose proof (count_content_details c tc es) as H3.
    rewrite Hc in H1, H3. cbn [fst snd] in H1, H3.
    split; [rewrite Hchars; lia|]. split.
    + intros cat. rewrite Hcount.
      pose proof (count_content_counter cat c tc es) as H2.
      rewrite Hc in H2. cbn [snd] in H2.
      rewrite H2, filter_length_cons. lia.
    + rewrite Hdet, H3, filter_length_cons. lia.
Qed.

(** The locals and the object after the loop, read off the messages. *)
Lemma object_loop_closed (msgs : list message) :
  forall (lv : locals) (es : EmojiStatistics) (hs : list Z),
    hours_of msgs = Some hs ->
    exists lv' es',
      object_loop lv es msgs = (Ok lv', es')
      /\ total_chars lv' = total_chars lv + chars (segments msgs)
      /\ participants lv' = participants lv ∪ list_to_set (senders msgs)
      /\ (forall cat, counter cat es'
                      = counter cat es + tallies cat (segments msgs))
      /\ details_total (face_details es')
         = details_total (face_details es) + detailed (segments msgs).
Proof.
  induction msgs as [|msg msgs IH]; intros lv es hs;
    cbn [StatsSpec.hours_of StatsSpec.object_loop].
  - intros _. exists lv, es. split; [reflexivity|].
    split; [unfold segments; cbn; lia|]. split.
    { unfold senders. cbn [map list_to_set]. by rewrite (right_id_L ∅ (∪)). }
    unfold segments, CountSpec.tallies, CountSpec.detailed.
    split; [intros cat; cbn; lia | cbn; lia].
  - unfold hour_of, StatsSpec.object_step.
    destruct (Datetime.fromtimestamp utc_offset (msg_time_field msg))
      as [t|]; cbn [fmap option_fmap option_map]; [|discriminate].
    destruct (hours_of msgs) as [hs'|] eqn:Hhs; [|discriminate].
    intros _.
    destruct (count_contents_closed (contents_of msg) (total_chars lv) es)
      as (Hchars & Hcount & Hdet).
    match goal with
    | |- context [object_loop ?lv1 ?es1 msgs] =>
        destruct (IH lv1 es1 hs' eq_refl)
          as (lv' & es' & Hloop & Htc & Hp & Hc & Hd)
    end.
    exists lv', es'. split; [exact Hloop|].
    cbn [total_chars participants] in Htc, Hp.
    unfold segments, senders, CountSpec.tallies, CountSpec.detailed in *.
    cbn [flat_map map list_to_set].
    rewrite !List.filter_app, !length_app, !Nat2Z.inj_add.
    assert (forall a b, chars (a ++ b) = chars a + chars b) as Happ
      by (intros a b; induction a as [|x a IHa]; cbn [chars app]; lia).
    rewrite Happ, Htc, Hchars, Hd, Hdet.
    split; [lia|]. split; [by rewrite Hp, (assoc_L (∪))|]. split; [|lia].
    intros cat. rewrite Hc, Hcount, List.filter_app, length_app,
      Nat2Z.inj_add. lia.
Qed.

End Counting.

(** ** The arguments of the call *)

Lemma py_len_nonneg (s : string) : 0 <= py_len s.
Proof.
  induction s as [|a s IH]; cbn [py_len]; [lia|].
  destruct (is_continuation a); lia.
Qed.

Lemma chars_nonneg (cs : list content) : 0 <= chars cs.
Proof.
  induction cs as [|c cs IH]; cbn [chars]; [lia|].
  unfold text_chars. destruct (type_is c "text"); [|lia].
  pose proof (py_len_nonneg (get_default (data_of c) "text" EmptyString)).
  lia.
Qed.

Lemma chars_app (a b : list content) : chars (a ++ b) = chars a + chars b.
Proof. induction a as [|x a IH]; cbn [chars app]; lia. Qed.

Lemma segments_app (a b : list message) :
  segments (a ++ b) = segments a ++ segments b.
Proof. unfold segments. apply flat_map_app. Qed.

Lemma remove_dups_length (l : list string) :
  (length (remove_dups l) <= length l)%nat.
Proof.
  induction l as [|x l IH]; cbn [remove_dups length]; [lia|].
  destruct (decide_rel elem_of x l); cbn [length]; lia.
Qed.

Lemma size_senders (l : list string) :
  size (list_to_set l : gset string) = length (remove_dups l).
Proof.
  rewrite <- (size_list_to_set (C := gset string) (remove_dups l))
    by apply NoDup_remove_dups.
  f_equal. apply set_eq. intros x.
  by rewrite !elem_of_list_to_set, elem_of_remove_dups.
Qed.

Section Fields.
Variable utc_offset : Z.
Variable range_error : Z -> exn.
Variable data_str_lower : dict -> string.
Variables (VisState AV : Type).
Variable generate_activity_visualization :
  VisState -> list message -> res exn AV * VisState.

#[local] Abbreviation statistics_arguments :=
  (Stats.statistics_arguments utc_offset range_error data_str_lower VisState
                              AV generate_activity_visualization).
#[local] Abbreviation calculate_statistics :=
  (Stats.calculate_statistics utc_offset range_error data_str_lower VisState
                              AV generate_activity_visualization).
#[local] Abbreviation object_loop :=
  (StatsSpec.object_loop utc_offset range_error data_str_lower).
#[local] Abbreviation hours_of := (StatsSpec.hours_of utc_offset).
#[local] Abbreviation outcome :=
  (StatsSpec.outcome utc_offset range_error data_str_lower).
#[local] Abbreviation classify := (CountSpec.classify data_str_lower).
#[local] Abbreviation counted_as := (CountSpec.counted_as data_str_lower).
#[local] Abbreviation is_emoji := (CountSpec.is_emoji data_str_lower).
#[local] Abbreviation has_detail := (CountSpec.has_detail data_str_lower).
#[local] Abbreviation tallies := (CountSpec.tallies data_str_lower).
#[local] Abbreviation emojis := (CountSpec.emojis data_str_lower).
#[local] Abbreviation detailed := (CountSpec.detailed data_str_lower).
#[local] Abbreviation converts :=
  (fun m => Datetime.fromtimestamp utc_offset (msg_time_field m) <> None).

Lemma hours_of_converts (msgs : list message) :
  hours_of msgs <> None <-> Forall converts msgs.
Proof.
  induction msgs as [|m msgs IH]; cbn [StatsSpec.hours_of].
  - split; [constructor | done].
  - rewrite Forall_cons, <- IH. unfold hour_of.
    destruct (Datetime.fromtimestamp utc_offset (msg_time_field m)) as [t|];
      cbn [fmap option_fmap option_map].
    + destruct (hours_of msgs); split; try done; intros [_ Hn]; done.
    + split; [done | intros [Hn _]; done].
Qed.

(** The loop stops at the first timestamp that does not convert, with
    the exception of that conversion. *)
Lemma object_loop_range (msgs : list message) :
  forall (lv : locals) (es : EmojiStatistics),
    hours_of msgs = None ->
    exists m,
      In m msgs
      /\ Datetime.fromtimestamp utc_offset (msg_time_field m) = None
      /\ fst (object_loop lv es msgs) = Raise (range_error (msg_time_field m)).
Proof.
  induction msgs as [|m msgs IH]; intros lv es;
    cbn [StatsSpec.hours_of StatsSpec.object_loop]; [discriminate|].
  unfold hour_of, StatsSpec.object_step.
  destruct (Datetime.fromtimestamp utc_offset (msg_time_field m)) as [t|]
    eqn:Ht; cbn [fmap option_fmap option_map].
  - destruct (hours_of msgs) eqn:Hhs; [discriminate|]. intros _.
    match goal with
    | |- context [object_loop ?lv' ?es' msgs] =>
        destruct (IH lv' es' eq_refl) as (m' & Hin & Hm' & Hraise)
    end.
    exists m'. split; [by right|]. by split.
  - intros _. exists m. split; [by left|]. by split.
Qed.

(** What the keyword arguments hold, read off the messages. *)
Lemma argument_fields (vis vis' : VisState) (hp hp' : heap)
    (msgs : list message) (kw : keywords loc AV) :
  statistics_arguments vis hp msgs = (Ok kw, hp', vis') ->
  exists es,
    hp' !! kw_emoji_statistics kw = Some es
    /\ hours_of msgs <> None
    /\ kw_message_count kw = Z.of_nat (length msgs)
    /\ kw_total_characters kw = chars (segments msgs)
    /\ kw_participant_count kw
       = Z.of_nat (size (list_to_set (senders msgs) : gset string))
    /\ kw_emoji_count kw = total_emoji_count es
    /\ (forall cat, counter cat es = tallies cat (segments msgs))
    /\ details_total (face_details es) = detailed (segments msgs).
Proof.
  rewrite statistics_arguments_eq.
  destruct (hours_of msgs) as [hs|] eqn:Hhs.
  2: { unfold StatsSpec.outcome.
       destruct (object_loop_range msgs (mk_locals 0 ∅ []) EmojiStatistics0
                   Hhs) as (m & _ & _ & ->).
       discriminate. }
  destruct (object_loop_closed utc_offset range_error data_str_lower msgs
              (mk_locals 0 ∅ []) EmojiStatistics0 hs Hhs)
    as (lv & es & Hloop & Htc & Hp & Hc & Hd).
  unfold StatsSpec.outcome. rewrite Hloop. cbn [fst snd].
  destruct (generate_activity_visualization vis msgs) as [[av|e] vis''];
    [|discriminate].
  intros [= <- <- _]. exists es. unfold build.
  cbn [kw_emoji_statistics kw_message_count kw_total_characters kw_participant_count
       kw_emoji_count].
  split; [apply lookup_last|]. split; [done|]. split; [reflexivity|].
  cbn [total_chars participants] in Htc, Hp.
  split; [lia|]. split; [by rewrite Hp, (left_id_L ∅ (∪))|].
  split; [reflexivity|]. split.
  - intros cat. rewrite Hc. by destruct cat.
  - rewrite Hd. change (face_details EmojiStatistics0) with (∅ : gmap string Z).
    rewrite details_total_empty. lia.
Qed.

(** ** Segments and counters *)

Lemma classify_key (c : content) (cat : category) (key : option string) :
  classify c = Some (cat, key) -> (key = None <-> cat = OtherEmoji).
Proof.
  unfold CountSpec.classify.
  destruct (type_is c "text"); [discriminate|].
  destruct (type_is c "face"); [by intros [= <- <-]|].
  destruct (type_is c "mface"); [by intros [= <- <-]|].
  destruct (type_is c "bface"); [by intros [= <- <-]|].
  destruct (type_is c "sface"); [by intros [= <- <-]|].
  destruct (type_is c "image").
  { destruct (contains "表情" _); [by intros [= <- <-] | discriminate]. }
  destruct ((type_is c "record" || type_is c "video") && _);
    [by intros [= <- <-] | discriminate].
Qed.

Lemma emoji_not_text (c : content) :
  is_emoji c = true -> type_is c "text" = false.
Proof.
  unfold CountSpec.is_emoji, CountSpec.classify.
  by destruct (type_is c "text").
Qed.

Lemma emoji_one_counter (c : content) :
  (if is_emoji c then 1 else 0)
  = (if counted_as Face c then 1 else 0)
    + (if counted_as MFace c then 1 else 0)
    + (if counted_as BFace c then 1 else 0)
    + (if counted_as SFace c then 1 else 0)
    + (if counted_as OtherEmoji c then 1 else 0).
Proof.
  unfold CountSpec.is_emoji, CountSpec.counted_as.
  by destruct (classify c) as [[[] key]|].
Qed.

Lemma detail_one_counter (c : content) :
  (if has_detail c then 1 else 0)
  = (if counted_as Face c then 1 else 0)
    + (if counted_as MFace c then 1 else 0)
    + (if counted_as BFace c then 1 else 0)
    + (if counted_as SFace c then 1 else 0).
Proof.
  unfold CountSpec.has_detail, CountSpec.counted_as.
  destruct (classify c) as [[cat key]|] eqn:Hc; [|reflexivity].
  apply classify_key in Hc.
  destruct cat, key as [k|]; try reflexivity.
  all: destruct Hc as [H1 H2]; first [by specialize (H1 eq_refl)
                                     | by specialize (H2 eq_refl)].
Qed.

Lemma emojis_sum (cs : list content) :
  emojis cs = tallies Face cs + tallies MFace cs + tallies BFace cs
              + tallies SFace cs + tallies OtherEmoji cs.
Proof.
  unfold CountSpec.emojis, CountSpec.tallies.
  induction cs as [|c cs IH]; [reflexivity|].
  rewrite !filter_length_cons, IH, emoji_one_counter. lia.
Qed.

Lemma detailed_sum (cs : list content) :
  detailed cs = tallies Face cs + tallies MFace cs + tallies BFace cs
                + tallies SFace cs.
Proof.
  unfold CountSpec.detailed, CountSpec.tallies.
  induction cs as [|c cs IH]; [reflexivity|].
  rewrite !filter_length_cons, IH, detail_one_counter. lia.
Qed.

Lemma emojis_not_text (cs : list content) :
  emojis cs
  <= Z.of_nat (length (List.filter (fun c => negb (type_is c "text")) cs)).
Proof.
  unfold CountSpec.emojis.
  induction cs as [|c cs IH]; [reflexivity|].
  rewrite !filter_length_cons.
  destruct (is_emoji c) eqn:He; [rewrite (emoji_not_text c He); cbn; lia|].
  destruct (negb (type_is c "text")); lia.
Qed.

Lemma chars_no_text (cs : list content) :
  Forall (fun c => type_is c "text" = false) cs -> chars cs = 0.
Proof.
  induction 1 as [|c cs Hc _ IH]; cbn [chars]; [reflexivity|].
  unfold text_chars. rewrite Hc. lia.
Qed.



(** X14. Among the arguments the method evaluates, [participant_count]
    is the number of distinct sender ids (a message without one counts
    under the empty id): never more than [message_count], and at least
    one when there is a message. *)
Theorem participants_are_distinct_senders (vis vis' : VisState)
    (hp hp' : heap) (msgs : list message) (kw : keywords loc AV) :
  statistics_arguments vis hp msgs = (Ok kw, hp', vis') ->
  kw_participant_count kw = Z.of_nat (length (remove_dups (senders msgs)))
  /\ kw_participant_count kw <= kw_message_count kw
  /\ (msgs <> [] -> 1 <= kw_participant_count kw).
Proof.
  intros (es & _ & _ & Hmc & _ & Hpc & _)%argument_fields.
  rewrite Hpc, Hmc, size_senders. split; [reflexivity|]. split.
  - pose proof (remove_dups_length (senders msgs)) as Hle.
    unfold senders in Hle at 2. rewrite length_map in Hle. lia.
  - intros Hne. destruct msgs as [|m msgs]; [done|].
    assert (msg_sender_id m ∈ remove_dups (senders (m :: msgs))) as Hin
      by (apply elem_of_remove_dups; left).
    destruct (remove_dups (senders (m :: msgs))); [|cbn [length]; lia].
    by apply elem_of_nil in Hin.
Qed.

(** X16. Every emoji counted under one of the four sticker counters has
    its entry in [face_details]: in the object passed as
    [emoji_statistics] the values of [face_details] add up to
    [face_count + mface_count + bface_count + sface_count], and the
    argument [emoji_count] is that sum plus [other_emoji_count]. *)
Theorem details_add_up (vis vis' : VisState) (hp hp' : heap)
    (msgs : list message) (kw : keywords loc AV) :
  statistics_arguments vis hp msgs = (Ok kw, hp', vis') ->
  exists es,
    hp' !! kw_emoji_statistics kw = Some es
    /\ details_total (face_details es)
       = face_count es + mface_count es + bface_count es + sface_count es
    /\ kw_emoji_count kw
       = details_total (face_details es) + other_emoji_count es.
Proof.
  intros (es & Hes & _ & _ & _ & _ & Hec & Hc & Hd)%argument_fields.
  exists es. split; [exact Hes|].
  rewrite Hd, detailed_sum, Hec. unfold total_emoji_count.
  rewrite <- (Hc Face), <- (Hc MFace), <- (Hc BFace), <- (Hc SFace).
  cbn [counter]. split; lia.
Qed.

(** X17. A segment is counted once at most, as text or as an emoji:
    the argument [emoji_count] is between 0 and the number of segments
    that are not text, and [total_characters] is never negative and is 0
    when no segment is text. *)
Theorem segments_are_counted_once (vis vis' : VisState) (hp hp' : heap)
    (msgs : list message) (kw : keywords loc AV) :
  statistics_arguments vis hp msgs = (Ok kw, hp', vis') ->
  0 <= kw_emoji_count kw
       <= Z.of_nat (length (List.filter (fun c => negb (type_is c "text"))
                                        (segments msgs)))
  /\ 0 <= kw_total_characters kw
  /\ (Forall (fun c => type_is c "text" = false) (segments msgs) ->
      kw_total_characters kw = 0).
Proof.
  intros (es & _ & _ & _ & Htc & _ & Hec & Hc & _)%argument_fields.
  assert (kw_emoji_count kw = emojis (segments msgs)) as ->.
  { rewrite Hec, emojis_sum. unfold total_emoji_count.
    rewrite <- (Hc Face), <- (Hc MFace), <- (Hc BFace), <- (Hc SFace),
      <- (Hc OtherEmoji). reflexivity. }
  rewrite Htc. split; [|split].
  - split; [unfold CountSpec.emojis; lia | apply emojis_not_text].
  - apply chars_nonneg.
  - apply chars_no_text.
Qed.

(** X18. An image segment is counted, as an animated sticker under
    [mface_count], exactly when its summary holds the two characters of
    "sticker"; the longer marker tested first never decides. *)
Theorem image_is_a_sticker_iff (c : content) (tc : Z)
    (es : EmojiStatistics) :
  type_is c "image" = true ->
  Stats.count_content data_str_lower c tc es
  = if contains "表情" (get_default (data_of c) "summary" EmptyString)
    then (tc,
          mk_EmojiStatistics (face_count es) (mface_count es + 1)
            (bface_count es) (sface_count es) (other_emoji_count es)
            (incr ("animated_" ++ get_default (data_of c) "file" "unknown")
                  (face_details es)))
    else (tc, es).
Proof.
  intros Himg.
  assert (forall t, t <> "image" -> type_is c t = false) as Hother.
  { intros t Ht. revert Himg. unfold type_is.
    destruct (c_type c) as [t'|]; [|discriminate].
    intros ->%String.eqb_eq. apply String.eqb_neq. congruence. }
  unfold Stats.count_content.
  rewrite (Hother "text"), (Hother "face"), (Hother "mface"),
    (Hother "bface"), (Hother "sface"), Himg by discriminate.
  by rewrite sticker_marker.
Qed.

Lemma tallies_app (cat : category) (a b : list content) :
  tallies cat (a ++ b) = tallies cat a + tallies cat b.
Proof.
  unfold CountSpec.tallies.
  rewrite List.filter_app, length_app. lia.
Qed.

Lemma size_senders_app (a b : list string) :
  (size (list_to_set (a ++ b) : gset string)
   <= size (list_to_set a : gset string)
      + size (list_to_set b : gset string))%nat
  /\ (size (list_to_set a : gset string)
      <= size (list_to_set (a ++ b) : gset string))%nat
  /\ (size (list_to_set b : gset string)
      <= size (list_to_set (a ++ b) : gset string))%nat.
Proof.
  rewrite list_to_set_app_L. split; [|split].
  - rewrite size_union_alt.
    assert (size (list_to_set b ∖ list_to_set a : gset string)
            <= size (list_to_set b : gset string))%nat as Hle
      by (apply subseteq_size, subseteq_difference_l; reflexivity).
    lia.
  - apply subseteq_size. set_solver.
  - apply subseteq_size. set_solver.
Qed.

(** X15. Counting two lists one after the other adds up: the
    arguments [message_count], [total_characters] and [emoji_count]
    evaluated for the concatenation are the sums of those for the parts,
    while its [participant_count] is at least that of either part and at
    most both together. *)
Theorem statistics_of_concatenation
    (vis1 vis1' vis2 vis2' vis3 vis3' : VisState)
    (hp1 hp1' hp2 hp2' hp3 hp3' : heap) (msgs1 msgs2 : list message)
    (kw1 kw2 kw : keywords loc AV) :
  statistics_arguments vis1 hp1 msgs1 = (Ok kw1, hp1', vis1') ->
  statistics_arguments vis2 hp2 msgs2 = (Ok kw2, hp2', vis2') ->
  statistics_arguments vis3 hp3 (msgs1 ++ msgs2) = (Ok kw, hp3', vis3') ->
  kw_message_count kw = kw_message_count kw1 + kw_message_count kw2
  /\ kw_total_characters kw = kw_total_characters kw1 + kw_total_characters kw2
  /\ kw_emoji_count kw = kw_emoji_count kw1 + kw_emoji_count kw2
  /\ kw_participant_count kw <= kw_participant_count kw1 + kw_participant_count kw2
  /\ kw_participant_count kw1 <= kw_participant_count kw
  /\ kw_participant_count kw2 <= kw_participant_count kw.
Proof.
  intros (es1 & _ & _ & Hm1 & Ht1 & Hp1 & He1 & Hc1 & _)%argument_fields
         (es2 & _ & _ & Hm2 & Ht2 & Hp2 & He2 & Hc2 & _)%argument_fields
         (es & _ & _ & Hm & Ht & Hp & He & Hc & _)%argument_fields.
  rewrite Hm, Hm1, Hm2, Ht, Ht1, Ht2, Hp, Hp1, Hp2, He, He1, He2.
  unfold total_emoji_count.
  pose proof (Hc Face) as HF. pose proof (Hc MFace) as HM.
  pose proof (Hc BFace) as HB. pose proof (Hc SFace) as HS.
  pose proof (Hc OtherEmoji) as HO.
  pose proof (Hc1 Face). pose proof (Hc1 MFace). pose proof (Hc1 BFace).
  pose proof (Hc1 SFace). pose proof (Hc1 OtherEmoji).
  pose proof (Hc2 Face). pose proof (Hc2 MFace). pose proof (Hc2 BFace).
  pose proof (Hc2 SFace). pose proof (Hc2 OtherEmoji).
  rewrite segments_app, tallies_app in HF, HM, HB, HS, HO.
  cbn [counter] in *.
  rewrite segments_app, chars_app, length_app.
  unfold senders. rewrite map_app.
  pose proof (size_senders_app (map msg_sender_id msgs1)
                               (map msg_sender_id msgs2)) as Hsz.
  lia.
Qed.


End Fields.

(** ** Concrete runs *)

Import StatsExamples FetchExamples.

#[local] Abbreviation run :=
  (Stats.statistics_arguments 0 year_error no_repr nat nat
                              counting_visualizer).
#[local] Abbreviation call :=
  (Stats.calculate_statistics 0 year_error no_repr nat nat
                              counting_visualizer).


Lemma participants_are_distinct_senders_witness :
  exists kw hp',
    run O [] mixed = (Ok kw, hp', 1%nat)
    /\ kw_participant_count kw = 1
    /\ kw_participant_count kw <= kw_message_count kw.
Proof.
  destruct (run O [] mixed) as [[r hp'] v] eqn:Hrun.
  pose proof Hrun as Hval. vm_compute in Hval.
  injection Hval as <- <- <-.
  eexists _, _. split; [reflexivity|].
  destruct (participants_are_distinct_senders _ _ _ _ _ _ _ _ _ _ _ _ Hrun)
    as (Hpc & Hle & _).
  split; [exact Hpc | exact Hle].
Defined.

Lemma details_add_up_witness :
  exists kw hp' es,
    run O [] mixed = (Ok kw, hp', 1%nat)
    /\ hp' !! kw_emoji_statistics kw = Some es
    /\ details_total (face_details es)
       = face_count es + mface_count es + bface_count es + sface_count es
    /\ kw_emoji_count kw
       = details_total (face_details es) + other_emoji_count es.
Proof.
  destruct (run O [] mixed) as [[r hp'] v] eqn:Hrun.
  pose proof Hrun as Hval. vm_compute in Hval.
  injection Hval as <- <- <-.
  destruct (details_add_up _ _ _ _ _ _ _ _ _ _ _ _ Hrun)
    as (es & Hes & Hd & He).
  eexists _, _, es. split; [reflexivity|]. split; [exact Hes|].
  split; [exact Hd | exact He].
Defined.

Lemma segments_are_counted_once_witness :
  exists kw hp',
    run O [] mixed = (Ok kw, hp', 1%nat)
    /\ 0 <= kw_emoji_count kw <= 5
    /\ 0 <= kw_total_characters kw.
Proof.
  destruct (run O [] mixed) as [[r hp'] v] eqn:Hrun.
  pose proof Hrun as Hval. vm_compute in Hval.
  injection Hval as <- <- <-.
  eexists _, _. split; [reflexivity|].
  destruct (segments_are_counted_once _ _ _ _ _ _ _ _ _ _ _ _ Hrun)
    as (He & Ht & _).
  split; [exact He | exact Ht].
Defined.

Lemma image_is_a_sticker_iff_witness :
  Stats.count_content no_repr (image "[动画表情]") 0 EmojiStatistics0
  = (0, mk_EmojiStatistics 0 1 0 0 0 (incr "animated_f.gif" ∅))
  /\ Stats.count_content no_repr (image "photo") 0 EmojiStatistics0
     = (0, EmojiStatistics0).
Proof.
  split.
  - exact (image_is_a_sticker_iff no_repr (image "[动画表情]") 0
                                  EmojiStatistics0 eq_refl).
  - exact (image_is_a_sticker_iff no_repr (image "photo") 0
                                  EmojiStatistics0 eq_refl).
Defined.

Lemma statistics_of_concatenation_witness :
  exists kw1 kw2 kw hp1 hp2 hp3,
    run O [] mixed = (Ok kw1, hp1, 1%nat)
    /\ run O [] nine_first = (Ok kw2, hp2, 1%nat)
    /\ run O [] (mixed ++ nine_first) = (Ok kw, hp3, 1%nat)
    /\ kw_message_count kw = kw_message_count kw1 + kw_message_count kw2
    /\ kw_total_characters kw = kw_total_characters kw1 + kw_total_characters kw2
    /\ kw_emoji_count kw = kw_emoji_count kw1 + kw_emoji_count kw2
    /\ kw_participant_count kw <= kw_participant_count kw1 + kw_participant_count kw2.
Proof.
  destruct (run O [] mixed) as [[r1 hp1] v1] eqn:Hrun1.
  pose proof Hrun1 as Hval. vm_compute in Hval.
  injection Hval as <- <- <-.
  destruct (run O [] nine_first) as [[r2 hp2] v2] eqn:Hrun2.
  pose proof Hrun2 as Hval. vm_compute in Hval.
  injection Hval as <- <- <-.
  destruct (run O [] (mixed ++ nine_first)) as [[r3 hp3] v3] eqn:Hrun3.
  pose proof Hrun3 as Hval. vm_compute in Hval.
  injection Hval as <- <- <-.
  eexists _, _, _, _, _, _.
  split; [reflexivity|]. split; [reflexivity|]. split; [reflexivity|].
  destruct (statistics_of_concatenation _ _ _ _ _ _ _ _ _ _ _ _ _ _ _ _ _ _
              _ _ _ _ _ Hrun1 Hrun2 Hrun3) as (Hm & Ht & He & Hp & _).
  split; [exact Hm|]. split; [exact Ht|]. split; [exact He | exact Hp].
Defined.


End StatsMore.

(** * Further properties of analyze *)

Module AnalyzerMore.
Import Analyzer AnalyzerSpec AnalyzerFacts.

Lemma subscript_missing (d : list (string * Z)) (key : string) :
  ~ In key (map fst d) -> subscript d key = Raise (Exception "KeyError").
Proof.
  induction d as [|[k v] d IH]; [reflexivity|].
  cbn [map fst In subscript]. intros Hnot.
  destruct (String.eqb_spec k key) as [->|_]; [tauto|].
  apply IH. tauto.
Qed.

Section AnalyzerMore.
Variables (Context ConfigManager Data Response RawRecord DataObject : Type).

#[local] Abbreviation BaseAnalyzer :=
  (Analyzer.BaseAnalyzer Context ConfigManager Data RawRecord DataObject).

Variable call_provider_with_retry :
  Context -> ConfigManager -> string -> Z -> Q -> option string ->
  res exn (option Response).
Variable extract_token_usage : Response -> res exn (list (string * Z)).
Variable extract_response_text : Response -> res exn string.
Variable parse_json_response :
  string -> string -> res exn (bool * option (list RawRecord) * string).

#[local] Abbreviation analyze :=
  (Analyzer.analyze call_provider_with_retry extract_token_usage
                    extract_response_text parse_json_response).
#[local] Abbreviation provider_answer :=
  (AnalyzerSpec.provider_answer Context ConfigManager Data Response
     RawRecord DataObject call_provider_with_retry).
#[local] Abbreviation token_usage_of :=
  (AnalyzerSpec.token_usage_of Response extract_token_usage).

(** X19. When the JSON parse succeeds with a non-empty list, its records
    alone decide the result: they are constructed and returned with the
    usage of the response, whatever the regex extractor and the maximum
    count would do, and a failure to construct them gives the empty
    result. *)
Theorem json_first (self : BaseAnalyzer) (data : Data)
    (umo : option string) (response : Response) (usage : TokenUsage)
    (data_type result_text error_msg : string)
    (parsed_data : list RawRecord) :
  get_data_type self = Ok data_type ->
  provider_answer self data umo = Ok (Some response) ->
  token_usage_of response = Ok usage ->
  extract_response_text response = Ok result_text ->
  parse_json_response result_text data_type
  = Ok (true, Some parsed_data, error_msg) ->
  parsed_data <> [] ->
  analyze self data umo
  = match create_data_objects self parsed_data with
    | Ok data_objects => Ok (data_objects, usage)
    | Raise _ => Ok ([], TokenUsage0)
    end.
Proof.
  intros Htag Ha Hu Ht Hp Hne.
  unfold Analyzer.analyze, try_except.
  rewrite (analyze_body_answer _ _ _ _ _ _ _ _ _ _ _ _ _ _ Htag), Ha,
    (analyze_response_usage _ _ _ _ _ _ _ _ _ _ _ _ Htag), Hu, Ht, Hp.
  destruct parsed_data as [|first rest]; [done|].
  cbn. rewrite (log_tag _ _ _ _ _ _ _ Htag).
  by destruct (create_data_objects self (first :: rest)).
Qed.

(** X20. Where a result comes from: [analyze] returns either the empty
    list with the all-zero usage, or the usage read from the provider's
    response together with a list that is empty or was constructed by
    [create_data_objects] from a non-empty list of records. *)
Theorem results_are_constructed (self : BaseAnalyzer) (data : Data)
    (umo : option string) (objs : list DataObject) (usage : TokenUsage) :
  analyze self data umo = Ok (objs, usage) ->
  (objs = [] /\ usage = TokenUsage0)
  \/ exists response,
       provider_answer self data umo = Ok (Some response)
       /\ token_usage_of response = Ok usage
       /\ (objs = []
           \/ exists records,
                records <> []
                /\ create_data_objects self records = Ok objs).
Proof.
  destruct (get_data_type self) as [data_type|e] eqn:Htag.
  2: { by rewrite (analyze_tag_raises _ _ _ _ _ _ _ _ _ _ _ _ _ _ Htag). }
  unfold Analyzer.analyze, try_except.
  rewrite (log_tag _ _ _ _ _ _ _ Htag).
  rewrite (analyze_body_answer _ _ _ _ _ _ _ _ _ _ _ _ _ _ Htag).
  destruct (provider_answer self data umo) as [[response|]|e] eqn:Ha.
  2, 3: intros [= <- <-]; by left.
  rewrite (analyze_response_usage _ _ _ _ _ _ _ _ _ _ _ _ Htag).
  destruct (token_usage_of response) as [usage'|] eqn:Hu.
  2: intros [= <- <-]; by left.
  destruct (extract_response_text response) as [text|].
  2: intros [= <- <-]; by left.
  destruct (parse_json_response text data_type)
    as [[[success parsed] msg]|].
  2: intros [= <- <-]; by left.
  destruct (success && truthy parsed) eqn:Hcond.
  - apply andb_true_iff in Hcond as [_ Htruthy].
    destruct parsed as [[|first rest]|]; try discriminate. cbn.
    destruct (create_data_objects self (first :: rest)) as [objs'|] eqn:Hc.
    2: intros [= <- <-]; by left.
    intros [= <- <-]. right. exists response.
    split; [reflexivity|]. split; [exact Hu|]. right.
    by exists (first :: rest).
  - destruct (get_max_count self) as [max_count|].
    2: intros [= <- <-]; by left.
    destruct (extract_with_regex self text max_count) as [[|first rest]|].
    3: intros [= <- <-]; by left.
    + intros [= <- <-]. right. exists response.
      split; [reflexivity|]. split; [exact Hu|]. by left.
    + destruct (create_data_objects self (first :: rest)) as [objs'|] eqn:Hc.
      2: intros [= <- <-]; by left.
      intros [= <- <-]. right. exists response.
      split; [reflexivity|]. split; [exact Hu|]. right.
      by exists (first :: rest).
Qed.

(** X21. A usage dict that lacks one of its three keys costs the whole
    analysis: the lookup raises, and [analyze] returns the empty list
    with the all-zero usage whatever the response text holds. *)
Theorem missing_usage_key (self : BaseAnalyzer) (data : Data)
    (umo : option string) (response : Response) (d : list (string * Z))
    (data_type key : string) :
  get_data_type self = Ok data_type ->
  provider_answer self data umo = Ok (Some response) ->
  extract_token_usage response = Ok d ->
  In key ["prompt_tokens"; "completion_tokens"; "total_tokens"] ->
  ~ In key (map fst d) ->
  analyze self data umo = Ok ([], TokenUsage0).
Proof.
  intros Htag Ha Hd Hkey Hmiss%subscript_missing.
  unfold Analyzer.analyze, try_except.
  rewrite (log_tag _ _ _ _ _ _ _ Htag).
  rewrite (analyze_body_answer _ _ _ _ _ _ _ _ _ _ _ _ _ _ Htag), Ha,
    (analyze_response_usage _ _ _ _ _ _ _ _ _ _ _ _ Htag).
  unfold AnalyzerSpec.token_usage_of, mbind, res_bind, bind. rewrite Hd.
  destruct Hkey as [<- | [<- | [<- | []]]]; rewrite ?Hmiss.
  - reflexivity.
  - by destruct (subscript d "prompt_tokens").
  - destruct (subscript d "prompt_tokens"); [|reflexivity].
    by destruct (subscript d "completion_tokens").
Qed.

End AnalyzerMore.

(** ** Concrete runs *)

Import AnalyzerExamples AnalyzerMoreExamples.

Lemma json_first_witness :
  Analyzer.analyze echo_provider usage_10_5_15 text_of one_record
                   no_fallback (Some "a topic") None
  = Ok (["a topic"], mk_TokenUsage 10 5 15).
Proof.
  apply (json_first _ _ _ _ _ _ echo_provider usage_10_5_15 text_of
           one_record no_fallback (Some "a topic") None "a topic"
           (mk_TokenUsage 10 5 15) "lines" "a topic" EmptyString
           ["a topic"]);
    try reflexivity.
  discriminate.
Defined.

Lemma results_are_constructed_witness :
  Analyzer.analyze echo_provider usage_10_5_15 text_of no_json lines
                   (Some "a topic") None
  = Ok (["a topic"], mk_TokenUsage 10 5 15)
  /\ exists response,
       AnalyzerSpec.provider_answer unit unit (option string) string string
         string echo_provider lines (Some "a topic") None
       = Ok (Some response)
       /\ AnalyzerSpec.token_usage_of string usage_10_5_15 response
          = Ok (mk_TokenUsage 10 5 15).
Proof.
  split; [reflexivity|].
  destruct (results_are_constructed _ _ _ _ _ _ echo_provider usage_10_5_15
              text_of no_json lines (Some "a topic") None ["a topic"]
              (mk_TokenUsage 10 5 15) eq_refl)
    as [[Hnil _] | (response & Ha & Hu & _)].
  - discriminate Hnil.
  - exists response. split; [exact Ha | exact Hu].
Defined.

Lemma missing_usage_key_witness :
  Analyzer.analyze echo_provider usage_no_total text_of one_record
                   lines (Some "a topic") None
  = Ok ([], TokenUsage0).
Proof.
  apply (missing_usage_key _ _ _ _ _ _ echo_provider usage_no_total text_of
           one_record lines (Some "a topic") None "a topic"
           [("prompt_tokens", 10); ("completion_tokens", 5)]
           "lines" "total_tokens"); try reflexivity.
  - cbn. tauto.
  - cbn. intros [H | [H | []]]; discriminate H.
Defined.

End AnalyzerMore.

(** * Properties of generate_image_report *)

Module ReportFacts.
Import ImageReport ReportSpec.

Section ReportFacts.
Variable Payload : Type.
Variable image_template : string.

#[local] Abbreviation generate_image_report :=
  (ImageReport.generate_image_report Payload image_template).

(** X22. The image report is tried at most twice, at quality 95 and then
    at quality 70 with the same template and payload; the second attempt
    is made only after the first raised, none is made when the data could
    not be prepared, and the result is the URL of the last attempt, or
    [None] when every attempt made raised. *)
Theorem image_report_attempts (prepared : res exn Payload)
    (html_render_func : renderer Payload) (r : option string)
    (calls : list (render_call Payload)) :
  generate_image_report prepared html_render_func = (r, calls) ->
  (map (fun c => quality (rc_options Payload c)) calls = [95]
   \/ map (fun c => quality (rc_options Payload c)) calls = [95; 70]
   \/ calls = [])
  /\ (calls = [] <-> exists e, prepared = Raise e)
  /\ (forall n c,
        calls !! n = Some c ->
        rc_template Payload c = image_template
        /\ rc_return_url Payload c = true
        /\ full_page (rc_options Payload c) = true
        /\ image_type (rc_options Payload c) = "jpeg"
        /\ prepared = Ok (rc_payload Payload c)
        /\ ((S n < length calls)%nat ->
            exists e, attempt html_render_func n c = Raise e))
  /\ match r with
     | Some image_url =>
         exists c, last calls = Some c
                   /\ attempt html_render_func (length calls - 1) c
                      = Ok image_url
     | None =>
         forall n c, calls !! n = Some c ->
                     exists e, attempt html_render_func n c = Raise e
     end.
Proof.
  unfold ImageReport.generate_image_report, attempt.
  destruct prepared as [render_payload|e0].
  2: { intros [= <- <-]. split; [tauto|].
       split; [split; [intros _; by exists e0 | done]|].
       split; intros n c Hn; cbn in Hn; discriminate Hn. }
  destruct (html_render_func O image_template render_payload true
                             image_options_default) as [url|e1] eqn:H1.
  { intros [= <- <-]. split; [by left|].
    split; [split; [done | by intros [e He]]|].
    split.
    - intros [|n] c Hn; [|cbn in Hn; discriminate Hn].
      injection Hn as <-. cbn. repeat split; try reflexivity. lia.
    - eexists. split; [reflexivity|]. exact H1. }
  destruct (html_render_func 1%nat image_template render_payload true
                             simple_options) as [url|e2] eqn:H2.
  - intros [= <- <-]. split; [by right; left|].
    split; [split; [done | by intros [e He]]|].
    split.
    + intros [|[|n]] c Hn; [| |cbn in Hn; discriminate Hn];
        injection Hn as <-; cbn; repeat split; try reflexivity.
      * intros _. eexists. exact H1.
      * lia.
    + eexists. split; [reflexivity|]. exact H2.
  - intros [= <- <-]. split; [by right; left|].
    split; [split; [done | by intros [e He]]|].
    split.
    + intros [|[|n]] c Hn; [| |cbn in Hn; discriminate Hn];
        injection Hn as <-; cbn; repeat split; try reflexivity.
      * intros _. eexists. exact H1.
      * lia.
    + intros [|[|n]] c Hn; [| |cbn in Hn; discriminate Hn];
        injection Hn as <-; eexists; [exact H1 | exact H2].
Qed.

End ReportFacts.

Lemma image_report_attempts_witness :
  exists calls c,
    ImageReport.generate_image_report string "<html>" (Ok "data") fails_once
    = (Some "url:data", calls)
    /\ last calls = Some c
    /\ attempt fails_once (length calls - 1) c = Ok "url:data".
Proof.
  destruct (image_report_attempts string "<html>" (Ok "data") fails_once
              (Some "url:data")
              [mk_render_call string "<html>" "data" true
                              image_options_default;
               mk_render_call string "<html>" "data" true simple_options]
              eq_refl) as (_ & _ & _ & c & Hlast & Hc).
  eexists _, c. split; [reflexivity|]. split; [exact Hlast | exact Hc].
Defined.

End ReportFacts.

(** * Properties of _render_html_template *)

Module TemplateFacts.
Import Template.

Lemma append_nil_r (s : string) : (s ++ EmptyString = s)%string.
Proof.
  induction s as [|a s IH]; [reflexivity|].
  by rewrite StatsMore.append_cons, IH.
Qed.

Lemma prefix_refl (s : string) : String.prefix s s = true.
Proof.
  apply StatsMore.prefix_iff. exists EmptyString. by rewrite append_nil_r.
Qed.

Lemma contains_front (a b hay : string) :
  contains (a ++ b) hay = true -> contains a hay = true.
Proof.
  rewrite !StatsMore.contains_iff. intros (pre & post & ->).
  exists pre, (b ++ post)%string. by rewrite StatsMore.append_assoc.
Qed.

Lemma replace_skip_all (old new s : string) (skip : nat) :
  (String.length s <= skip)%nat -> replace_skip old new skip s = EmptyString.
Proof.
  revert skip. induction s as [|a s IH]; intros skip; [reflexivity|].
  cbn [String.length replace_skip]. destruct skip as [|k]; [lia|].
  intros Hle. apply IH. lia.
Qed.

Lemma replace_self (a : ascii) (old new : string) :
  replace (String a old) new (String a old) = new.
Proof.
  unfold replace. cbn [replace_skip]. rewrite prefix_refl.
  rewrite replace_skip_all by (cbn [String.length]; lia).
  apply append_nil_r.
Qed.

Lemma replace_absent (old new s : string) :
  contains old s = false -> replace old new s = s.
Proof.
  unfold replace. induction s as [|a s IH]; [reflexivity|].
  cbn [contains replace_skip]. intros [-> Hrest]%orb_false_iff.
  by rewrite IH.
Qed.

Lemma placeholder_brace (use_jinja_style : bool) (key : string) :
  exists rest, placeholder use_jinja_style key = ("{" ++ rest)%string.
Proof.
  destruct use_jinja_style; unfold placeholder;
    rewrite !StatsMore.append_cons; eauto.
Qed.

Lemma no_brace_no_placeholder (use_jinja_style : bool) (key hay : string) :
  contains "{" hay = false ->
  contains (placeholder use_jinja_style key) hay = false.
Proof.
  intros Hno. destruct (placeholder_brace use_jinja_style key) as [rest ->].
  destruct (contains ("{" ++ rest) hay) eqn:Hc; [|reflexivity].
  apply contains_front in Hc. congruence.
Qed.

(** X23. A template in which no placeholder of the data occurs comes
    back unchanged, and so does every template without an opening brace,
    whatever the data and the placeholder style. *)
Theorem unused_keys_change_nothing (template : string)
    (data : list (string * string)) (use_jinja_style : bool) :
  contains "{" template = false
  \/ Forall (fun item =>
               contains (placeholder use_jinja_style (fst item)) template
               = false) data ->
  _render_html_template template data use_jinja_style = template.
Proof.
  intros Habsent.
  assert (Forall (fun item =>
                    contains (placeholder use_jinja_style (fst item))
                             template = false) data) as Hall.
  { destruct Habsent as [Hno | Hall]; [|exact Hall].
    apply Forall_forall. intros item _.
    by apply no_brace_no_placeholder. }
  clear Habsent. unfold _render_html_template.
  induction Hall as [|[key value] data Hkey _ IH]; [reflexivity|].
  cbn [fold_left]. cbn [fst] in Hkey. by rewrite replace_absent.
Qed.

Lemma replace_skip_over (old new x post : string) :
  replace_skip old new (String.length x) (x ++ post) = replace old new post.
Proof.
  induction x as [|a x IH]; [by destruct post|].
  rewrite StatsMore.append_cons. cbn [String.length replace_skip]. exact IH.
Qed.

Lemma replace_here (a : ascii) (old new post : string) :
  replace (String a old) new (String a old ++ post)
  = (new ++ replace (String a old) new post)%string.
Proof.
  unfold replace at 1. rewrite StatsMore.append_cons. cbn [replace_skip].
  rewrite <- StatsMore.append_cons.
  replace (String.prefix (String a old) (String a old ++ post)) with true
    by (symmetry; apply StatsMore.prefix_iff; by exists post).
  replace (String.length (String a old) - 1)%nat with (String.length old)
    by (cbn [String.length]; lia).
  by rewrite replace_skip_over.
Qed.

Lemma prefix_cons (x y : ascii) (s1 s2 : string) :
  String.prefix (String x s1) (String y s2)
  = if Ascii.ascii_dec x y then String.prefix s1 s2 else false.
Proof. reflexivity. Qed.

Lemma replace_after (old new pre post : string) :
  contains "{" pre = false ->
  replace (String "{" old) new (pre ++ String "{" old ++ post)
  = (pre ++ new ++ replace (String "{" old) new post)%string.
Proof.
  induction pre as [|a pre IH].
  - intros _. rewrite !StatsMore.append_nil. apply replace_here.
  - cbn [contains]. intros [Ha Hpre]%orb_false_iff.
    rewrite !(StatsMore.append_cons a pre). unfold replace in *.
    cbn [replace_skip]. rewrite prefix_cons. rewrite prefix_cons in Ha.
    revert Ha. destruct (Ascii.ascii_dec "{" a) as [_|_]; [by destruct pre|].
    intros _. by rewrite IH.
Qed.

(** X24. Values are inserted as they are and rendered again: where a
    key's placeholder follows text without a brace, it is replaced by the
    key's value, and what the remaining keys are applied to holds that
    value, so that a placeholder inside a value is substituted too. *)
Theorem inserted_values_are_rendered_again (pre post key value : string)
    (rest : list (string * string)) (use_jinja_style : bool) :
  contains "{" pre = false ->
  _render_html_template (pre ++ placeholder use_jinja_style key ++ post)
                        ((key, value) :: rest) use_jinja_style
  = _render_html_template
      (pre ++ value ++ replace (placeholder use_jinja_style key) value post)
      rest use_jinja_style.
Proof.
  intros Hpre. unfold _render_html_template. cbn [fold_left]. f_equal.
  destruct (placeholder_brace use_jinja_style key) as [tail ->].
  rewrite StatsMore.append_cons, StatsMore.append_nil.
  by apply replace_after.
Qed.

Lemma unused_keys_change_nothing_witness :
  _render_html_template "<p>{name}</p>" [("title", "x"); ("date", "y")] false
  = "<p>{name}</p>"
  /\ _render_html_template "<p>name</p>" [("name", "x")] true = "<p>name</p>".
Proof.
  split.
  - apply unused_keys_change_nothing. right.
    repeat constructor.
  - apply unused_keys_change_nothing. left. reflexivity.
Defined.

Lemma inserted_values_are_rendered_again_witness :
  _render_html_template "<p>{name}</p>" [("name", "{x}"); ("x", "!")] false
  = "<p>!</p>".
Proof.
  exact (inserted_values_are_rendered_again "<p>" "</p>" "name" "{x}"
           [("x", "!")] false eq_refl).
Defined.

End TemplateFacts.
